(** * Neuro-lens meeting guardian: signal filter, cognitive model, face tracker

    A shallow embedding of [src/components/cognitiveModel.ts] (the Kalman
    signal filter and the geometric estimator) and of the tracking core of
    [src/components/MeetingGuardian.tsx] (the body-language classifier and
    the per-frame track manager inside [analyzeFrame]), followed by the
    properties of the specification stated over it.

    Number model.  A JavaScript [number] is embedded as an exact real
    ([R]); the value [NaN], which the source uses as the "not yet
    initialised" marker of the Kalman filter, is [None] in an [option R].
    Rounding of IEEE-754 doubles, overflow to infinity and the loss of
    integer precision above 2^53 are outside this model.  The signal
    filter is embedded a second time, over doubles with overflow
    ([Double], [KalmanFilter64]); the properties of the filter on its own
    are stated there, and the two embeddings agree wherever nothing
    overflows.  Integer-valued
    numbers that the source uses as counters or identities are [Z] or
    [nat].  [Date.now()] is an argument of the function that reads it.

    Layout.  First the embedding, one module per class, interface or
    component of the source; then the vocabulary of the specification
    (formulas, rule list, invariants, example inputs); then the lemmas and
    the theorems C1 to C10. *)

From Stdlib Require Import String DecimalString DecimalZ.
From Stdlib Require Import Reals Lra Lia ZArith Bool List.
Import ListNotations.

Open Scope R_scope.

(** ** JavaScript arithmetic helpers *)

Module Js.

(** [a < b] on numbers, as a boolean. *)
Definition ltb (a b : R) : bool := if Rlt_dec a b then true else false.

(** [a > b] on numbers, as a boolean. *)
Definition gtb (a b : R) : bool := ltb b a.

(** A possibly-NaN number; every comparison with NaN is false. *)
Definition number := option R.

Definition gtb_nan (a : number) (b : R) : bool :=
  match a with Some v => gtb v b | None => false end.

(** [Math.abs], [Math.max], [Math.min], [Math.sqrt]. *)
Definition Math_abs (a : R) : R := Rabs a.
Definition Math_max (a b : R) : R := Rmax a b.
Definition Math_min (a b : R) : R := Rmin a b.
Definition Math_sqrt (a : R) : R := sqrt a.

(** [Math.pow(b, e)] at the call sites of the source: either the
    exponent is the integer [2] ([Math_pow2]) or the base is an absolute
    value and the exponent is positive ([Math_pow]); [Math.pow(0, e)] is
    [0] for positive [e], where [Rpower] alone would give [1]. *)
Definition Math_pow2 (b : R) : R := b ^ 2.
Definition Math_pow (b e : R) : R :=
  if Rle_dec b 0 then 0 else Rpower b e.

(** [parseFloat(v.toFixed(2))]: the integer [n] for which [n / 100] is
    closest to [v], the larger one on a tie; [toFixed] works on the
    absolute value and puts the sign back. *)
Definition toFixed2_abs (v : R) : R := IZR (Zfloor (v * 100 + / 2)) / 100.
Definition toFixed2 (v : R) : R :=
  if Rlt_dec v 0 then - toFixed2_abs (- v) else toFixed2_abs v.
Definition toFixed2_nan (v : number) : number := option_map toFixed2 v.

End Js.

(** [Math.max(0, Math.min(100, v))], the clamp both estimators use. *)
Definition clamp100 (v : R) : R := Js.Math_max 0 (Js.Math_min 100 v).

Definition in_range (v : R) : Prop := 0 <= v <= 100.

(** ** cognitiveModel.ts: class KalmanFilter *)

Module KalmanFilter.

Record t := mk {
  R_ : R;            (* process noise *)
  Q_ : R;            (* measurement noise *)
  A : R;             (* state vector *)
  B : R;             (* control vector *)
  C : R;             (* measurement vector *)
  cov : Js.number;   (* NaN until the first measurement *)
  x : Js.number      (* estimated signal, NaN until the first measurement *)
}.

(** [constructor(processNoise, measurementNoise)] on top of the field
    initialisers. *)
Definition new (processNoise measurementNoise : R) : t :=
  {| R_ := processNoise; Q_ := measurementNoise;
     A := 1; B := 0; C := 1; cov := None; x := None |}.

(** [filter(measurement)]: the updated filter and the returned [this.x].
    In the second branch [this.cov] is read; were it NaN every value
    computed from it would be NaN as well. *)
Definition filter (k : t) (measurement : R) : t * Js.number :=
  match x k with
  | None =>
      let x' := (1 / C k) * measurement in
      let cov' := (1 / C k) * Q_ k * (1 / C k) in
      ({| R_ := R_ k; Q_ := Q_ k; A := A k; B := B k; C := C k;
          cov := Some cov'; x := Some x' |}, Some x')
  | Some x0 =>
      match cov k with
      | None =>
          ({| R_ := R_ k; Q_ := Q_ k; A := A k; B := B k; C := C k;
              cov := None; x := None |}, None)
      | Some cov0 =>
          let predX := (A k * x0) + (B k * 0) in
          let predCov := ((A k * cov0) * A k) + R_ k in
          let K := predCov * C k * (1 / ((C k * predCov * C k) + Q_ k)) in
          let x' := predX + K * (measurement - (C k * predX)) in
          let cov' := predCov - (K * C k * predCov) in
          ({| R_ := R_ k; Q_ := Q_ k; A := A k; B := B k; C := C k;
              cov := Some cov'; x := Some x' |}, Some x')
      end
  end.

(** The filter after a sequence of calls, outputs dropped. *)
Definition feed (k : t) (ms : list R) : t :=
  fold_left (fun k m => fst (filter k m)) ms k.

End KalmanFilter.

(** ** Doubles with overflow *)

(** A JavaScript number as the filter's arithmetic can produce it: a
    real, an infinity or NaN.  An exact result beyond [Number.MAX_VALUE]
    in magnitude becomes an infinity; rounding to 53 bits and the sign of
    zero are not represented (a zero divisor counts as [+0]). *)
Module Double.

Inductive t := Fin (r : R) | PosInf | NegInf | NaN.

(** [Number.MAX_VALUE]. *)
Definition MAX_VALUE : R := IZR (2 ^ 1024 - 2 ^ 970).

Definition ofReal (r : R) : t :=
  if Rlt_dec MAX_VALUE r then PosInf
  else if Rlt_dec r (- MAX_VALUE) then NegInf
  else Fin r.

Definition isNaN (a : t) : bool :=
  match a with NaN => true | _ => false end.

Definition isFinite (a : t) : bool :=
  match a with Fin _ => true | _ => false end.

Definition opp (a : t) : t :=
  match a with
  | Fin r => Fin (- r)
  | PosInf => NegInf
  | NegInf => PosInf
  | NaN => NaN
  end.

Definition add (a b : t) : t :=
  match a, b with
  | NaN, _ | _, NaN => NaN
  | Fin r, Fin s => ofReal (r + s)
  | PosInf, NegInf | NegInf, PosInf => NaN
  | PosInf, _ | _, PosInf => PosInf
  | NegInf, _ | _, NegInf => NegInf
  end.

Definition sub (a b : t) : t := add a (opp b).

(** An infinity times a finite factor: the sign follows the factor, and
    [Infinity * 0] is NaN. *)
Definition scale (i : t) (r : R) : t :=
  if Rlt_dec 0 r then i else if Rlt_dec r 0 then opp i else NaN.

Definition mul (a b : t) : t :=
  match a, b with
  | NaN, _ | _, NaN => NaN
  | Fin r, Fin s => ofReal (r * s)
  | Fin r, i => scale i r
  | i, Fin s => scale i s
  | PosInf, PosInf | NegInf, NegInf => PosInf
  | _, _ => NegInf
  end.

Definition div (a b : t) : t :=
  match a, b with
  | NaN, _ | _, NaN => NaN
  | Fin r, Fin s =>
      if Req_dec_T s 0 then scale PosInf r else ofReal (r / s)
  | Fin _, _ => Fin 0
  | i, Fin s => if Rlt_dec s 0 then opp i else i
  | _, _ => NaN
  end.

Declare Scope double_scope.
Delimit Scope double_scope with D.
Bind Scope double_scope with t.
Infix "+" := add : double_scope.
Infix "-" := sub : double_scope.
Infix "*" := mul : double_scope.
Infix "/" := div : double_scope.

End Double.

(** ** cognitiveModel.ts: class KalmanFilter, over doubles with overflow *)

Module KalmanFilter64.
Import Double.

Record t := mk {
  R_ : Double.t;     (* process noise *)
  Q_ : Double.t;     (* measurement noise *)
  A : Double.t;      (* state vector *)
  B : Double.t;      (* control vector *)
  C : Double.t;      (* measurement vector *)
  cov : Double.t;
  x : Double.t       (* estimated signal *)
}.

(** [constructor(processNoise, measurementNoise)] on top of the field
    initialisers. *)
Definition new (processNoise measurementNoise : Double.t) : t :=
  {| R_ := processNoise; Q_ := measurementNoise;
     A := Fin 1; B := Fin 0; C := Fin 1; cov := NaN; x := NaN |}.

(** [filter(measurement)]: the updated filter and the returned [this.x]. *)
Definition filter (k : t) (measurement : Double.t) : t * Double.t :=
  if isNaN (x k) then
    let x' := ((Fin 1 / C k) * measurement)%D in
    let cov' := ((Fin 1 / C k) * Q_ k * (Fin 1 / C k))%D in
    ({| R_ := R_ k; Q_ := Q_ k; A := A k; B := B k; C := C k;
        cov := cov'; x := x' |}, x')
  else
    let predX := ((A k * x k) + (B k * Fin 0))%D in
    let predCov := (((A k * cov k) * A k) + R_ k)%D in
    let K :=
      (predCov * C k * (Fin 1 / ((C k * predCov * C k) + Q_ k)))%D in
    let x' := (predX + K * (measurement - (C k * predX)))%D in
    let cov' := (predCov - (K * C k * predCov))%D in
    ({| R_ := R_ k; Q_ := Q_ k; A := A k; B := B k; C := C k;
        cov := cov'; x := x' |}, x').

(** The filter after a sequence of calls, outputs dropped. *)
Definition feed (k : t) (ms : list Double.t) : t :=
  fold_left (fun k m => fst (filter k m)) ms k.

(** The values successive [filter] calls return. *)
Fixpoint outputs (k : t) (ms : list Double.t) : list Double.t :=
  match ms with
  | [] => []
  | m :: rest => snd (filter k m) :: outputs (fst (filter k m)) rest
  end.

End KalmanFilter64.

(** ** cognitiveModel.ts: class CognitiveModel *)

Module ExpressionConfidence.
Record t := mk {
  neutral : R; happy : R; angry : R; fearful : R; surprised : R
}.
End ExpressionConfidence.

Module BiometricInput.
Record t := mk {
  yaw : R;          (* head rotation left/right, degrees *)
  pitch : R;        (* head tilt up/down, degrees *)
  roll : R;         (* head tilt side-to-side, degrees *)
  ear : R;          (* eye aspect ratio *)
  blinkRate : R;    (* blinks per minute *)
  expressionConfidence : ExpressionConfidence.t;
  interactionLevel : R
}.
End BiometricInput.

Module CognitiveModelState.
Record t := mk {
  attention : Js.number;
  stress : Js.number;
  curiosity : R;
  flowState : R;
  lastUpdate : Z
}.
End CognitiveModelState.

Module CognitiveDataPoint.
Record t := mk {
  time : Z;
  attention : Js.number;
  stress : Js.number;
  curiosity : R
}.
End CognitiveDataPoint.

Module CognitiveModel.
Import BiometricInput ExpressionConfidence.

Record t := mk {
  state : CognitiveModelState.t;
  attentionFilter : KalmanFilter.t;
  stressFilter : KalmanFilter.t;
  flowFilter : KalmanFilter.t
}.

(** Field initialisers and [constructor()]; [now] is the [Date.now()]
    read there. *)
Definition new (now : Z) : t :=
  {| state := {| CognitiveModelState.attention := Some 50;
                 CognitiveModelState.stress := Some 30;
                 CognitiveModelState.curiosity := 60;
                 CognitiveModelState.flowState := 0;
                 CognitiveModelState.lastUpdate := now |};
     attentionFilter := KalmanFilter.new 0.1 10;
     stressFilter := KalmanFilter.new 0.1 5;
     flowFilter := KalmanFilter.new 0.01 1 |}.

(** Lines 86-97 of [update]: [rawAttention] after the clamp. *)
Definition rawAttention (input : BiometricInput.t) : R :=
  let yawPenalty := Js.Math_pow (Js.Math_abs (yaw input)) 1.5 in
  let pitchPenalty := Js.Math_pow (Js.Math_abs (pitch input - 5)) 1.5 in
  let rawAttention := 100 - (yawPenalty + pitchPenalty) in
  let rawAttention :=
    if Js.ltb (ear input) 0.15 then rawAttention - 40 else rawAttention in
  Js.Math_max 0 (Js.Math_min 100 rawAttention).

(** Lines 106-119 of [update]: the clamped [stressBase] handed to
    [stressFilter]. *)
Definition rawStress (input : BiometricInput.t) : R :=
  let stressBase := 30 in
  let stressBase :=
    if Js.gtb (blinkRate input) 25 then stressBase + 20
    else if Js.ltb (blinkRate input) 5 then stressBase + 10
    else stressBase in
  let stressBase := stressBase + (angry (expressionConfidence input) * 40) in
  let stressBase := stressBase + (fearful (expressionConfidence input) * 50) in
  let stressBase := stressBase - (happy (expressionConfidence input) * 20) in
  Js.Math_max 0 (Js.Math_min 100 stressBase).

(** Lines 123-134 of [update]: [smoothedCuriosity], computed from the
    filtered attention and the input; no filter is applied to it. *)
Definition smoothedCuriosity (smoothedAttention : Js.number)
    (input : BiometricInput.t) : R :=
  let curiosityBase := 50 in
  let curiosityBase :=
    if Js.gtb_nan smoothedAttention 70 then curiosityBase + 10
    else curiosityBase in
  let curiosityBase :=
    if Js.ltb (pitch input) (-5) && Js.gtb (pitch input) (-20)
    then curiosityBase + 15 else curiosityBase in
  let curiosityBase :=
    curiosityBase + (surprised (expressionConfidence input) * 40) in
  let curiosityBase :=
    curiosityBase + (happy (expressionConfidence input) * 10) in
  Js.Math_max 0 (Js.Math_min 100 curiosityBase).

(** [update(input)]; [now] stands for the [Date.now()] reads of the call. *)
Definition update (cm : t) (now : Z) (input : BiometricInput.t)
  : t * CognitiveDataPoint.t :=
  let (attentionFilter', smoothedAttention) :=
    KalmanFilter.filter (attentionFilter cm) (rawAttention input) in
  let (stressFilter', smoothedStress) :=
    KalmanFilter.filter (stressFilter cm) (rawStress input) in
  let smoothedCuriosity := smoothedCuriosity smoothedAttention input in
  let state' :=
    {| CognitiveModelState.attention := smoothedAttention;
       CognitiveModelState.stress := smoothedStress;
       CognitiveModelState.curiosity := smoothedCuriosity;
       CognitiveModelState.flowState :=
         CognitiveModelState.flowState (state cm);
       CognitiveModelState.lastUpdate := now |} in
  ({| state := state';
      attentionFilter := attentionFilter';
      stressFilter := stressFilter';
      flowFilter := flowFilter cm |},
   {| CognitiveDataPoint.time := now;
      CognitiveDataPoint.attention :=
        Js.toFixed2_nan (CognitiveModelState.attention state');
      CognitiveDataPoint.stress :=
        Js.toFixed2_nan (CognitiveModelState.stress state');
      CognitiveDataPoint.curiosity :=
        Js.toFixed2 (CognitiveModelState.curiosity state') |}).

(** The model after a sequence of [update] calls and the data points
    they returned, oldest first. *)
Fixpoint run (cm : t) (inputs : list (Z * BiometricInput.t))
  : t * list CognitiveDataPoint.t :=
  match inputs with
  | [] => (cm, [])
  | (now, input) :: rest =>
      let (cm', dp) := update cm now input in
      let (cm'', dps) := run cm' rest in
      (cm'', dp :: dps)
  end.

End CognitiveModel.

(** ** MeetingGuardian.tsx: data *)

Module Box.
Record t := mk { x : R; y : R; w : R; h : R }.
End Box.

Module Point.
Record t := mk { x : R; y : R }.
End Point.

Module Metrics.
Record t := mk { attention : R; stress : R; curiosity : R }.
End Metrics.

Module FaceState.
Record t := mk { x : R; y : R; w : R; h : R; time : Z }.
End FaceState.

Module Baseline.
Record t := mk { w : R; y : R }.
End Baseline.

Module TrackedFace.
Record t := mk {
  id : Z;
  lastSeen : Z;
  box : Box.t;
  metrics : Metrics.t;
  history : list FaceState.t;
  baseline : Baseline.t;
  missingFrames : nat
}.
End TrackedFace.

(** What face-api hands over for one face: [d.detection.box] and
    [d.expressions]. *)
Module FaceExpressions.
Record t := mk {
  neutral : R; happy : R; sad : R; angry : R;
  fearful : R; disgusted : R; surprised : R
}.
End FaceExpressions.

Module DetectionBox.
Record t := mk { x : R; y : R; width : R; height : R }.
End DetectionBox.

Module FaceDetection.
Record t := mk { box : DetectionBox.t; expressions : FaceExpressions.t }.
End FaceDetection.

(** An element of the local array [detectedObjects]; [trackId] is absent
    until one of the two loops sets it. *)
Module DetectedObject.
Record t := mk {
  box : Box.t;
  center : Point.t;
  metrics : Metrics.t;
  expressions : FaceExpressions.t;
  matched : bool;
  trackId : option Z
}.
End DetectedObject.

(** The [expressions] field, always the empty object, is left out. *)
Module ParticipantAnalysis.
Record t := mk {
  id : string;
  attention : R;
  stress : R;
  curiosity : R;
  badSign : bool;
  bodyLanguage : string;
  box : Box.t
}.
End ParticipantAnalysis.

(** ** MeetingGuardian.tsx: tracking core *)

Module MeetingGuardian.

Definition MAX_MISSING_FRAMES : nat := 5.
Definition MATCH_DISTANCE_THRESHOLD : R := 150.

(** The two tracking refs of the component. *)
Record Refs := mkRefs {
  trackedFacesRef : list TrackedFace.t;
  nextPersonIdRef : Z
}.

(** [useRef<TrackedFace[]>([])] and [useRef<number>(1)]. *)
Definition initialRefs : Refs :=
  {| trackedFacesRef := []; nextPersonIdRef := 1 |}.

(** The part of [stopScreenShare] that touches the tracking refs: the
    tracks are dropped, the identity counter is left alone. *)
Definition stopScreenShare (r : Refs) : Refs :=
  {| trackedFacesRef := []; nextPersonIdRef := nextPersonIdRef r |}.

Definition getDistance (x1 y1 x2 y2 : R) : R :=
  Js.Math_sqrt (Js.Math_pow2 (x2 - x1) + Js.Math_pow2 (y2 - y1)).

(** *** determineBodyLanguage *)

(** [history.slice(-n)]. *)
Definition slice_last {T} (n : nat) (l : list T) : list T :=
  skipn (length l - n) l.

Definition noFace : FaceState.t := FaceState.mk 0 0 0 0 0.

(** [recent[i]]; every index the loops use is within bounds. *)
Definition at_ (recent : list FaceState.t) (i : nat) : FaceState.t :=
  nth i recent noFace.

(** The first loop: [(moveX, moveY)] after [i = 1 .. recent.length - 1]. *)
Definition moves (recent : list FaceState.t) : R * R :=
  fold_left
    (fun (acc : R * R) (i : nat) =>
       let (moveX, moveY) := acc in
       (moveX + Js.Math_abs (FaceState.x (at_ recent i)
                             - FaceState.x (at_ recent (i - 1))),
        moveY + Js.Math_abs (FaceState.y (at_ recent i)
                             - FaceState.y (at_ recent (i - 1)))))
    (seq 1 (length recent - 1)) (0, 0).

Definition avgMove (recent : list FaceState.t) : R :=
  let (moveX, moveY) := moves recent in
  (moveX + moveY) / INR (length recent).

(** [(d1 > 0 && d2 < 0) || (d1 < 0 && d2 > 0)]. *)
Definition reverses (d1 d2 : R) : bool :=
  (Js.gtb d1 0 && Js.ltb d2 0) || (Js.ltb d1 0 && Js.gtb d2 0).

(** The second loop with its guard:
    [(verticalReversals, horizontalReversals)]. *)
Definition reversals (recent : list FaceState.t) : nat * nat :=
  if (4 <=? length recent)%nat then
    fold_left
      (fun (acc : nat * nat) (i : nat) =>
         let (verticalReversals, horizontalReversals) := acc in
         let dy1 := FaceState.y (at_ recent i)
                    - FaceState.y (at_ recent (i - 1)) in
         let dy2 := FaceState.y (at_ recent (i + 1))
                    - FaceState.y (at_ recent i) in
         let verticalReversals :=
           if reverses dy1 dy2 then S verticalReversals
           else verticalReversals in
         let dx1 := FaceState.x (at_ recent i)
                    - FaceState.x (at_ recent (i - 1)) in
         let dx2 := FaceState.x (at_ recent (i + 1))
                    - FaceState.x (at_ recent i) in
         let horizontalReversals :=
           if reverses dx1 dx2 then S horizontalReversals
           else horizontalReversals in
         (verticalReversals, horizontalReversals))
      (seq 1 (length recent - 2)) (0%nat, 0%nat)
  else (0%nat, 0%nat).

Definition verticalReversals (recent : list FaceState.t) : nat :=
  fst (reversals recent).
Definition horizontalReversals (recent : list FaceState.t) : nat :=
  snd (reversals recent).

Definition determineBodyLanguage (metrics : Metrics.t) (currentBox : Box.t)
    (history : list FaceState.t) (baseline : Baseline.t) : string :=
  if (length history <? 3)%nat then "Listening"%string else
  let recent := slice_last 5 history in
  let avgMove := avgMove recent in
  if Js.gtb avgMove 15 && Js.gtb (Metrics.stress metrics) 60
  then "Fidgeting"%string else
  if Js.gtb (Box.w currentBox) (Baseline.w baseline * 1.2)
     && Js.gtb (Metrics.attention metrics) 50
  then "Leaning Forward"%string else
  if Js.gtb (Box.y currentBox)
            (Baseline.y baseline + (Baseline.w baseline * 0.3))
     && Js.ltb (Metrics.attention metrics) 40
  then "Slouching"%string else
  let verticalReversals := verticalReversals recent in
  let horizontalReversals := horizontalReversals recent in
  if (2 <=? verticalReversals)%nat && Js.gtb (Metrics.attention metrics) 60
  then "Nodding"%string else
  if (2 <=? horizontalReversals)%nat && Js.gtb (Metrics.stress metrics) 50
  then "Head Shaking"%string else
  if Js.gtb (Metrics.stress metrics) 75 && Js.ltb avgMove 2
  then "Arms Crossed"%string else
  if Js.gtb (Metrics.attention metrics) 80 then "Engaged"%string
  else "Listening"%string.

(** *** analyzeFrame *)

(** The callback of [detections.map]: box, centre and the raw
    expression-based metrics of one detection. *)
Definition toDetectedObject (d : FaceDetection.t) : DetectedObject.t :=
  let x := DetectionBox.x (FaceDetection.box d) in
  let y := DetectionBox.y (FaceDetection.box d) in
  let width := DetectionBox.width (FaceDetection.box d) in
  let height := DetectionBox.height (FaceDetection.box d) in
  let centerX := x + width / 2 in
  let centerY := y + height / 2 in
  let expr := FaceDetection.expressions d in
  let attention :=
    (FaceExpressions.neutral expr * 0.8 + FaceExpressions.surprised expr * 0.5
     + FaceExpressions.happy expr * 0.2) * 100 in
  let attention :=
    attention - (FaceExpressions.sad expr * 30
                 + FaceExpressions.fearful expr * 30
                 + FaceExpressions.disgusted expr * 20) in
  let attention := Js.Math_max 0 (Js.Math_min 100 attention) in
  let stress :=
    (FaceExpressions.angry expr + FaceExpressions.fearful expr
     + FaceExpressions.disgusted expr + FaceExpressions.sad expr * 0.5)
    * 100 in
  let stress := Js.Math_max 0 (Js.Math_min 100 stress) in
  let curiosity :=
    (FaceExpressions.surprised expr + FaceExpressions.happy expr) * 100 in
  let curiosity := Js.Math_max 0 (Js.Math_min 100 curiosity) in
  {| DetectedObject.box := Box.mk x y width height;
     DetectedObject.center := Point.mk centerX centerY;
     DetectedObject.metrics := Metrics.mk attention stress curiosity;
     DetectedObject.expressions := expr;
     DetectedObject.matched := false;
     DetectedObject.trackId := None |}.

(** [track.missingFrames++]. *)
Definition age (track : TrackedFace.t) : TrackedFace.t :=
  {| TrackedFace.id := TrackedFace.id track;
     TrackedFace.lastSeen := TrackedFace.lastSeen track;
     TrackedFace.box := TrackedFace.box track;
     TrackedFace.metrics := TrackedFace.metrics track;
     TrackedFace.history := TrackedFace.history track;
     TrackedFace.baseline := TrackedFace.baseline track;
     TrackedFace.missingFrames := S (TrackedFace.missingFrames track) |}.

(** One turn of the inner [forEach((track, tIdx) => ...)]:
    [(bestMatch, minDist)] before and after; [bestMatch = -1] is [None]. *)
Definition considerTrack (detection : DetectedObject.t)
    (acc : option nat * R) (entry : nat * TrackedFace.t) : option nat * R :=
  let (bestMatch, minDist) := acc in
  let (tIdx, track) := entry in
  let trackCenter :=
    Point.mk (Box.x (TrackedFace.box track) + Box.w (TrackedFace.box track) / 2)
             (Box.y (TrackedFace.box track) + Box.h (TrackedFace.box track) / 2)
  in
  let dist :=
    getDistance (Point.x (DetectedObject.center detection))
                (Point.y (DetectedObject.center detection))
                (Point.x trackCenter) (Point.y trackCenter) in
  if Js.ltb dist minDist then (Some tIdx, dist) else (bestMatch, minDist).

(** The inner loop over all tracks, claimed or not. *)
Definition findBestMatch (tracks : list TrackedFace.t)
    (detection : DetectedObject.t) : option nat :=
  fst (fold_left (considerTrack detection)
         (combine (seq 0 (length tracks)) tracks)
         (None, MATCH_DISTANCE_THRESHOLD)).

(** [history.push(e); if (history.length > 30) history.shift()]. *)
Definition pushHistory (history : list FaceState.t) (e : FaceState.t)
  : list FaceState.t :=
  let history := history ++ [e] in
  if (30 <? length history)%nat then tl history else history.

(** The body of [if (bestMatch !== -1)] applied to the matched track. *)
Definition updateTrack (now : Z) (track : TrackedFace.t)
    (detection : DetectedObject.t) : TrackedFace.t :=
  let dbox := DetectedObject.box detection in
  let dm := DetectedObject.metrics detection in
  let tbox := TrackedFace.box track in
  let tm := TrackedFace.metrics track in
  {| TrackedFace.id := TrackedFace.id track;
     TrackedFace.lastSeen := now;
     TrackedFace.box :=
       Box.mk (Box.x tbox * 0.6 + Box.x dbox * 0.4)
              (Box.y tbox * 0.6 + Box.y dbox * 0.4)
              (Box.w tbox * 0.6 + Box.w dbox * 0.4)
              (Box.h tbox * 0.6 + Box.h dbox * 0.4);
     TrackedFace.metrics :=
       Metrics.mk
         ((Metrics.attention tm * 0.6) + (Metrics.attention dm * 0.4))
         ((Metrics.stress tm * 0.6) + (Metrics.stress dm * 0.4))
         ((Metrics.curiosity tm * 0.6) + (Metrics.curiosity dm * 0.4));
     TrackedFace.history :=
       pushHistory (TrackedFace.history track)
         (FaceState.mk (Point.x (DetectedObject.center detection))
                       (Point.y (DetectedObject.center detection))
                       (Box.w dbox) (Box.h dbox) now);
     TrackedFace.baseline :=
       Baseline.mk
         ((Baseline.w (TrackedFace.baseline track) * 0.99) + (Box.w dbox * 0.01))
         ((Baseline.y (TrackedFace.baseline track) * 0.99) + (Box.y dbox * 0.01));
     TrackedFace.missingFrames := 0 |}.

(** [detection.matched = true; detection.trackId = track.id]. *)
Definition linkTo (detection : DetectedObject.t) (trackId : Z)
  : DetectedObject.t :=
  {| DetectedObject.box := DetectedObject.box detection;
     DetectedObject.center := DetectedObject.center detection;
     DetectedObject.metrics := DetectedObject.metrics detection;
     DetectedObject.expressions := DetectedObject.expressions detection;
     DetectedObject.matched := true;
     DetectedObject.trackId := Some trackId |}.

(** In-place write [tracks[i] = track]. *)
Fixpoint setAt (tracks : list TrackedFace.t) (i : nat) (track : TrackedFace.t)
  : list TrackedFace.t :=
  match tracks, i with
  | [], _ => []
  | _ :: rest, O => track :: rest
  | t0 :: rest, S j => t0 :: setAt rest j track
  end.

(** One turn of the greedy matching loop: the track array and the
    detections already visited, before and after.  [bestMatch] is always
    an index of [tracks], so the last branch is never taken. *)
Definition matchOne (now : Z)
    (acc : list TrackedFace.t * list DetectedObject.t)
    (detection : DetectedObject.t)
  : list TrackedFace.t * list DetectedObject.t :=
  let (tracks, visited) := acc in
  match findBestMatch tracks detection with
  | None => (tracks, visited ++ [detection])
  | Some bestMatch =>
      match nth_error tracks bestMatch with
      | Some track =>
          (setAt tracks bestMatch (updateTrack now track detection),
           visited ++ [linkTo detection (TrackedFace.id track)])
      | None => (tracks, visited ++ [detection])
      end
  end.

(** The greedy matching loop over [detectedObjects]. *)
Definition matchAll (now : Z) (tracks : list TrackedFace.t)
    (detectedObjects : list DetectedObject.t)
  : list TrackedFace.t * list DetectedObject.t :=
  fold_left (matchOne now) detectedObjects (tracks, []).

(** The track pushed for an unmatched detection. *)
Definition newTrack (now : Z) (newId : Z) (detection : DetectedObject.t)
  : TrackedFace.t :=
  {| TrackedFace.id := newId;
     TrackedFace.lastSeen := now;
     TrackedFace.box := DetectedObject.box detection;
     TrackedFace.metrics := DetectedObject.metrics detection;
     TrackedFace.missingFrames := 0;
     TrackedFace.history :=
       [FaceState.mk (Point.x (DetectedObject.center detection))
                     (Point.y (DetectedObject.center detection))
                     (Box.w (DetectedObject.box detection))
                     (Box.h (DetectedObject.box detection)) now];
     TrackedFace.baseline :=
       Baseline.mk (Box.w (DetectedObject.box detection))
                   (Box.y (DetectedObject.box detection)) |}.

(** [detection.trackId = newId] on an unmatched detection. *)
Definition tagWith (detection : DetectedObject.t) (newId : Z)
  : DetectedObject.t :=
  {| DetectedObject.box := DetectedObject.box detection;
     DetectedObject.center := DetectedObject.center detection;
     DetectedObject.metrics := DetectedObject.metrics detection;
     DetectedObject.expressions := DetectedObject.expressions detection;
     DetectedObject.matched := DetectedObject.matched detection;
     DetectedObject.trackId := Some newId |}.

(** One turn of the creation loop: refs and visited detections. *)
Definition createOne (now : Z) (acc : Refs * list DetectedObject.t)
    (detection : DetectedObject.t) : Refs * list DetectedObject.t :=
  let (refs, visited) := acc in
  if negb (DetectedObject.matched detection) then
    let newId := nextPersonIdRef refs in
    ({| trackedFacesRef :=
          trackedFacesRef refs ++ [newTrack now newId detection];
        nextPersonIdRef := (nextPersonIdRef refs + 1)%Z |},
     visited ++ [tagWith detection newId])
  else (refs, visited ++ [detection]).

Definition createAll (now : Z) (refs : Refs)
    (detectedObjects : list DetectedObject.t)
  : Refs * list DetectedObject.t :=
  fold_left (createOne now) detectedObjects (refs, []).

(** [filter(t => t.missingFrames <= MAX_MISSING_FRAMES)]. *)
Definition prune (tracks : list TrackedFace.t) : list TrackedFace.t :=
  filter (fun t => (TrackedFace.missingFrames t <=? MAX_MISSING_FRAMES)%nat)
         tracks.

(** The template literal [`Person ${t.id}`]. *)
Definition personId (id : Z) : string :=
  ("Person " ++ NilZero.string_of_int (Z.to_int id))%string.

(** The callback of the final [map], without the log and suggestion
    side effects. *)
Definition toParticipant (t : TrackedFace.t) : ParticipantAnalysis.t :=
  let badSign :=
    Js.gtb (Metrics.stress (TrackedFace.metrics t)) 75
    && Js.ltb (Metrics.attention (TrackedFace.metrics t)) 35 in
  let pId := personId (TrackedFace.id t) in
  let bodyLang :=
    determineBodyLanguage (TrackedFace.metrics t) (TrackedFace.box t)
      (TrackedFace.history t) (TrackedFace.baseline t) in
  {| ParticipantAnalysis.id := pId;
     ParticipantAnalysis.attention := Metrics.attention (TrackedFace.metrics t);
     ParticipantAnalysis.stress := Metrics.stress (TrackedFace.metrics t);
     ParticipantAnalysis.curiosity := Metrics.curiosity (TrackedFace.metrics t);
     ParticipantAnalysis.badSign := badSign;
     ParticipantAnalysis.bodyLanguage := bodyLang;
     ParticipantAnalysis.box := TrackedFace.box t |}.

(** The stages of one frame, from the detector's result on. *)
Definition detectedObjectsOf (detections : list FaceDetection.t)
  : list DetectedObject.t := map toDetectedObject detections.

Definition afterMatching (refs : Refs) (now : Z)
    (detections : list FaceDetection.t)
  : list TrackedFace.t * list DetectedObject.t :=
  matchAll now (map age (trackedFacesRef refs)) (detectedObjectsOf detections).

Definition afterCreation (refs : Refs) (now : Z)
    (detections : list FaceDetection.t) : Refs * list DetectedObject.t :=
  let (tracks, detectedObjects) := afterMatching refs now detections in
  createAll now
    {| trackedFacesRef := tracks; nextPersonIdRef := nextPersonIdRef refs |}
    detectedObjects.

(** [analyzeFrame] once the detector has answered: the refs after the
    frame and the list given to [setParticipants]. *)
Definition analyzeFrame (refs : Refs) (now : Z)
    (detections : list FaceDetection.t)
  : Refs * list ParticipantAnalysis.t :=
  let (created, _) := afterCreation refs now detections in
  let refs' :=
    {| trackedFacesRef := prune (trackedFacesRef created);
       nextPersonIdRef := nextPersonIdRef created |} in
  (refs', map toParticipant (trackedFacesRef refs')).

(** A session: frames and stops in arrival order. *)
Inductive event :=
| Frame (now : Z) (detections : list FaceDetection.t)
| Stop.

Definition step (refs : Refs) (e : event) : Refs :=
  match e with
  | Frame now detections => fst (analyzeFrame refs now detections)
  | Stop => stopScreenShare refs
  end.

Definition session (events : list event) : Refs :=
  fold_left step events initialRefs.

(** The snapshot list a frame emits. *)
Definition emitted (refs : Refs) (now : Z) (detections : list FaceDetection.t)
  : list ParticipantAnalysis.t := snd (analyzeFrame refs now detections).

End MeetingGuardian.

(** ** Specification-side definitions *)

Module CognitiveSpec.
Import CognitiveModel BiometricInput ExpressionConfidence.

(** The three formulas of the geometric mode as the specification writes
    them, the curiosity one with the attention it reads left open. *)
Definition spec_attention (input : BiometricInput.t) : R :=
  clamp100 (100 - Js.Math_pow (Rabs (yaw input)) 1.5
                - Js.Math_pow (Rabs (pitch input - 5)) 1.5
                - (if Js.ltb (ear input) 0.15 then 40 else 0)).

Definition spec_stress (input : BiometricInput.t) : R :=
  clamp100 (30 + (if Js.gtb (blinkRate input) 25 then 20
                  else if Js.ltb (blinkRate input) 5 then 10 else 0)
               + 40 * angry (expressionConfidence input)
               + 50 * fearful (expressionConfidence input)
               - 20 * happy (expressionConfidence input)).

Definition spec_curiosity_from (attention : Js.number)
    (input : BiometricInput.t) : R :=
  clamp100 (50 + (if Js.gtb_nan attention 70 then 10 else 0)
               + (if Js.ltb (-20) (pitch input) && Js.ltb (pitch input) (-5)
                  then 15 else 0)
               + 40 * surprised (expressionConfidence input)
               + 10 * happy (expressionConfidence input)).

(** Curiosity as the claim reads: from the raw attention of the same
    formula list. *)
Definition spec_curiosity (input : BiometricInput.t) : R :=
  spec_curiosity_from (Some (spec_attention input)) input.

(** A head at rest: no yaw, pitch on the 5 degree offset. *)
Definition atRest (ear0 surprised0 : R) : BiometricInput.t :=
  {| yaw := 0; pitch := 5; roll := 0; ear := ear0; blinkRate := 15;
     expressionConfidence :=
       {| neutral := 0; happy := 0; angry := 0; fearful := 0;
          surprised := surprised0 |};
     interactionLevel := 0 |}.

End CognitiveSpec.

(** Invariants of the filter and of the cognitive model, and the outputs
    of a run of filter calls. *)
Module CognitiveInv.

Definition number_in_range (v : Js.number) : Prop :=
  exists r, v = Some r /\ in_range r.

(** What holds of a filter built by [KalmanFilter.new] with positive
    noise constants once it has seen a measurement. *)
Definition warm (k : KalmanFilter.t) : Prop :=
  KalmanFilter.A k = 1 /\ KalmanFilter.B k = 0 /\ KalmanFilter.C k = 1 /\
  0 < KalmanFilter.R_ k /\ 0 < KalmanFilter.Q_ k /\
  (exists c, KalmanFilter.cov k = Some c /\ 0 < c) /\
  (exists v, KalmanFilter.x k = Some v).

(** A filter built by [KalmanFilter.new] with positive constants that
    has only seen in-range measurements. *)
Definition filter_ok (k : KalmanFilter.t) : Prop :=
  KalmanFilter.A k = 1 /\ KalmanFilter.B k = 0 /\ KalmanFilter.C k = 1 /\
  0 < KalmanFilter.R_ k /\ 0 < KalmanFilter.Q_ k /\
  match KalmanFilter.x k with
  | None => True
  | Some v =>
      in_range v /\ exists c, KalmanFilter.cov k = Some c /\ 0 < c
  end.

Definition model_ok (cm : CognitiveModel.t) : Prop :=
  filter_ok (CognitiveModel.attentionFilter cm) /\
  filter_ok (CognitiveModel.stressFilter cm) /\
  number_in_range (CognitiveModelState.attention (CognitiveModel.state cm)) /\
  number_in_range (CognitiveModelState.stress (CognitiveModel.state cm)) /\
  in_range (CognitiveModelState.curiosity (CognitiveModel.state cm)).

Definition point_ok (dp : CognitiveDataPoint.t) : Prop :=
  number_in_range (CognitiveDataPoint.attention dp) /\
  number_in_range (CognitiveDataPoint.stress dp) /\
  in_range (CognitiveDataPoint.curiosity dp).

(** The values successive [filter] calls return. *)
Fixpoint outputs (k : KalmanFilter.t) (ms : list R) : list Js.number :=
  match ms with
  | [] => []
  | m :: rest =>
      snd (KalmanFilter.filter k m) :: outputs (fst (KalmanFilter.filter k m)) rest
  end.

End CognitiveInv.

(** ** Further vocabulary: the two embeddings of the signal filter *)

Module Filter64Spec.
Import Double.

(** A possibly-NaN real as a double. *)
Definition inj (v : Js.number) : Double.t :=
  match v with Some r => Fin r | None => NaN end.

(** A filter of the exact-real embedding as a filter over doubles. *)
Definition lift (k : KalmanFilter.t) : KalmanFilter64.t :=
  {| KalmanFilter64.R_ := Fin (KalmanFilter.R_ k);
     KalmanFilter64.Q_ := Fin (KalmanFilter.Q_ k);
     KalmanFilter64.A := Fin (KalmanFilter.A k);
     KalmanFilter64.B := Fin (KalmanFilter.B k);
     KalmanFilter64.C := Fin (KalmanFilter.C k);
     KalmanFilter64.cov := inj (KalmanFilter.cov k);
     KalmanFilter64.x := inj (KalmanFilter.x k) |}.

(** Noise constants with which no sum and no reciprocal of the filter
    overflows: a positive process noise of at most a quarter of
    [MAX_VALUE], a measurement noise between [4 / MAX_VALUE] and a quarter
    of [MAX_VALUE]. *)
Definition constants_ok (pn mn : R) : Prop :=
  0 < pn /\ 4 * pn <= MAX_VALUE /\
  4 <= mn * MAX_VALUE /\ 4 * mn <= MAX_VALUE.

(** An interval of doubles whose width is a double as well. *)
Definition span_ok (lo hi : R) : Prop :=
  - MAX_VALUE <= lo /\ hi <= MAX_VALUE /\ hi - lo <= MAX_VALUE.

(** A noise constant between a thousandth and a thousand. *)
Definition moderate (c : R) : Prop := 1 / 1000 <= c <= 1000.

(** What the exact-real filter keeps while it is fed measurements of
    [[lo, hi]]: the constants of [new], and either no estimate yet or an
    estimate of [[lo, hi]] with a covariance that is positive and at most
    the measurement noise. *)
Definition steady (lo hi : R) (k : KalmanFilter.t) : Prop :=
  KalmanFilter.A k = 1 /\ KalmanFilter.B k = 0 /\ KalmanFilter.C k = 1 /\
  match KalmanFilter.x k with
  | None => KalmanFilter.cov k = None
  | Some v =>
      lo <= v <= hi /\
      exists c, KalmanFilter.cov k = Some c /\ 0 < c <= KalmanFilter.Q_ k
  end.

(** A finite double within [[lo, hi]]. *)
Definition within (lo hi : R) (d : Double.t) : Prop :=
  exists r, d = Fin r /\ lo <= r <= hi.

(** The value [10^308]: a finite double, and twice it is beyond
    [MAX_VALUE]. *)
Definition huge : R := IZR (10 ^ 308).

End Filter64Spec.

(** The body-language classifier as the specification words it: the
    window, the per-step average of the displacement, the reversal counts
    over consecutive triples, and the eight rules in their order, the
    first satisfied one winning.  Nothing here is taken from the code. *)
Module ClassifierSpec.

(** "The most recent [n] history entries". *)
Definition mostRecent {T} (n : nat) (history : list T) : list T :=
  rev (firstn n (rev history)).

(** The steps of a window: the displacement in x and in y from each
    entry to the next. *)
Fixpoint steps (entries : list FaceState.t) : list (R * R) :=
  match entries with
  | [] => []
  | a :: rest =>
      match rest with
      | [] => []
      | b :: _ =>
          (FaceState.x b - FaceState.x a, FaceState.y b - FaceState.y a)
          :: steps rest
      end
  end.

(** The absolute displacement in x and y, summed over the steps. *)
Fixpoint displacement (ds : list (R * R)) : R :=
  match ds with
  | [] => 0
  | d :: rest => Rabs (fst d) + Rabs (snd d) + displacement rest
  end.

(** "Average per-step absolute displacement in x and y": the sum divided
    by the number of steps. *)
Definition perStep (entries : list FaceState.t) : R :=
  displacement (steps entries) / INR (length (steps entries)).

(** The same sum divided by the number of entries of the window. *)
Definition perEntry (entries : list FaceState.t) : R :=
  displacement (steps entries) / INR (length entries).

(** Two consecutive displacements in opposite directions. *)
Definition opposite (d1 d2 : R) : bool :=
  (Js.gtb d1 0 && Js.ltb d2 0) || (Js.ltb d1 0 && Js.gtb d2 0).

(** "Counts of local direction reversals across consecutive triples": a
    triple of entries is a pair of consecutive steps. *)
Fixpoint reversalCount (ds : list R) : nat :=
  match ds with
  | [] => 0
  | d1 :: rest =>
      match rest with
      | [] => 0
      | d2 :: _ => (if opposite d1 d2 then 1 else 0) + reversalCount rest
      end
  end.

Definition verticalCount (entries : list FaceState.t) : nat :=
  reversalCount (map snd (steps entries)).
Definition horizontalCount (entries : list FaceState.t) : nat :=
  reversalCount (map fst (steps entries)).

(** The eight rules in their order, for a given value of [avgMove]. *)
Definition rules (avgMove : R) (metrics : Metrics.t) (currentBox : Box.t)
    (recent : list FaceState.t) (baseline : Baseline.t)
  : list (bool * string) :=
  [ (Js.gtb avgMove 15 && Js.gtb (Metrics.stress metrics) 60,
     "Fidgeting"%string);
    (Js.gtb (Box.w currentBox) (Baseline.w baseline * 1.2)
     && Js.gtb (Metrics.attention metrics) 50,
     "Leaning Forward"%string);
    (Js.gtb (Box.y currentBox) (Baseline.y baseline + Baseline.w baseline * 0.3)
     && Js.ltb (Metrics.attention metrics) 40,
     "Slouching"%string);
    ((2 <=? verticalCount recent)%nat
     && Js.gtb (Metrics.attention metrics) 60,
     "Nodding"%string);
    ((2 <=? horizontalCount recent)%nat
     && Js.gtb (Metrics.stress metrics) 50,
     "Head Shaking"%string);
    (Js.gtb (Metrics.stress metrics) 75 && Js.ltb avgMove 2,
     "Arms Crossed"%string);
    (Js.gtb (Metrics.attention metrics) 80, "Engaged"%string);
    (true, "Listening"%string) ].

(** The rules as the specification words them, with the per-step
    average, and with the sum divided by the number of entries. *)
Definition rulesAsWritten (metrics : Metrics.t) (currentBox : Box.t)
    (history : list FaceState.t) (baseline : Baseline.t)
  : list (bool * string) :=
  rules (perStep (mostRecent 5 history)) metrics currentBox
        (mostRecent 5 history) baseline.

Definition rulesPerEntry (metrics : Metrics.t) (currentBox : Box.t)
    (history : list FaceState.t) (baseline : Baseline.t)
  : list (bool * string) :=
  rules (perEntry (mostRecent 5 history)) metrics currentBox
        (mostRecent 5 history) baseline.

(** The two averages decide both [avgMove] tests alike. *)
Definition averagesAgree (history : list FaceState.t) : Prop :=
  Js.gtb (perStep (mostRecent 5 history)) 15
  = Js.gtb (perEntry (mostRecent 5 history)) 15 /\
  Js.ltb (perStep (mostRecent 5 history)) 2
  = Js.ltb (perEntry (mostRecent 5 history)) 2.

(** The label of the first rule whose condition holds. *)
Fixpoint first_match (rs : list (bool * string)) : option string :=
  match rs with
  | [] => None
  | (c, label) :: rest => if c then Some label else first_match rest
  end.

(** Rule [i] is the earliest satisfied one of [rs] and carries [label]. *)
Definition earliest (rs : list (bool * string)) (i : nat) (label : string)
  : Prop :=
  nth_error rs i = Some (true, label) /\
  forall j c l, (j < i)%nat -> nth_error rs j = Some (c, l) -> c = false.

(** A reversal of direction in [y] over the one triple of a three-entry
    window. *)
Definition zigzag : list FaceState.t :=
  [FaceState.mk 0 0 50 50 1; FaceState.mk 0 10 50 50 2;
   FaceState.mk 0 0 50 50 3].

End ClassifierSpec.

(** Inputs on which several rules of the classifier hold at once. *)
Module ClassifierExamples.

(** Three entries swinging 100 pixels in [x]. *)
Definition swing : list FaceState.t :=
  [FaceState.mk 0 0 50 50 1; FaceState.mk 100 0 50 50 2;
   FaceState.mk 0 0 50 50 3].

Definition tense : Metrics.t := Metrics.mk 90 80 50.
Definition close : Box.t := Box.mk 0 0 70 70.
Definition resting : Baseline.t := Baseline.mk 50 0.

(** Five entries going up and down by 10 pixels in [y]. *)
Definition nod : list FaceState.t :=
  [FaceState.mk 0 0 50 50 1; FaceState.mk 0 10 50 50 2;
   FaceState.mk 0 0 50 50 3; FaceState.mk 0 10 50 50 4;
   FaceState.mk 0 0 50 50 5].

(** An attentive, calm face at its baseline size. *)
Definition keen : Metrics.t := Metrics.mk 90 20 50.
Definition level : Box.t := Box.mk 0 0 50 50.

(** Three entries drifting 20 pixels a step in [x], and a face that is
    attentive and under some stress. *)
Definition drift : list FaceState.t :=
  [FaceState.mk 0 0 50 50 1; FaceState.mk 20 0 50 50 2;
   FaceState.mk 40 0 50 50 3].
Definition uneasy : Metrics.t := Metrics.mk 90 70 50.

End ClassifierExamples.

(** Vocabulary for the tracker properties. *)
Module TrackerSpec.
Import MeetingGuardian.

Definition ids (tracks : list TrackedFace.t) : list Z :=
  map TrackedFace.id tracks.

Definition trackIds (objects : list DetectedObject.t) : list (option Z) :=
  map DetectedObject.trackId objects.

(** Identities [n, n+1, ..., n+k-1]. *)
Fixpoint zseq (n : Z) (k : nat) : list Z :=
  match k with
  | O => []
  | S k' => n :: zseq (n + 1) k'
  end.

(** The tracks the creation loop pushes, and the detections as it leaves
    them, when the counter stands at [n]. *)
Fixpoint created (now : Z) (n : Z) (objects : list DetectedObject.t)
  : list TrackedFace.t :=
  match objects with
  | [] => []
  | o :: rest =>
      if negb (DetectedObject.matched o)
      then newTrack now n o :: created now (n + 1) rest
      else created now n rest
  end.

Fixpoint tagged (n : Z) (objects : list DetectedObject.t)
  : list DetectedObject.t :=
  match objects with
  | [] => []
  | o :: rest =>
      if negb (DetectedObject.matched o)
      then tagWith o n :: tagged (n + 1) rest
      else o :: tagged n rest
  end.

(** How the matching loop may change one track: not at all, or by an
    update that keeps the identity, clears the missing-counter and links a
    detection to that identity. *)
Definition evolves (linked : list (option Z)) (t t' : TrackedFace.t) : Prop :=
  t' = t \/
  (TrackedFace.id t' = TrackedFace.id t /\
   TrackedFace.missingFrames t' = 0%nat /\
   In (Some (TrackedFace.id t)) linked).

(** How the matching loop leaves one detection: untouched, or linked to
    one of the given identities. *)
Definition visitedFrom (known : list Z) (d o : DetectedObject.t) : Prop :=
  o = d \/ exists i, In i known /\ o = linkTo d i.

(** A detection is fresh before the loops: not matched, no track. *)
Definition fresh (d : DetectedObject.t) : Prop :=
  DetectedObject.matched d = false /\ DetectedObject.trackId d = None.

(** Live identities are distinct, positive and below the counter. *)
Definition wf (refs : Refs) : Prop :=
  (1 <= nextPersonIdRef refs)%Z /\
  NoDup (ids (trackedFacesRef refs)) /\
  forall i, In i (ids (trackedFacesRef refs)) ->
            (1 <= i < nextPersonIdRef refs)%Z.

Definition metrics_ok (m : Metrics.t) : Prop :=
  in_range (Metrics.attention m) /\ in_range (Metrics.stress m) /\
  in_range (Metrics.curiosity m).

Definition track_ok (t : TrackedFace.t) : Prop :=
  metrics_ok (TrackedFace.metrics t).

Definition object_ok (o : DetectedObject.t) : Prop :=
  metrics_ok (DetectedObject.metrics o).

Definition participant_ok (p : ParticipantAnalysis.t) : Prop :=
  in_range (ParticipantAnalysis.attention p) /\
  in_range (ParticipantAnalysis.stress p) /\
  in_range (ParticipantAnalysis.curiosity p).

(** A run of frames, oldest first. *)
Definition frames (refs : Refs) (fs : list (Z * list FaceDetection.t)) : Refs :=
  fold_left (fun r f => fst (analyzeFrame r (fst f) (snd f))) fs refs.

(** No detection is matched to the track of identity [i] in any frame
    of the run: the matching loop links none to it. *)
Fixpoint unmatchedIn (i : Z) (refs : Refs)
    (fs : list (Z * list FaceDetection.t)) : Prop :=
  match fs with
  | [] => True
  | f :: rest =>
      ~ In (Some i) (trackIds (snd (afterMatching refs (fst f) (snd f)))) /\
      unmatchedIn i (fst (analyzeFrame refs (fst f) (snd f))) rest
  end.

End TrackerSpec.

(** Concrete frames used to exercise the tracker. *)
Module TrackerExamples.

Definition calm : FaceExpressions.t := FaceExpressions.mk 1 0 0 0 0 0 0.

(** A face at [{100, 100, 50, 50}] and one 120 pixels to its right. *)
Definition face : FaceDetection.t :=
  FaceDetection.mk (DetectionBox.mk 100 100 50 50) calm.
Definition neighbour : FaceDetection.t :=
  FaceDetection.mk (DetectionBox.mk 220 100 50 50) calm.

(** A detection whose box has a negative width and a zero height. *)
Definition broken : FaceDetection.t :=
  FaceDetection.mk (DetectionBox.mk 100 100 (-10) 0) calm.

(** Five frames without any detection. *)
Definition emptyFrames : list (Z * list FaceDetection.t) :=
  [(1%Z, []); (2%Z, []); (3%Z, []); (4%Z, []); (5%Z, [])].

End TrackerExamples.

(** ** Further vocabulary: the signal filter over a run of calls *)

Module FilterSpec.

(** Two filters that agree on everything but the value of the estimate:
    same constants, same covariance, both initialised or both not. *)
Definition sameShape (k k' : KalmanFilter.t) : Prop :=
  KalmanFilter.R_ k = KalmanFilter.R_ k' /\
  KalmanFilter.Q_ k = KalmanFilter.Q_ k' /\
  KalmanFilter.A k = KalmanFilter.A k' /\
  KalmanFilter.B k = KalmanFilter.B k' /\
  KalmanFilter.C k = KalmanFilter.C k' /\
  KalmanFilter.cov k = KalmanFilter.cov k' /\
  (KalmanFilter.x k = None <-> KalmanFilter.x k' = None).

(** A number (not NaN) within [[lo, hi]]. *)
Definition within (lo hi : R) (v : Js.number) : Prop :=
  exists r, v = Some r /\ lo <= r <= hi.

(** An initialised filter with positive constants whose covariance is
    positive and at most the measurement noise. *)
Definition settledCov (k : KalmanFilter.t) : Prop :=
  CognitiveInv.warm k /\
  exists c, KalmanFilter.cov k = Some c /\ c <= KalmanFilter.Q_ k.

End FilterSpec.

(** ** Further vocabulary: the geometric estimator *)

Module EstimatorSpec.
Import BiometricInput ExpressionConfidence.

Definition unit_interval (v : R) : Prop := 0 <= v <= 1.

(** All five expression confidences of an input lie in [[0, 1]]. *)
Definition confidences_ok (input : BiometricInput.t) : Prop :=
  unit_interval (neutral (expressionConfidence input)) /\
  unit_interval (happy (expressionConfidence input)) /\
  unit_interval (angry (expressionConfidence input)) /\
  unit_interval (fearful (expressionConfidence input)) /\
  unit_interval (surprised (expressionConfidence input)).

(** Two inputs that agree on every signal except [roll],
    [interactionLevel] and the [neutral] confidence. *)
Definition sameSignals (a b : BiometricInput.t) : Prop :=
  yaw a = yaw b /\ pitch a = pitch b /\ ear a = ear b /\
  blinkRate a = blinkRate b /\
  happy (expressionConfidence a) = happy (expressionConfidence b) /\
  angry (expressionConfidence a) = angry (expressionConfidence b) /\
  fearful (expressionConfidence a) = fearful (expressionConfidence b) /\
  surprised (expressionConfidence a) = surprised (expressionConfidence b).

(** Two timed input sequences with the same times and the same signals. *)
Definition sameRuns (xs ys : list (Z * BiometricInput.t)) : Prop :=
  Forall2 (fun p q => fst p = fst q /\ sameSignals (snd p) (snd q)) xs ys.

(** The stress filter of a model that has only seen inputs with
    confidences in range: not yet initialised, or holding an estimate of
    at least 10. *)
Definition stress_ok (cm : CognitiveModel.t) : Prop :=
  let k := CognitiveModel.stressFilter cm in
  KalmanFilter.A k = 1 /\ KalmanFilter.B k = 0 /\ KalmanFilter.C k = 1 /\
  0 < KalmanFilter.R_ k /\ 0 < KalmanFilter.Q_ k /\
  match KalmanFilter.x k with
  | None => True
  | Some v => 10 <= v <= 100 /\ exists c, KalmanFilter.cov k = Some c /\ 0 < c
  end.

(** The time of the last update of a run, [t0] when there is none. *)
Definition lastTime (t0 : Z) (inputs : list (Z * BiometricInput.t)) : Z :=
  fold_left (fun _ p => fst p) inputs t0.

End EstimatorSpec.

(** ** Further vocabulary: the tracker *)

Module TrackSpec.
Import MeetingGuardian.

(** The distance the inner loop computes between a detection's centre
    and the centre of a track's box. *)
Definition distTo (d : DetectedObject.t) (t : TrackedFace.t) : R :=
  getDistance (Point.x (DetectedObject.center d))
              (Point.y (DetectedObject.center d))
              (Box.x (TrackedFace.box t) + Box.w (TrackedFace.box t) / 2)
              (Box.y (TrackedFace.box t) + Box.h (TrackedFace.box t) / 2).

(** What the inner loop holds after the tracks [l]: [minDist] is below
    every distance seen and at most the threshold, and [bestMatch] is the
    first index that attains it, if any distance was under the threshold. *)
Definition bestSoFar (d : DetectedObject.t) (l : list TrackedFace.t)
    (acc : option nat * R) : Prop :=
  let (bestMatch, minDist) := acc in
  (forall j t, nth_error l j = Some t -> minDist <= distTo d t) /\
  match bestMatch with
  | None => minDist = MATCH_DISTANCE_THRESHOLD
  | Some i =>
      exists t, nth_error l i = Some t /\ distTo d t = minDist /\
                minDist < MATCH_DISTANCE_THRESHOLD /\
                forall j t', (j < i)%nat -> nth_error l j = Some t' ->
                             minDist < distTo d t'
  end.

(** The history of a track holds between one entry and thirty. *)
Definition history_ok (t : TrackedFace.t) : Prop :=
  (1 <= length (TrackedFace.history t) <= 30)%nat.

(** Times of the history entries, oldest first. *)
Definition historyTimes (t : TrackedFace.t) : list Z :=
  map FaceState.time (TrackedFace.history t).

(** A list of times that never goes back. *)
Fixpoint nondecreasing (ts : list Z) : Prop :=
  match ts with
  | [] => True
  | a :: rest =>
      match rest with
      | [] => True
      | b :: _ => (a <= b)%Z /\ nondecreasing rest
      end
  end.

(** The frames of a session carry times that never go back, starting
    from [t0]. *)
Fixpoint chronological (t0 : Z) (events : list event) : Prop :=
  match events with
  | [] => True
  | Frame now _ :: rest => (t0 <= now)%Z /\ chronological now rest
  | Stop :: rest => chronological t0 rest
  end.

(** The history of a track is in time order and ends no later than [T]. *)
Definition timed (T : Z) (t : TrackedFace.t) : Prop :=
  nondecreasing (historyTimes t) /\
  Forall (fun u => (u <= T)%Z) (historyTimes t).

(** The time of the last frame of a session, [t0] when there is none. *)
Fixpoint lastFrameTime (t0 : Z) (events : list event) : Z :=
  match events with
  | [] => t0
  | Frame now _ :: rest => lastFrameTime now rest
  | Stop :: rest => lastFrameTime t0 rest
  end.

(** The box and the first history entry a new track takes from its
    detection. *)
Definition bornFrom (now : Z) (d : FaceDetection.t) (t : TrackedFace.t) : Prop :=
  TrackedFace.box t
  = Box.mk (DetectionBox.x (FaceDetection.box d))
           (DetectionBox.y (FaceDetection.box d))
           (DetectionBox.width (FaceDetection.box d))
           (DetectionBox.height (FaceDetection.box d)) /\
  TrackedFace.metrics t = DetectedObject.metrics (toDetectedObject d) /\
  TrackedFace.missingFrames t = 0%nat /\
  TrackedFace.lastSeen t = now /\
  length (TrackedFace.history t) = 1%nat /\
  TrackedFace.baseline t
  = Baseline.mk (DetectionBox.width (FaceDetection.box d))
                (DetectionBox.y (FaceDetection.box d)).

End TrackSpec.

(** ** Further vocabulary: the body-language classifier *)

Module MotionSpec.

(** Every entry of the window sits at the same centre [(x0, y0)]. *)
Definition stationary (x0 y0 : R) (recent : list FaceState.t) : Prop :=
  Forall (fun e => FaceState.x e = x0 /\ FaceState.y e = y0) recent.

(** Five entries resting at [(125, 125)], and older entries that swung. *)
Definition still5 : list FaceState.t :=
  [FaceState.mk 125 125 50 50 6; FaceState.mk 125 125 50 50 7;
   FaceState.mk 125 125 50 50 8; FaceState.mk 125 125 50 50 9;
   FaceState.mk 125 125 50 50 10].

End MotionSpec.

(** ** MeetingGuardian.tsx: suggestions, logs and the audio handler *)

Module LogEntry.
Record t := mk {
  date : string;
  time : string;
  participant : string;
  attention : R;
  stress : R;
  curiosity : R;
  badSign : string;
  bodyLanguage : string;
  toxicLabels : string
}.
End LogEntry.

Module ToxicityEvent.
Record t := mk {
  id : Z;
  time : string;
  transcript : string;
  labels : list string
}.
End ToxicityEvent.

(** One element of what the toxicity classifier returns: the label and
    [results[0].match], which is [true], [false] or [null]. *)
Module Prediction.
Record t := mk { label : string; match_ : option bool }.
End Prediction.

Module Ui.
Import MeetingGuardian.

(** The pieces of component state the frame and audio callbacks write. *)
Record State := mkState {
  participants : list ParticipantAnalysis.t;
  suggestions : list string;
  logs : list LogEntry.t;
  toxicityEvents : list ToxicityEvent.t
}.

(** [useState] initial values. *)
Definition initialState : State :=
  {| participants := []; suggestions := []; logs := []; toxicityEvents := [] |}.

(** [Number(v.toFixed(1))], on the model of [Js.toFixed2]. *)
Definition toFixed1_abs (v : R) : R := IZR (Zfloor (v * 10 + / 2)) / 10.
Definition toFixed1 (v : R) : R :=
  if Rlt_dec v 0 then - toFixed1_abs (- v) else toFixed1_abs v.

(** The leading symbols of the four suggestion texts, as the bytes of the
    source file. *)
Definition iconAttention : string := "‚ö†Ô∏è".
Definition iconStress : string := "üö®".
Definition iconFidgeting : string := "üí°".
Definition iconSlouching : string := "‚ÑπÔ∏è".

(** The suggestions the [map] callback pushes for one track, in push
    order. *)
Definition suggestionsOf (aiSuggestionsEnabled : bool) (t : TrackedFace.t)
  : list string :=
  let pId := personId (TrackedFace.id t) in
  let bodyLang :=
    determineBodyLanguage (TrackedFace.metrics t) (TrackedFace.box t)
      (TrackedFace.history t) (TrackedFace.baseline t) in
  if aiSuggestionsEnabled && (TrackedFace.missingFrames t =? 0)%nat then
    (if Js.ltb (Metrics.attention (TrackedFace.metrics t)) 35
     then [(iconAttention ++ " " ++ pId
            ++ " attention is dropping. Ask a question.")%string]
     else [])
    ++ (if Js.gtb (Metrics.stress (TrackedFace.metrics t)) 75
        then [(iconStress ++ " " ++ pId
               ++ " looks stressed. Suggest a break?")%string]
        else [])
    ++ (if String.eqb bodyLang "Fidgeting"
        then [(iconFidgeting ++ " " ++ pId
               ++ " is fidgeting. They might be anxious.")%string]
        else [])
    ++ (if String.eqb bodyLang "Slouching"
        then [(iconSlouching ++ " " ++ pId
               ++ " is slouching (low engagement).")%string]
        else [])
  else [].

(** The log entry the [map] callback pushes for one track, if any;
    [date] and [time] stand for the two [new Date()] renderings. *)
Definition logOf (date time : string) (t : TrackedFace.t)
  : list LogEntry.t :=
  let badSign :=
    Js.gtb (Metrics.stress (TrackedFace.metrics t)) 75
    && Js.ltb (Metrics.attention (TrackedFace.metrics t)) 35 in
  let pId := personId (TrackedFace.id t) in
  let bodyLang :=
    determineBodyLanguage (TrackedFace.metrics t) (TrackedFace.box t)
      (TrackedFace.history t) (TrackedFace.baseline t) in
  if (TrackedFace.missingFrames t =? 0)%nat then
    [{| LogEntry.date := date;
        LogEntry.time := time;
        LogEntry.participant := pId;
        LogEntry.attention := toFixed1 (Metrics.attention (TrackedFace.metrics t));
        LogEntry.stress := toFixed1 (Metrics.stress (TrackedFace.metrics t));
        LogEntry.curiosity := toFixed1 (Metrics.curiosity (TrackedFace.metrics t));
        LogEntry.badSign := if badSign then "Yes" else "No";
        LogEntry.bodyLanguage := bodyLang;
        LogEntry.toxicLabels := EmptyString |}]
  else [].

(** [newSuggestions] and [currentLogs] once the [map] is over. *)
Definition newSuggestions (aiSuggestionsEnabled : bool)
    (tracks : list TrackedFace.t) : list string :=
  flat_map (suggestionsOf aiSuggestionsEnabled) tracks.

Definition currentLogs (date time : string) (tracks : list TrackedFace.t)
  : list LogEntry.t :=
  flat_map (logOf date time) tracks.

(** [if (newSuggestions.length > 0)
       setSuggestions(prev => [...newSuggestions.slice(-4), ...prev].slice(0, 10))]. *)
Definition setSuggestions (newSuggestions prev : list string) : list string :=
  if (0 <? length newSuggestions)%nat
  then firstn 10 (slice_last 4 newSuggestions ++ prev)
  else prev.

(** [setLogs(prev => [...prev, ...currentLogs].slice(-50))]. *)
Definition setLogs (currentLogs prev : list LogEntry.t) : list LogEntry.t :=
  slice_last 50 (prev ++ currentLogs).

(** [analyzeFrame] with its three state writes; [aiSuggestionsEnabled] is
    the value the callback closed over. *)
Definition analyzeFrame (aiSuggestionsEnabled : bool) (refs : Refs)
    (ui : State) (now : Z) (date time : string)
    (detections : list FaceDetection.t) : Refs * State :=
  let (refs', uiParticipants) :=
    MeetingGuardian.analyzeFrame refs now detections in
  (refs',
   {| participants := uiParticipants;
      suggestions :=
        setSuggestions
          (newSuggestions aiSuggestionsEnabled (trackedFacesRef refs'))
          (suggestions ui);
      logs := setLogs (currentLogs date time (trackedFacesRef refs')) (logs ui);
      toxicityEvents := toxicityEvents ui |}).

(** [stopScreenShare]: tracks and participants are cleared, the rest of
    the state stays. *)
Definition stopScreenShare (refs : Refs) (ui : State) : Refs * State :=
  (MeetingGuardian.stopScreenShare refs,
   {| participants := []; suggestions := suggestions ui; logs := logs ui;
      toxicityEvents := toxicityEvents ui |}).

(** [predictions.filter(p => p.results[0].match === true).map(p => p.label)]. *)
Definition detectedLabels (predictions : list Prediction.t) : list string :=
  map Prediction.label
      (filter (fun p => match Prediction.match_ p with
                        | Some true => true
                        | _ => false
                        end) predictions).

(** The [onresult] handler after the classifier has answered:
    [modelLoaded] is [toxicityModelRef.current] being set, [transcript] the
    transcript of the last result, [now], [date] and [time] the clock
    reads. *)
Definition onresult (modelLoaded : bool) (ui : State) (now : Z)
    (date time : string) (transcript : string)
    (predictions : list Prediction.t) : State :=
  if modelLoaded then
    let detectedLabels := detectedLabels predictions in
    if (0 <? length detectedLabels)%nat then
      let evt :=
        {| ToxicityEvent.id := now; ToxicityEvent.time := time;
           ToxicityEvent.transcript := transcript;
           ToxicityEvent.labels := detectedLabels |} in
      {| participants := participants ui;
         suggestions := suggestions ui;
         logs :=
           logs ui
           ++ [{| LogEntry.date := date; LogEntry.time := time;
                  LogEntry.participant := "Audio";
                  LogEntry.attention := 0; LogEntry.stress := 0;
                  LogEntry.curiosity := 0; LogEntry.badSign := "Yes";
                  LogEntry.bodyLanguage := "N/A";
                  LogEntry.toxicLabels := String.concat "; " detectedLabels |}];
         toxicityEvents := evt :: toxicityEvents ui |}
    else ui
  else ui.

(** What can happen to the component between renders. *)
Inductive action :=
| FrameDone (aiSuggestionsEnabled : bool) (now : Z) (date time : string)
            (detections : list FaceDetection.t)
| Speech (modelLoaded : bool) (now : Z) (date time : string)
         (transcript : string) (predictions : list Prediction.t)
| Stopped.

Definition act (s : Refs * State) (a : action) : Refs * State :=
  match a with
  | FrameDone enabled now date time detections =>
      analyzeFrame enabled (fst s) (snd s) now date time detections
  | Speech modelLoaded now date time transcript predictions =>
      (fst s, onresult modelLoaded (snd s) now date time transcript predictions)
  | Stopped => stopScreenShare (fst s) (snd s)
  end.

Definition play (actions : list action) : Refs * State :=
  fold_left act actions (initialRefs, initialState).

(** What an action is to the tracking refs: a frame, a stop or nothing. *)
Definition eventOf (a : action) : list event :=
  match a with
  | FrameDone _ now _ _ dets => [Frame now dets]
  | Speech _ _ _ _ _ _ => []
  | Stopped => [Stop]
  end.

End Ui.

(** ** Further vocabulary: the participant panel *)

Module PanelSpec.
Import MeetingGuardian TrackerSpec Ui.

(** The refs are well formed and the participant list names the live
    tracks, in order. *)
Definition inSync (s : Refs * State) : Prop :=
  wf (fst s) /\
  map ParticipantAnalysis.id (participants (snd s))
  = map personId (ids (trackedFacesRef (fst s))).

End PanelSpec.

(** ** MeetingGuardian.tsx: handleGenerateMeeting *)

Module Meeting.

(** [selectedPlatform]. *)
Inductive Platform := GoogleMeet | Zoom | MicrosoftTeams.

Record GeneratedMeeting := mk { link : string; id : string; pin : string }.

(** The decimal text of an integer-valued number, as [toString] and a
    template literal give it. *)
Definition showInt (z : Z) : string := NilZero.string_of_int (Z.to_int z).

(** [toUpperCase] on the characters a base-36 numeral is made of. *)
Definition upper (c : Ascii.ascii) : Ascii.ascii :=
  let n := Ascii.nat_of_ascii c in
  if ((97 <=? n) && (n <=? 122))%nat then Ascii.ascii_of_nat (n - 32) else c.

Fixpoint toUpperCase (s : string) : string :=
  match s with
  | EmptyString => EmptyString
  | String c rest => String (upper c) (toUpperCase rest)
  end.

(** [handleGenerateMeeting]: [randId] is the value of
    [Math.random().toString(36).substring(2, 11)], [r2] the value
    [Math.random()] returns for the Zoom number and [r3] the one it returns
    for the pin. *)
Definition handleGenerateMeeting (selectedPlatform : Platform)
    (randId : string) (r2 r3 : R) : GeneratedMeeting :=
  let link :=
    match selectedPlatform with
    | GoogleMeet => ("meet.google.com/" ++ randId)%string
    | Zoom => ("zoom.us/j/" ++ showInt (Zfloor (r2 * 1000000000)))%string
    | MicrosoftTeams => ("teams.microsoft.com/l/meetup-join/" ++ randId)%string
    end in
  {| link := link;
     id := toUpperCase randId;
     pin := showInt (Zfloor (r3 * 9000 + 1000)) |}.

(** Every character of the text is a decimal digit. *)
Fixpoint allDigits (s : string) : bool :=
  match s with
  | EmptyString => true
  | String c rest =>
      let n := Ascii.nat_of_ascii c in
      ((48 <=? n) && (n <=? 57))%nat && allDigits rest
  end.

(** The numeral of [z] has four characters, all of them digits. *)
Definition fourDigits (z : Z) : bool :=
  (String.length (showInt z) =? 4)%nat && allDigits (showInt z).

End Meeting.

(** ** MeetingGuardian.tsx: the MeetingAgent component *)

Module MeetingDataPoint.
Record t := mk { time : Z; sentiment : R; engagement : R; dominance : R }.
End MeetingDataPoint.

Module MeetingAgent.
Import MeetingDataPoint.

(** One pixel of [frame.data]: the bytes [data[i]], [data[i + 1]],
    [data[i + 2]] and [data[i + 3]]. *)
Record Pixel := mkPixel { r : Z; g : Z; b : Z; alpha : Z }.

Definition canvasWidth : R := 100.
Definition canvasHeight : R := 75.

(** The pixel loop: [(totalBrightness, totalVariation)]. *)
Definition totals (data : list Pixel) : R * R :=
  fold_left
    (fun (acc : R * R) (p : Pixel) =>
       let (totalBrightness, totalVariation) := acc in
       let brightness := (IZR (r p) + IZR (g p) + IZR (b p)) / 3 in
       (totalBrightness + brightness,
        totalVariation + Js.Math_abs (brightness - 128)))
    data (0, 0).

Definition avgVariation (data : list Pixel) : R :=
  snd (totals data) / (canvasWidth * canvasHeight).

Definition calculatedEngagement (data : list Pixel) : R :=
  Js.Math_min 100 (Js.Math_max 10 (avgVariation data * 2.5)).

(** [prev[prev.length - 1] || { sentiment: 60, engagement: 50 }], as
    the pair of the two fields that are read. *)
Definition lastOf (prev : list MeetingDataPoint.t) : R * R :=
  match nth_error prev (length prev - 1) with
  | Some p => (sentiment p, engagement p)
  | None => (60, 50)
  end.

(** The updater passed to [setData]. *)
Definition addPoint (calculatedEngagement randomSentimentFlux : R) (now : Z)
    (random : R) (prev : list MeetingDataPoint.t) : list MeetingDataPoint.t :=
  let (lastSentiment, lastEngagement) := lastOf prev in
  let newSentiment := lastSentiment + randomSentimentFlux in
  let newSentiment :=
    if Js.gtb calculatedEngagement 60 then newSentiment + 0.5
    else newSentiment in
  MeetingGuardian.slice_last 40 prev
  ++ [{| time := now;
         sentiment := Js.Math_max 0 (Js.Math_min 100 newSentiment);
         engagement := (lastEngagement * 0.7) + (calculatedEngagement * 0.3);
         dominance := random * 100 |}].

(** What one run of the frame callback needs from outside: the pixels of
    the frame, the clock and the two values [Math.random] returns. *)
Record Tick := mkTick {
  data : list Pixel;
  now : Z;
  random1 : R;
  random2 : R
}.

(** [analyzeFrame] of the agent, past its guards, as a function of the
    data series. *)
Definition analyzeFrame (t : Tick) (prev : list MeetingDataPoint.t)
  : list MeetingDataPoint.t :=
  let calculatedEngagement := calculatedEngagement (data t) in
  let randomSentimentFlux := (random1 t - 0.5) * 5 in
  addPoint calculatedEngagement randomSentimentFlux (now t) (random2 t) prev.

(** The data series after the given frames, from [useState([])]. *)
Definition run (ticks : list Tick) : list MeetingDataPoint.t :=
  fold_left (fun prev t => analyzeFrame t prev) ticks [].

End MeetingAgent.

(** ** Further vocabulary: the agent's data series *)

Module AgentSpec.
Import MeetingDataPoint.

(** The three scores of a point lie where the chart expects them. *)
Definition point_ok (p : MeetingDataPoint.t) : Prop :=
  0 <= sentiment p <= 100 /\ 10 <= engagement p <= 100 /\
  0 <= dominance p < 100.

(** Both random draws of a frame lie in [[0, 1)]. *)
Definition draws_ok (t : MeetingAgent.Tick) : Prop :=
  0 <= MeetingAgent.random1 t < 1 /\ 0 <= MeetingAgent.random2 t < 1.

(** A grey frame of two pixels and two draws of one half. *)
Definition greyTick : MeetingAgent.Tick :=
  MeetingAgent.mkTick
    [MeetingAgent.mkPixel 128 128 128 255; MeetingAgent.mkPixel 128 128 128 255]
    0 (1 / 2) (1 / 2).

End AgentSpec.

(** * Properties *)

(** ** Comparisons, clamp and rounding *)

Module JsFacts.
Import Js.

Lemma ltb_true a b : ltb a b = true <-> a < b.
Proof. unfold ltb; destruct (Rlt_dec a b); split; intros; try easy. Qed.

Lemma ltb_false a b : ltb a b = false <-> b <= a.
Proof.
  unfold ltb; destruct (Rlt_dec a b); split; intros; try easy; lra.
Qed.

Lemma toFixed2_abs_range v : in_range v -> in_range (toFixed2_abs v).
Proof.
  unfold in_range, toFixed2_abs; intros [Hlo Hhi].
  destruct (Zfloor_bound (v * 100 + / 2)) as [Hfl Hfu].
  assert (H0 : (0 <= Zfloor (v * 100 + / 2))%Z).
  { apply Z.lt_succ_r, lt_IZR. rewrite succ_IZR. lra. }
  assert (H1 : (Zfloor (v * 100 + / 2) <= 10000)%Z).
  { apply Z.lt_succ_r, lt_IZR. rewrite succ_IZR.
    change (IZR 10000) with 10000. lra. }
  apply IZR_le in H0, H1. lra.
Qed.

Lemma toFixed2_range v : in_range v -> in_range (toFixed2 v).
Proof.
  intros H; unfold toFixed2.
  destruct (Rlt_dec v 0) as [Hneg|_].
  - unfold in_range in H; lra.
  - now apply toFixed2_abs_range.
Qed.

(** A rounded value is a whole number of hundredths. *)
Lemma toFixed2_hundredths v : exists n : Z, toFixed2 v = IZR n / 100.
Proof.
  unfold toFixed2, toFixed2_abs.
  destruct (Rlt_dec v 0).
  - exists (- Zfloor (- v * 100 + / 2))%Z. rewrite opp_IZR. lra.
  - now exists (Zfloor (v * 100 + / 2)).
Qed.

End JsFacts.

Lemma clamp100_range v : in_range (clamp100 v).
Proof.
  unfold in_range, clamp100, Js.Math_max, Js.Math_min, Rmax, Rmin.
  destruct (Rle_dec 100 v); destruct (Rle_dec 0 _); lra.
Qed.

Lemma clamp100_id v : in_range v -> clamp100 v = v.
Proof.
  unfold in_range, clamp100, Js.Math_max, Js.Math_min, Rmax, Rmin.
  intros H; destruct (Rle_dec 100 v); destruct (Rle_dec 0 _); lra.
Qed.

(** A mix [a * p + b * q] of two in-range values with weights summing to
    one stays in range. *)
Lemma mix_range a b p q :
  in_range a -> in_range b -> 0 <= p -> 0 <= q -> p + q = 1 ->
  in_range (a * p + b * q).
Proof. unfold in_range; intros; nra. Qed.

(** ** The signal filter *)

Module KalmanFacts.
Import KalmanFilter CognitiveInv.

Lemma new_first_call pn mn m :
  filter (new pn mn) m
  = ({| R_ := pn; Q_ := mn; A := 1; B := 0; C := 1;
        cov := Some mn; x := Some m |}, Some m).
Proof.
  unfold filter, new; simpl.
  replace (1 / 1 * m) with m by lra.
  replace (1 / 1 * mn * (1 / 1)) with mn by lra.
  reflexivity.
Qed.

Lemma warm_after_first pn mn m :
  0 < pn -> 0 < mn -> warm (fst (filter (new pn mn) m)).
Proof.
  intros Hp Hm; rewrite new_first_call; unfold warm; simpl.
  repeat split; try lra; eauto.
Qed.

(** The gain of a warm filter lies strictly between 0 and 1. *)
Lemma gain_bounds c r q :
  0 < c -> 0 < r -> 0 < q ->
  let predCov := 1 * c * 1 + r in
  let K := predCov * 1 * (1 / (1 * predCov * 1 + q)) in
  0 < K < 1 /\ 0 < predCov - K * 1 * predCov.
Proof.
  intros Hc Hr Hq predCov K.
  assert (Hd : 0 < 1 * predCov * 1 + q) by (unfold predCov; lra).
  assert (Hi : 0 < 1 / (1 * predCov * 1 + q)).
  { unfold Rdiv; rewrite Rmult_1_l; now apply Rinv_0_lt_compat. }
  assert (He : (1 * predCov * 1 + q) * (1 / (1 * predCov * 1 + q)) = 1).
  { field; lra. }
  set (i := 1 / (1 * predCov * 1 + q)) in *.
  assert (HK : K = predCov * i) by (unfold K; lra).
  assert (Hpc : 0 < predCov) by (unfold predCov; lra).
  assert (HqK : 1 - K = q * i) by (rewrite HK; lra).
  assert (0 < q * i) by nra.
  assert (0 < predCov * i) by nra.
  split; [lra|].
  replace (predCov - K * 1 * predCov) with (predCov * (1 - K)) by lra.
  rewrite HqK; nra.
Qed.

(** One call on a warm filter: it stays warm and its output is a number
    between the previous estimate and the measurement. *)
Lemma warm_step k z :
  warm k ->
  warm (fst (filter k z)) /\
  exists prev out,
    x k = Some prev /\ snd (filter k z) = Some out /\
    x (fst (filter k z)) = Some out /\
    Rmin prev z <= out <= Rmax prev z.
Proof.
  intros (HA & HB & HC & HR & HQ & (c & Hc & Hcpos) & (v & Hv)).
  unfold filter; rewrite Hv, Hc, HA, HB, HC.
  destruct (gain_bounds c (R_ k) (Q_ k) Hcpos HR HQ) as [[K0 K1] Hcov].
  cbv zeta in K0, K1, Hcov.
  set (K := (1 * c * 1 + R_ k) * 1 * (1 / (1 * (1 * c * 1 + R_ k) * 1 + Q_ k)))
    in *.
  split.
  - unfold warm; simpl. repeat split; try assumption; eauto.
  - exists v. eexists. simpl. repeat split; try reflexivity.
    + unfold Rmin; destruct (Rle_dec v z); nra.
    + unfold Rmax; destruct (Rle_dec v z); nra.
Qed.

Lemma warm_feed k ms : warm k -> warm (feed k ms).
Proof.
  revert k; induction ms as [|m ms IH]; intros k Hk; simpl; [assumption|].
  apply IH. now apply warm_step.
Qed.

End KalmanFacts.

(** ** Doubles with overflow *)

Module DoubleFacts.
Import Double.

Lemma MAX_VALUE_huge :
  Filter64Spec.huge <= MAX_VALUE /\ MAX_VALUE < 2 * Filter64Spec.huge.
Proof.
  unfold MAX_VALUE, Filter64Spec.huge. rewrite <- mult_IZR. split.
  - apply IZR_le. apply Z.leb_le. vm_compute. reflexivity.
  - apply IZR_lt. apply Z.ltb_lt. vm_compute. reflexivity.
Qed.

Lemma huge_large : 1000000 <= Filter64Spec.huge.
Proof.
  unfold Filter64Spec.huge. apply IZR_le. apply Z.leb_le.
  vm_compute. reflexivity.
Qed.

Lemma MAX_VALUE_large : 1000000 <= MAX_VALUE.
Proof.
  pose proof MAX_VALUE_huge. pose proof huge_large. lra.
Qed.

Lemma ofReal_fin r : - MAX_VALUE <= r <= MAX_VALUE -> ofReal r = Fin r.
Proof.
  intros [Hl Hu]. unfold ofReal.
  destruct (Rlt_dec MAX_VALUE r); [lra|].
  destruct (Rlt_dec r (- MAX_VALUE)); [lra|reflexivity].
Qed.

Lemma ofReal_below r : r < - MAX_VALUE -> ofReal r = NegInf.
Proof.
  intros H. pose proof MAX_VALUE_large. unfold ofReal.
  destruct (Rlt_dec MAX_VALUE r); [lra|].
  destruct (Rlt_dec r (- MAX_VALUE)); [reflexivity|lra].
Qed.

Lemma add_fin a b :
  - MAX_VALUE <= a + b <= MAX_VALUE -> (Fin a + Fin b)%D = Fin (a + b).
Proof. apply ofReal_fin. Qed.

Lemma sub_fin a b :
  - MAX_VALUE <= a - b <= MAX_VALUE -> (Fin a - Fin b)%D = Fin (a - b).
Proof. intros H. unfold sub, opp, add. now apply ofReal_fin. Qed.

Lemma mul_fin a b :
  - MAX_VALUE <= a * b <= MAX_VALUE -> (Fin a * Fin b)%D = Fin (a * b).
Proof. apply ofReal_fin. Qed.

Lemma div_fin a b :
  b <> 0 -> - MAX_VALUE <= a / b <= MAX_VALUE ->
  (Fin a / Fin b)%D = Fin (a / b).
Proof.
  intros Hb H. unfold div. destruct (Req_dec_T b 0); [contradiction|].
  now apply ofReal_fin.
Qed.

Lemma scale_pos i r : 0 < r -> scale i r = i.
Proof. intros H. unfold scale. destruct (Rlt_dec 0 r); [reflexivity|lra]. Qed.

End DoubleFacts.

(** ** The signal filter over doubles *)

Module Filter64Facts.
Import Double DoubleFacts Filter64Spec.

(** The predicted covariance, the reciprocal and the gain of a call stay
    clear of overflow. *)
Lemma gain_finite c r q :
  constants_ok r q -> 0 < c <= q ->
  let p := 1 * c * 1 + r in
  let i := 1 / (1 * p * 1 + q) in
  let K := p * 1 * i in
  0 < p /\ 2 * p <= MAX_VALUE /\
  0 < 1 * p * 1 + q /\ 4 * (1 * p * 1 + q) <= 3 * MAX_VALUE /\
  0 < i /\ 4 * i <= MAX_VALUE /\ (1 * p * 1 + q) * i = 1 /\
  0 < K < 1 /\ 0 < p - K * 1 * p <= q.
Proof.
  intros (Hr & Hr4 & Hq4 & Hq) [Hc Hcq] p i K.
  pose proof MAX_VALUE_large as HM.
  assert (Hq0 : 0 < q) by nra.
  assert (Hp : 0 < p) by (unfold p; lra).
  assert (Hd : 0 < 1 * p * 1 + q) by lra.
  assert (Hi : (1 * p * 1 + q) * i = 1) by (unfold i; field; lra).
  assert (Hipos : 0 < i).
  { unfold i, Rdiv. rewrite Rmult_1_l. now apply Rinv_0_lt_compat. }
  assert (HK : K = p * i) by (unfold K; ring).
  assert (Hqi : 0 < q * i) by (apply Rmult_lt_0_compat; assumption).
  assert (Hpi : 0 < p * i) by (apply Rmult_lt_0_compat; assumption).
  assert (E : p * i + q * i = 1) by lra.
  split; [exact Hp|]. split; [unfold p; lra|].
  split; [exact Hd|]. split; [unfold p; lra|].
  split; [exact Hipos|]. split.
  - assert (q * i <= 1) by lra.
    assert (4 * i <= (q * MAX_VALUE) * i)
      by (apply Rmult_le_compat_r; lra).
    assert ((q * i) * MAX_VALUE <= 1 * MAX_VALUE)
      by (apply Rmult_le_compat_r; lra).
    lra.
  - split; [exact Hi|]. split; [rewrite HK; lra|].
    replace (p - K * 1 * p) with (p * (q * i)) by (rewrite HK; nra).
    split; [now apply Rmult_lt_0_compat|].
    replace (p * (q * i)) with (q * (p * i)) by ring.
    assert (p * i <= 1) by lra. nra.
Qed.

(** A call on an initialised filter, up to the one step that depends on
    the measurement. *)
Lemma filter_warm r q c v (z : Double.t) :
  constants_ok r q -> 0 < c <= q -> - MAX_VALUE <= v <= MAX_VALUE ->
  let p := 1 * c * 1 + r in
  let K := p * 1 * (1 / (1 * p * 1 + q)) in
  let predX := 1 * v + 0 * 0 in
  let x' := (Fin predX + Fin K * (z - Fin (1 * predX)))%D in
  KalmanFilter64.filter
    {| KalmanFilter64.R_ := Fin r; KalmanFilter64.Q_ := Fin q;
       KalmanFilter64.A := Fin 1; KalmanFilter64.B := Fin 0;
       KalmanFilter64.C := Fin 1;
       KalmanFilter64.cov := Fin c; KalmanFilter64.x := Fin v |} z
  = ({| KalmanFilter64.R_ := Fin r; KalmanFilter64.Q_ := Fin q;
        KalmanFilter64.A := Fin 1; KalmanFilter64.B := Fin 0;
        KalmanFilter64.C := Fin 1;
        KalmanFilter64.cov := Fin (p - K * 1 * p);
        KalmanFilter64.x := x' |}, x').
Proof.
  intros Hk Hc Hv p K predX x'.
  destruct (gain_finite c r q Hk Hc)
    as (Hp & Hp2 & Hd & Hd4 & Hi & Hi4 & Hinv & HK & Hcov).
  fold p in Hp, Hp2, Hd, Hd4, Hi, Hi4, Hinv, HK, Hcov.
  fold K in HK, Hcov.
  destruct Hk as (Hr & Hr4 & Hq4 & Hq).
  pose proof MAX_VALUE_large as HM.
  unfold KalmanFilter64.filter.
  cbn [KalmanFilter64.x KalmanFilter64.cov KalmanFilter64.A KalmanFilter64.B
       KalmanFilter64.C KalmanFilter64.R_ KalmanFilter64.Q_ isNaN].
  cbv zeta.
  rewrite (mul_fin 1 v) by lra.
  rewrite (mul_fin 0 0) by lra.
  rewrite (add_fin (1 * v) (0 * 0)) by lra.
  rewrite (mul_fin 1 c) by lra.
  rewrite (mul_fin (1 * c) 1) by lra.
  rewrite (add_fin (1 * c * 1) r) by (fold p; lra).
  fold p.
  rewrite (mul_fin p 1) by lra.
  rewrite (mul_fin 1 p) by lra.
  rewrite (mul_fin (1 * p) 1) by lra.
  rewrite (add_fin (1 * p * 1) q) by lra.
  rewrite (div_fin 1 (1 * p * 1 + q)) by lra.
  rewrite (mul_fin (p * 1) (1 / (1 * p * 1 + q))) by (fold K; lra).
  fold K.
  rewrite (mul_fin K 1) by lra.
  rewrite (mul_fin (K * 1) p) by nra.
  rewrite (sub_fin p (K * 1 * p)) by lra.
  fold predX. rewrite (mul_fin 1 predX) by (unfold predX; lra).
  reflexivity.
Qed.

(** The first call of a fresh filter. *)
Lemma filter_first pn mn m :
  - MAX_VALUE <= m <= MAX_VALUE -> - MAX_VALUE <= mn <= MAX_VALUE ->
  KalmanFilter64.filter (KalmanFilter64.new (Fin pn) (Fin mn)) (Fin m)
  = ({| KalmanFilter64.R_ := Fin pn; KalmanFilter64.Q_ := Fin mn;
        KalmanFilter64.A := Fin 1; KalmanFilter64.B := Fin 0;
        KalmanFilter64.C := Fin 1;
        KalmanFilter64.cov := Fin (1 / 1 * mn * (1 / 1));
        KalmanFilter64.x := Fin (1 / 1 * m) |}, Fin (1 / 1 * m)).
Proof.
  intros Hm Hmn. pose proof MAX_VALUE_large as HM.
  unfold KalmanFilter64.filter, KalmanFilter64.new.
  cbn [KalmanFilter64.x KalmanFilter64.cov KalmanFilter64.A KalmanFilter64.B
       KalmanFilter64.C KalmanFilter64.R_ KalmanFilter64.Q_ isNaN].
  cbv zeta.
  rewrite (div_fin 1 1) by lra.
  rewrite (mul_fin (1 / 1) m) by lra.
  rewrite (mul_fin (1 / 1) mn) by lra.
  rewrite (mul_fin (1 / 1 * mn) (1 / 1)) by lra.
  reflexivity.
Qed.

(** Fed a measurement of an interval its estimate lies in, the filter
    over doubles does what the exact-real filter does, and the exact-real
    filter stays steady. *)
Lemma sim_step lo hi k m :
  constants_ok (KalmanFilter.R_ k) (KalmanFilter.Q_ k) -> span_ok lo hi ->
  steady lo hi k -> lo <= m <= hi ->
  KalmanFilter64.filter (lift k) (Fin m)
  = (lift (fst (KalmanFilter.filter k m)),
     inj (snd (KalmanFilter.filter k m))) /\
  steady lo hi (fst (KalmanFilter.filter k m)) /\
  KalmanFilter.R_ (fst (KalmanFilter.filter k m)) = KalmanFilter.R_ k /\
  KalmanFilter.Q_ (fst (KalmanFilter.filter k m)) = KalmanFilter.Q_ k.
Proof.
  intros Hk (Hlo & Hhi & Hw) (HA & HB & HC & Hx) Hm.
  destruct k as [r q a b c0 cov0 x0].
  cbn [KalmanFilter.A KalmanFilter.B KalmanFilter.C KalmanFilter.x
       KalmanFilter.cov KalmanFilter.R_ KalmanFilter.Q_] in *.
  subst a b c0.
  pose proof MAX_VALUE_large as HM.
  destruct x0 as [v|].
  - destruct Hx as [Hv (c & -> & Hc)].
    destruct (gain_finite c r q Hk Hc)
      as (Hp & _ & _ & _ & _ & _ & _ & HK & Hcov).
    unfold lift.
    cbn [KalmanFilter.A KalmanFilter.B KalmanFilter.C KalmanFilter.x
         KalmanFilter.cov KalmanFilter.R_ KalmanFilter.Q_ inj].
    rewrite (filter_warm r q c v (Fin m) Hk Hc) by lra.
    cbv zeta. unfold KalmanFilter.filter.
    cbn [KalmanFilter.A KalmanFilter.B KalmanFilter.C KalmanFilter.x
         KalmanFilter.cov KalmanFilter.R_ KalmanFilter.Q_ fst snd inj].
    set (p := 1 * c * 1 + r) in *.
    set (K := p * 1 * (1 / (1 * p * 1 + q))) in *.
    set (predX := 1 * v + 0 * 0).
    assert (HpX : predX = v) by (unfold predX; ring).
    rewrite (sub_fin m (1 * predX)) by lra.
    assert (Hd : Rabs (K * (m - 1 * predX)) <= Rabs (m - 1 * predX)).
    { rewrite Rabs_mult, (Rabs_pos_eq K) by lra.
      pose proof (Rabs_pos (m - 1 * predX)). nra. }
    assert (Hb : Rmin v m <= predX + K * (m - 1 * predX) <= Rmax v m).
    { rewrite HpX. unfold Rmin, Rmax. destruct (Rle_dec v m); nra. }
    assert (Hin : lo <= predX + K * (m - 1 * predX) <= hi).
    { revert Hb. unfold Rmin, Rmax. destruct (Rle_dec v m); lra. }
    rewrite (mul_fin K (m - 1 * predX)).
    2:{ assert (Rabs (m - 1 * predX) <= MAX_VALUE)
          by (apply Rabs_le; lra).
        pose proof (Rle_abs (K * (m - 1 * predX))).
        pose proof (Rle_abs (- (K * (m - 1 * predX)))) as Hn.
        rewrite Rabs_Ropp in Hn. lra. }
    rewrite (add_fin predX (K * (m - 1 * predX))) by lra.
    split; [reflexivity|]. split; [|split; reflexivity].
    unfold steady.
    cbn [KalmanFilter.A KalmanFilter.B KalmanFilter.C KalmanFilter.x
         KalmanFilter.cov KalmanFilter.R_ KalmanFilter.Q_].
    repeat split; try lra.
    eexists. split; [reflexivity|]. exact Hcov.
  - cbn [KalmanFilter.cov] in Hx. subst cov0.
    destruct Hk as (Hr & Hr4 & Hq4 & Hq).
    assert (Hq0 : 0 < q) by nra.
    change (lift (KalmanFilter.mk r q 1 0 1 None None))
      with (KalmanFilter64.new (Fin r) (Fin q)).
    rewrite (filter_first r q m) by lra.
    unfold KalmanFilter.filter, lift.
    cbn [KalmanFilter.A KalmanFilter.B KalmanFilter.C KalmanFilter.x
         KalmanFilter.cov KalmanFilter.R_ KalmanFilter.Q_ fst snd inj].
    split; [reflexivity|]. split; [|split; reflexivity].
    unfold steady.
    cbn [KalmanFilter.A KalmanFilter.B KalmanFilter.C KalmanFilter.x
         KalmanFilter.cov KalmanFilter.R_ KalmanFilter.Q_].
    repeat split; try lra.
    eexists. split; [reflexivity|]. lra.
Qed.

(** A measurement further below the estimate than [MAX_VALUE] sends the
    estimate to minus infinity. *)
Lemma filter_overflow r q c v m :
  constants_ok r q -> 0 < c <= q -> - MAX_VALUE <= v <= MAX_VALUE ->
  m - v < - MAX_VALUE ->
  snd (KalmanFilter64.filter
         {| KalmanFilter64.R_ := Fin r; KalmanFilter64.Q_ := Fin q;
            KalmanFilter64.A := Fin 1; KalmanFilter64.B := Fin 0;
            KalmanFilter64.C := Fin 1;
            KalmanFilter64.cov := Fin c; KalmanFilter64.x := Fin v |}
         (Fin m))
  = NegInf.
Proof.
  intros Hk Hc Hv Hm.
  destruct (gain_finite c r q Hk Hc)
    as (_ & _ & _ & _ & _ & _ & _ & HK & _).
  rewrite (filter_warm r q c v (Fin m) Hk Hc Hv).
  cbv zeta. cbn [snd].
  unfold sub at 1. cbn [opp add].
  rewrite ofReal_below by lra.
  cbn [mul]. rewrite scale_pos by lra. reflexivity.
Qed.

(** Whole runs: the outputs and the final filter. *)
Lemma sim_run lo hi ms : forall k,
  constants_ok (KalmanFilter.R_ k) (KalmanFilter.Q_ k) -> span_ok lo hi ->
  steady lo hi k -> Forall (fun m => lo <= m <= hi) ms ->
  KalmanFilter64.outputs (lift k) (map Fin ms)
  = map inj (CognitiveInv.outputs k ms) /\
  KalmanFilter64.feed (lift k) (map Fin ms) = lift (KalmanFilter.feed k ms) /\
  steady lo hi (KalmanFilter.feed k ms) /\
  KalmanFilter.R_ (KalmanFilter.feed k ms) = KalmanFilter.R_ k /\
  KalmanFilter.Q_ (KalmanFilter.feed k ms) = KalmanFilter.Q_ k.
Proof.
  induction ms as [|m ms IH]; intros k Hk Hs Hst Hms.
  { split; [reflexivity|]. split; [reflexivity|]. split; [exact Hst|].
    split; reflexivity. }
  inversion Hms as [|? ? Hm Hrest]; subst.
  destruct (sim_step lo hi k m Hk Hs Hst Hm) as (E & Hst' & HR & HQ).
  assert (Hk' : constants_ok
                  (KalmanFilter.R_ (fst (KalmanFilter.filter k m)))
                  (KalmanFilter.Q_ (fst (KalmanFilter.filter k m))))
    by (rewrite HR, HQ; exact Hk).
  destruct (IH _ Hk' Hs Hst' Hrest) as (Eo & Ef & Hst'' & HR' & HQ').
  cbn [map KalmanFilter64.outputs CognitiveInv.outputs].
  unfold KalmanFilter64.feed, KalmanFilter.feed in *.
  cbn [fold_left]. rewrite E. cbn [fst snd].
  split; [now rewrite Eo|]. split; [exact Ef|]. split; [exact Hst''|].
  split; congruence.
Qed.

Lemma steady_new lo hi pn mn : steady lo hi (KalmanFilter.new pn mn).
Proof. unfold steady, KalmanFilter.new. cbn. repeat split. Qed.

Lemma lift_new pn mn :
  lift (KalmanFilter.new pn mn) = KalmanFilter64.new (Fin pn) (Fin mn).
Proof. reflexivity. Qed.

(** On the scale the cognitive model uses the filter on (constants
    between a thousandth and a thousand, measurements clamped to
    [[0, 100]]) the two embeddings return the same values. *)
Lemma agree_on_scale pn mn ms :
  moderate pn -> moderate mn -> Forall in_range ms ->
  KalmanFilter64.outputs (KalmanFilter64.new (Fin pn) (Fin mn)) (map Fin ms)
  = map inj (CognitiveInv.outputs (KalmanFilter.new pn mn) ms).
Proof.
  intros [Hp1 Hp2] [Hm1 Hm2] Hms. pose proof MAX_VALUE_large as HM.
  assert (Hk : constants_ok pn mn).
  { unfold constants_ok.
    assert (1 / 1000 * MAX_VALUE <= mn * MAX_VALUE)
      by (apply Rmult_le_compat_r; lra).
    repeat split; lra. }
  assert (Hs : span_ok 0 100) by (unfold span_ok; lra).
  rewrite <- lift_new.
  apply (sim_run 0 100 ms (KalmanFilter.new pn mn) Hk Hs
           (steady_new 0 100 pn mn) Hms).
Qed.

End Filter64Facts.




(** ** The cognitive model *)

Module CognitiveFacts.
Import CognitiveModel BiometricInput ExpressionConfidence CognitiveSpec.

Lemma rawAttention_spec input : rawAttention input = spec_attention input.
Proof.
  unfold rawAttention, spec_attention, clamp100, Js.Math_abs.
  destruct (Js.ltb (ear input) 0.15); do 2 f_equal; lra.
Qed.

Lemma rawStress_spec input : rawStress input = spec_stress input.
Proof.
  unfold rawStress, spec_stress, clamp100.
  destruct (Js.gtb (blinkRate input) 25);
    [|destruct (Js.ltb (blinkRate input) 5)]; do 2 f_equal; lra.
Qed.

Lemma smoothedCuriosity_spec a input :
  smoothedCuriosity a input = spec_curiosity_from a input.
Proof.
  unfold smoothedCuriosity, spec_curiosity_from, clamp100, Js.gtb.
  rewrite andb_comm.
  destruct (Js.gtb_nan a 70);
    destruct (Js.ltb (-20) (pitch input) && Js.ltb (pitch input) (-5));
    do 2 f_equal; lra.
Qed.

Lemma rawAttention_range input : in_range (rawAttention input).
Proof. rewrite rawAttention_spec; apply clamp100_range. Qed.

Lemma rawStress_range input : in_range (rawStress input).
Proof. rewrite rawStress_spec; apply clamp100_range. Qed.

Lemma smoothedCuriosity_range a input : in_range (smoothedCuriosity a input).
Proof. rewrite smoothedCuriosity_spec; apply clamp100_range. Qed.

Lemma pow_abs_zero e : Js.Math_pow (Rabs 0) e = 0.
Proof.
  unfold Js.Math_pow; rewrite Rabs_R0.
  destruct (Rle_dec 0 0); [reflexivity|lra].
Qed.

Lemma atRest_attention ear0 s0 :
  spec_attention (atRest ear0 s0) = if Js.ltb ear0 0.15 then 60 else 100.
Proof.
  unfold spec_attention, atRest; simpl.
  replace (5 - 5) with 0 by lra. rewrite pow_abs_zero.
  destruct (Js.ltb ear0 0.15).
  - transitivity (clamp100 60); [f_equal; lra|].
    apply clamp100_id; unfold in_range; lra.
  - transitivity (clamp100 100); [f_equal; lra|].
    apply clamp100_id; unfold in_range; lra.
Qed.

End CognitiveFacts.

Module CognitiveRange.
Import CognitiveModel CognitiveInv CognitiveFacts.

Lemma filter_ok_new pn mn : 0 < pn -> 0 < mn -> filter_ok (KalmanFilter.new pn mn).
Proof. intros; unfold filter_ok; simpl; repeat split; lra. Qed.

Lemma between_range prev z out :
  in_range prev -> in_range z -> Rmin prev z <= out <= Rmax prev z ->
  in_range out.
Proof.
  unfold in_range, Rmin, Rmax; destruct (Rle_dec prev z); lra.
Qed.

Lemma filter_ok_step k z :
  filter_ok k -> in_range z ->
  filter_ok (fst (KalmanFilter.filter k z)) /\
  number_in_range (snd (KalmanFilter.filter k z)).
Proof.
  intros (HA & HB & HC & HR & HQ & Hx) Hz.
  destruct (KalmanFilter.x k) as [v|] eqn:Ev.
  - destruct Hx as [Hv (c & Hc & Hcpos)].
    assert (Hw : CognitiveInv.warm k).
    { unfold CognitiveInv.warm; repeat split; eauto. }
    destruct (KalmanFacts.warm_step k z Hw)
      as [Hw' (prev & out & Hp & Ho & Hx' & Hb)].
    rewrite Ev in Hp; injection Hp as <-.
    assert (Hout : in_range out) by exact (between_range v z out Hv Hz Hb).
    destruct Hw' as (HA' & HB' & HC' & HR' & HQ' & Hc' & _).
    split.
    + unfold filter_ok; rewrite Hx'.
      do 5 (split; [assumption|]). split; [exact Hout|exact Hc'].
    + exists out; split; assumption.
  - unfold KalmanFilter.filter; rewrite Ev, HC; simpl.
    replace (1 / 1 * z) with z by lra.
    split.
    + unfold filter_ok; simpl.
      do 5 (split; [assumption || reflexivity|]). split; [exact Hz|].
      exists (1 / 1 * KalmanFilter.Q_ k * (1 / 1)); split; [reflexivity|lra].
    + exists z; split; [reflexivity|assumption].
Qed.

Lemma toFixed2_nan_range v :
  number_in_range v -> number_in_range (Js.toFixed2_nan v).
Proof.
  intros (r & -> & Hr); exists (Js.toFixed2 r); split; [reflexivity|].
  now apply JsFacts.toFixed2_range.
Qed.

Lemma model_ok_new now : model_ok (new now).
Proof.
  unfold model_ok, new; simpl.
  split; [apply filter_ok_new; lra|]. split; [apply filter_ok_new; lra|].
  split; [exists 50; split; [reflexivity|unfold in_range; lra]|].
  split; [exists 30; split; [reflexivity|unfold in_range; lra]|].
  unfold in_range; lra.
Qed.

Lemma update_ok cm now input :
  model_ok cm ->
  model_ok (fst (update cm now input)) /\ point_ok (snd (update cm now input)).
Proof.
  intros (Ha & Hs & _).
  unfold update.
  destruct (filter_ok_step _ _ Ha (rawAttention_range input)) as [Ha' Hao].
  destruct (filter_ok_step _ _ Hs (rawStress_range input)) as [Hs' Hso].
  destruct (KalmanFilter.filter (attentionFilter cm) (rawAttention input))
    as [af sa].
  destruct (KalmanFilter.filter (stressFilter cm) (rawStress input))
    as [sf ss].
  simpl in *.
  pose proof (smoothedCuriosity_range sa input) as Hc.
  split.
  - unfold model_ok; simpl.
    split; [exact Ha'|]. split; [exact Hs'|]. split; [exact Hao|].
    split; [exact Hso|exact Hc].
  - unfold point_ok; simpl.
    split; [now apply toFixed2_nan_range|].
    split; [now apply toFixed2_nan_range|].
    now apply JsFacts.toFixed2_range.
Qed.

Lemma run_ok inputs : forall cm,
  model_ok cm ->
  model_ok (fst (run cm inputs)) /\ Forall point_ok (snd (run cm inputs)).
Proof.
  induction inputs as [|[now input] rest IH]; intros cm Hcm; simpl.
  - split; [assumption|constructor].
  - destruct (update_ok cm now input Hcm) as [Hcm' Hdp].
    destruct (update cm now input) as [cm' dp]; simpl in *.
    destruct (IH cm' Hcm') as [Hfin Hall].
    destruct (run cm' rest) as [cm'' dps]; simpl in *.
    split; [assumption|constructor; assumption].
Qed.

End CognitiveRange.

(** ** What [update] hands to which filter *)

Module UpdateFacts.
Import CognitiveModel CognitiveInv CognitiveSpec CognitiveFacts.

Ltac js_cmp :=
  repeat match goal with
  | |- context [Js.ltb ?a ?b] =>
      first [ rewrite (proj2 (JsFacts.ltb_true a b)) by lra
            | rewrite (proj2 (JsFacts.ltb_false a b)) by lra ]
  end.

Lemma update_attentionFilter cm now input :
  attentionFilter (fst (update cm now input))
  = fst (KalmanFilter.filter (attentionFilter cm) (rawAttention input)).
Proof.
  unfold update.
  destruct (KalmanFilter.filter (attentionFilter cm) _);
    destruct (KalmanFilter.filter (stressFilter cm) _); reflexivity.
Qed.

Lemma update_stressFilter cm now input :
  stressFilter (fst (update cm now input))
  = fst (KalmanFilter.filter (stressFilter cm) (rawStress input)).
Proof.
  unfold update.
  destruct (KalmanFilter.filter (attentionFilter cm) _);
    destruct (KalmanFilter.filter (stressFilter cm) _); reflexivity.
Qed.

Lemma update_flowFilter cm now input :
  flowFilter (fst (update cm now input)) = flowFilter cm.
Proof.
  unfold update.
  destruct (KalmanFilter.filter (attentionFilter cm) _);
    destruct (KalmanFilter.filter (stressFilter cm) _); reflexivity.
Qed.

Lemma update_state_curiosity cm now input :
  CognitiveModelState.curiosity (state (fst (update cm now input)))
  = smoothedCuriosity
      (snd (KalmanFilter.filter (attentionFilter cm) (rawAttention input)))
      input.
Proof.
  unfold update.
  destruct (KalmanFilter.filter (attentionFilter cm) _);
    destruct (KalmanFilter.filter (stressFilter cm) _); reflexivity.
Qed.

Lemma update_point cm now input :
  snd (update cm now input)
  = {| CognitiveDataPoint.time := now;
       CognitiveDataPoint.attention :=
         Js.toFixed2_nan
           (snd (KalmanFilter.filter (attentionFilter cm) (rawAttention input)));
       CognitiveDataPoint.stress :=
         Js.toFixed2_nan
           (snd (KalmanFilter.filter (stressFilter cm) (rawStress input)));
       CognitiveDataPoint.curiosity :=
         Js.toFixed2
           (smoothedCuriosity
              (snd (KalmanFilter.filter (attentionFilter cm)
                      (rawAttention input))) input) |}.
Proof.
  unfold update.
  destruct (KalmanFilter.filter (attentionFilter cm) _);
    destruct (KalmanFilter.filter (stressFilter cm) _); reflexivity.
Qed.

(** The second call of a fresh filter, in closed form. *)
Lemma second_call pn mn m z :
  0 < pn -> 0 < mn ->
  snd (KalmanFilter.filter
         (fst (KalmanFilter.filter (KalmanFilter.new pn mn) m)) z)
  = Some (m + (mn + pn) / (mn + pn + mn) * (z - m)).
Proof.
  intros Hp Hm. rewrite KalmanFacts.new_first_call.
  unfold KalmanFilter.filter; simpl. f_equal. field. lra.
Qed.

(** Rounding leaves a non-negative whole number of hundredths alone. *)
Lemma toFixed2_fixed (n : Z) :
  (0 <= n)%Z -> Js.toFixed2 (IZR n / 100) = IZR n / 100.
Proof.
  intros Hn. apply IZR_le in Hn.
  unfold Js.toFixed2, Js.toFixed2_abs.
  destruct (Rlt_dec (IZR n / 100) 0); [lra|].
  rewrite (Zfloor_eq n); [reflexivity|lra].
Qed.

(** Rounding moves a non-negative value by at most half a hundredth. *)
Lemma toFixed2_near v : 0 <= v -> Js.toFixed2 v <= v + / 200.
Proof.
  intros Hv. unfold Js.toFixed2, Js.toFixed2_abs.
  destruct (Rlt_dec v 0); [lra|].
  destruct (Zfloor_bound (v * 100 + / 2)). lra.
Qed.

(** Curiosity of a head at rest: 50, ten more when the attention it is
    given exceeds 70, forty times the surprise confidence more. *)
Lemma atRest_curiosity a e s :
  0 <= s <= 1 ->
  smoothedCuriosity a (atRest e s)
  = 50 + (if Js.gtb_nan a 70 then 10 else 0) + s * 40.
Proof.
  intros Hs. rewrite smoothedCuriosity_spec.
  unfold spec_curiosity_from, atRest, Js.gtb; simpl. js_cmp; simpl.
  destruct (Js.gtb_nan a 70).
  - transitivity (clamp100 (50 + 10 + s * 40)); [f_equal; lra|].
    apply clamp100_id; unfold in_range; lra.
  - transitivity (clamp100 (50 + 0 + s * 40)); [f_equal; lra|].
    apply clamp100_id; unfold in_range; lra.
Qed.

End UpdateFacts.

Module CognitiveClaims.
Import CognitiveModel CognitiveInv CognitiveSpec CognitiveFacts UpdateFacts.

Lemma run_cons cm now input rest :
  run cm ((now, input) :: rest)
  = (fst (run (fst (update cm now input)) rest),
     snd (update cm now input) :: snd (run (fst (update cm now input)) rest)).
Proof.
  simpl. destruct (update cm now input) as [cm' dp]; simpl.
  destruct (run cm' rest); reflexivity.
Qed.

End CognitiveClaims.

(** C9 (counterexample). After a first update with raw attention 100, a
    second update with closed eyes has raw attention 60 but filtered
    attention near 79.9: the code adds the ten points for attention above
    70 and reports curiosity 60, where the formula of the claim, read on
    the raw attention, gives 50. *)
Lemma C9_counterexample :
  let input1 := CognitiveSpec.atRest 0.3 0 in
  let input2 := CognitiveSpec.atRest 0.1 0 in
  let cm1 := fst (CognitiveModel.update (CognitiveModel.new 0) 1 input1) in
  CognitiveModelState.curiosity
    (CognitiveModel.state (fst (CognitiveModel.update cm1 2 input2))) = 60
  /\ CognitiveSpec.spec_attention input2 = 60
  /\ CognitiveSpec.spec_curiosity input2 = 50.
Proof.
  cbv zeta. split; [|split].
  - rewrite UpdateFacts.update_state_curiosity, UpdateFacts.update_attentionFilter.
    change (CognitiveModel.attentionFilter (CognitiveModel.new 0))
      with (KalmanFilter.new 0.1 10).
    rewrite UpdateFacts.second_call by lra.
    rewrite !CognitiveFacts.rawAttention_spec, !CognitiveFacts.atRest_attention.
    UpdateFacts.js_cmp.
    rewrite UpdateFacts.atRest_curiosity by lra.
    unfold Js.gtb_nan, Js.gtb.
    rewrite (proj2 (JsFacts.ltb_true _ _)).
    + lra.
    + apply Rmult_lt_reg_r with (10 + 0.1 + 10); [lra|].
      field_simplify; lra.
  - rewrite CognitiveFacts.atRest_attention. UpdateFacts.js_cmp. reflexivity.
  - unfold CognitiveSpec.spec_curiosity.
    rewrite <- CognitiveFacts.smoothedCuriosity_spec.
    rewrite UpdateFacts.atRest_curiosity by lra.
    rewrite CognitiveFacts.atRest_attention. UpdateFacts.js_cmp.
    unfold Js.gtb_nan, Js.gtb. UpdateFacts.js_cmp. lra.
Qed.

(** C9 (amended). In the geometric mode the raw attention and the raw
    stress handed to the filters equal the specified formulas, and the
    curiosity kept in the state equals the specified formula with its ten
    points granted when the filtered attention, the output of the
    attention filter for this update, exceeds 70. *)
Theorem C9_raw_metric_formulas
    (cm : CognitiveModel.t) (now : Z) (input : BiometricInput.t) :
  let filtered :=
    KalmanFilter.filter (CognitiveModel.attentionFilter cm)
      (CognitiveSpec.spec_attention input) in
  CognitiveModel.rawAttention input = CognitiveSpec.spec_attention input /\
  CognitiveModel.rawStress input = CognitiveSpec.spec_stress input /\
  CognitiveModel.attentionFilter (fst (CognitiveModel.update cm now input))
  = fst filtered /\
  CognitiveModel.stressFilter (fst (CognitiveModel.update cm now input))
  = fst (KalmanFilter.filter (CognitiveModel.stressFilter cm)
           (CognitiveSpec.spec_stress input)) /\
  CognitiveModelState.curiosity
    (CognitiveModel.state (fst (CognitiveModel.update cm now input)))
  = CognitiveSpec.spec_curiosity_from (snd filtered) input.
Proof.
  cbv zeta.
  rewrite UpdateFacts.update_attentionFilter, UpdateFacts.update_stressFilter,
    UpdateFacts.update_state_curiosity.
  rewrite CognitiveFacts.smoothedCuriosity_spec.
  rewrite !CognitiveFacts.rawAttention_spec, !CognitiveFacts.rawStress_spec.
  repeat split; reflexivity.
Qed.

(** C2 (counterexample). Two updates with a head at rest, the second
    with full surprise: the raw curiosity is 50 and then 90 and the
    reported curiosity is 50 and then 90 as well, the flow filter has
    still received nothing, and none of the three filter instances of the
    model, fed 50 and 90, would have returned values rounding to that. *)
Lemma C2_counterexample :
  let inputs := [(1%Z, CognitiveSpec.atRest 0.1 0);
                 (2%Z, CognitiveSpec.atRest 0.1 1)] in
  let final := CognitiveModel.run (CognitiveModel.new 0) inputs in
  map CognitiveDataPoint.curiosity (snd final) = [50; 90] /\
  CognitiveModel.flowFilter (fst final) = KalmanFilter.new 0.01 1 /\
  forall k,
    In k [CognitiveModel.attentionFilter (CognitiveModel.new 0);
          CognitiveModel.stressFilter (CognitiveModel.new 0);
          CognitiveModel.flowFilter (CognitiveModel.new 0)] ->
    map Js.toFixed2_nan (CognitiveInv.outputs k [50; 90])
    <> [Some 50; Some 90].
Proof.
  cbv zeta. rewrite !CognitiveClaims.run_cons. cbn [fst snd map].
  split; [|split].
  - rewrite !UpdateFacts.update_point. cbn [CognitiveDataPoint.curiosity].
    rewrite UpdateFacts.update_attentionFilter.
    change (CognitiveModel.attentionFilter (CognitiveModel.new 0))
      with (KalmanFilter.new 0.1 10).
    rewrite UpdateFacts.second_call by lra.
    rewrite KalmanFacts.new_first_call. cbn [snd].
    rewrite !CognitiveFacts.rawAttention_spec, !CognitiveFacts.atRest_attention.
    UpdateFacts.js_cmp.
    rewrite !UpdateFacts.atRest_curiosity by lra.
    unfold Js.gtb_nan, Js.gtb.
    replace (60 + (10 + 0.1) / (10 + 0.1 + 10) * (60 - 60)) with 60
      by (field; lra).
    UpdateFacts.js_cmp.
    replace (50 + 0 + 0 * 40) with (IZR 5000 / 100) by lra.
    replace (50 + 0 + 1 * 40) with (IZR 9000 / 100) by lra.
    rewrite !UpdateFacts.toFixed2_fixed by lia.
    f_equal; [lra|f_equal; lra].
  - cbn [CognitiveModel.run fst].
    rewrite !UpdateFacts.update_flowFilter. reflexivity.
  - intros k Hk Heq.
    assert (Hsecond : exists pn mn, 0 < pn /\ pn <= mn /\ k = KalmanFilter.new pn mn).
    { simpl in Hk. destruct Hk as [<-|[<-|[<-|[]]]].
      - exists 0.1, 10; repeat split; lra.
      - exists 0.1, 5; repeat split; lra.
      - exists 0.01, 1; repeat split; lra. }
    destruct Hsecond as (pn & mn & Hp & Hm & ->).
    cbn [CognitiveInv.outputs map] in Heq.
    rewrite UpdateFacts.second_call in Heq by lra.
    injection Heq as _ Heq.
    pose proof (UpdateFacts.toFixed2_near
                  (50 + (mn + pn) / (mn + pn + mn) * (90 - 50))) as Hnear.
    assert (Hgain : (mn + pn) / (mn + pn + mn) <= 2 / 3).
    { apply Rmult_le_reg_r with (mn + pn + mn); [lra|].
      unfold Rdiv at 1. rewrite Rmult_assoc, Rinv_l by lra. lra. }
    assert (Hgain0 : 0 <= (mn + pn) / (mn + pn + mn)).
    { apply Rmult_le_reg_r with (mn + pn + mn); [lra|].
      unfold Rdiv. rewrite Rmult_assoc, Rinv_l by lra. lra. }
    set (K := (mn + pn) / (mn + pn + mn)) in *.
    assert (0 <= 50 + K * (90 - 50)) by nra.
    specialize (Hnear H). nra.
Qed.

(** C2 (amended). One update hands the raw attention to the attention
    filter and the raw stress to the stress filter, two distinct
    instances, and reports their outputs rounded to two decimals; the
    curiosity goes through no filter (the flow filter is left untouched)
    and is reported as the clamped value itself rounded to two decimals.
    Every reported number is a whole number of hundredths. *)
Theorem C2_filtered_and_rounded
    (cm : CognitiveModel.t) (now : Z) (input : BiometricInput.t) :
  let cm' := fst (CognitiveModel.update cm now input) in
  let dp := snd (CognitiveModel.update cm now input) in
  let att := KalmanFilter.filter (CognitiveModel.attentionFilter cm)
               (CognitiveModel.rawAttention input) in
  let str := KalmanFilter.filter (CognitiveModel.stressFilter cm)
               (CognitiveModel.rawStress input) in
  (CognitiveModel.attentionFilter cm' = fst att /\
   CognitiveDataPoint.attention dp = Js.toFixed2_nan (snd att)) /\
  (CognitiveModel.stressFilter cm' = fst str /\
   CognitiveDataPoint.stress dp = Js.toFixed2_nan (snd str)) /\
  (CognitiveModel.flowFilter cm' = CognitiveModel.flowFilter cm /\
   CognitiveDataPoint.curiosity dp
   = Js.toFixed2 (CognitiveModel.smoothedCuriosity (snd att) input)) /\
  (forall a, CognitiveDataPoint.attention dp = Some a ->
             exists n : Z, a = IZR n / 100) /\
  (forall s, CognitiveDataPoint.stress dp = Some s ->
             exists n : Z, s = IZR n / 100) /\
  (exists n : Z, CognitiveDataPoint.curiosity dp = IZR n / 100).
Proof.
  cbv zeta.
  rewrite UpdateFacts.update_attentionFilter, UpdateFacts.update_stressFilter,
    UpdateFacts.update_flowFilter, UpdateFacts.update_point.
  cbn [CognitiveDataPoint.attention CognitiveDataPoint.stress
       CognitiveDataPoint.curiosity].
  repeat split.
  - intros a Ha.
    destruct (snd (KalmanFilter.filter (CognitiveModel.attentionFilter cm) _))
      as [v|]; [|discriminate].
    injection Ha as <-. apply JsFacts.toFixed2_hundredths.
  - intros s Hs.
    destruct (snd (KalmanFilter.filter (CognitiveModel.stressFilter cm) _))
      as [v|]; [|discriminate].
    injection Hs as <-. apply JsFacts.toFixed2_hundredths.
  - apply JsFacts.toFixed2_hundredths.
Qed.

(** ** The body-language classifier *)

Module ClassifierFacts.
Import MeetingGuardian ClassifierSpec.

Lemma slice_last_short {T} n (l : list T) :
  (length l <= n)%nat -> slice_last n l = l.
Proof.
  intros H; unfold slice_last.
  replace (length l - n)%nat with 0%nat by lia. reflexivity.
Qed.

Lemma reversals_short recent :
  (length recent < 4)%nat -> reversals recent = (0%nat, 0%nat).
Proof.
  intros H; unfold reversals.
  destruct (4 <=? length recent)%nat eqn:E; [|reflexivity].
  apply Nat.leb_le in E; lia.
Qed.

Lemma earliest_first_match rs : forall i label,
  earliest rs i label -> first_match rs = Some label.
Proof.
  induction rs as [|[c l] rest IH]; intros i label [Hi Hbefore].
  - destruct i; discriminate.
  - destruct i as [|i]; simpl in *.
    + injection Hi as -> ->. reflexivity.
    + rewrite (Hbefore 0%nat c l (Nat.lt_0_succ i) eq_refl).
      apply (IH i label). split; [exact Hi|].
      intros j c0 l0 Hj Hn. apply (Hbefore (S j) c0 l0); [lia|exact Hn].
Qed.

(** The window of the code is the most recent entries. *)
Lemma slice_last_mostRecent {T} n (l : list T) :
  slice_last n l = mostRecent n l.
Proof.
  unfold slice_last, mostRecent. rewrite firstn_rev, rev_involutive.
  reflexivity.
Qed.

(** *** The first loop against the summed displacement *)

Local Notation moveStep recent :=
  (fun (acc : R * R) (i : nat) =>
     let (moveX, moveY) := acc in
     (moveX + Js.Math_abs (FaceState.x (at_ recent i)
                           - FaceState.x (at_ recent (i - 1))),
      moveY + Js.Math_abs (FaceState.y (at_ recent i)
                           - FaceState.y (at_ recent (i - 1))))).

Lemma at_shift a l s : (1 <= s)%nat ->
  at_ (a :: l) (S s) = at_ l s /\ at_ (a :: l) (S s - 1) = at_ l (s - 1).
Proof.
  intros Hs. unfold at_. destruct s as [|s']; [lia|].
  replace (S (S s') - 1)%nat with (S s') by lia.
  replace (S s' - 1)%nat with s' by lia.
  split; reflexivity.
Qed.

Lemma moves_shift a l n : forall s acc, (1 <= s)%nat ->
  fold_left (moveStep (a :: l)) (seq (S s) n) acc
  = fold_left (moveStep l) (seq s n) acc.
Proof.
  induction n as [|n IH]; intros s acc Hs; [reflexivity|].
  cbn [seq fold_left]. rewrite IH by lia. f_equal.
  destruct acc as [mx my]. destruct (at_shift a l s Hs) as [-> ->].
  reflexivity.
Qed.

Lemma moves_sum l : forall a mx my,
  let (moveX, moveY) :=
    fold_left (moveStep (a :: l)) (seq 1 (length l)) (mx, my) in
  moveX + moveY = mx + my + displacement (steps (a :: l)).
Proof.
  induction l as [|b l IH]; intros a mx my.
  - cbn. lra.
  - cbn [length seq fold_left]. rewrite moves_shift by lia.
    specialize (IH b
      (mx + Js.Math_abs (FaceState.x (at_ (a :: b :: l) 1)
                         - FaceState.x (at_ (a :: b :: l) (1 - 1))))
      (my + Js.Math_abs (FaceState.y (at_ (a :: b :: l) 1)
                         - FaceState.y (at_ (a :: b :: l) (1 - 1))))).
    destruct (fold_left _ _ _) as [moveX moveY].
    rewrite IH. unfold at_, Js.Math_abs.
    cbn [nth Nat.sub steps displacement fst snd]. ring.
Qed.

Lemma avgMove_perEntry recent : avgMove recent = perEntry recent.
Proof.
  unfold avgMove, perEntry, moves.
  destruct recent as [|a l].
  - cbn. replace (0 + 0) with 0 by ring. reflexivity.
  - cbn [length]. replace (S (length l) - 1)%nat with (length l) by lia.
    pose proof (moves_sum l a 0 0) as H.
    destruct (fold_left _ _ _) as [moveX moveY].
    rewrite H. f_equal. ring.
Qed.

(** *** The second loop against the reversal counts *)

Local Notation turnStep recent :=
  (fun (acc : nat * nat) (i : nat) =>
     let (verticalReversals, horizontalReversals) := acc in
     let dy1 := FaceState.y (at_ recent i)
                - FaceState.y (at_ recent (i - 1)) in
     let dy2 := FaceState.y (at_ recent (i + 1))
                - FaceState.y (at_ recent i) in
     let verticalReversals :=
       if reverses dy1 dy2 then S verticalReversals
       else verticalReversals in
     let dx1 := FaceState.x (at_ recent i)
                - FaceState.x (at_ recent (i - 1)) in
     let dx2 := FaceState.x (at_ recent (i + 1))
                - FaceState.x (at_ recent i) in
     let horizontalReversals :=
       if reverses dx1 dx2 then S horizontalReversals
       else horizontalReversals in
     (verticalReversals, horizontalReversals)).

Lemma turns_shift a l n : forall s acc, (1 <= s)%nat ->
  fold_left (turnStep (a :: l)) (seq (S s) n) acc
  = fold_left (turnStep l) (seq s n) acc.
Proof.
  induction n as [|n IH]; intros s acc Hs; [reflexivity|].
  cbn [seq fold_left]. rewrite IH by lia. f_equal.
  destruct acc as [v h]. destruct (at_shift a l s Hs) as [E1 E2].
  cbv zeta. rewrite E1, E2.
  replace (S s + 1)%nat with (S (s + 1)) by lia.
  destruct (at_shift a l (s + 1) ltac:(lia)) as [-> _].
  reflexivity.
Qed.

Lemma verticalCount_cons a b c l :
  verticalCount (a :: b :: c :: l)
  = ((if opposite (FaceState.y b - FaceState.y a)
                  (FaceState.y c - FaceState.y b) then 1 else 0)
     + verticalCount (b :: c :: l))%nat.
Proof. reflexivity. Qed.

Lemma horizontalCount_cons a b c l :
  horizontalCount (a :: b :: c :: l)
  = ((if opposite (FaceState.x b - FaceState.x a)
                  (FaceState.x c - FaceState.x b) then 1 else 0)
     + horizontalCount (b :: c :: l))%nat.
Proof. reflexivity. Qed.

Lemma turns_count l : forall a b v h,
  fold_left (turnStep (a :: b :: l)) (seq 1 (length l)) (v, h)
  = ((v + verticalCount (a :: b :: l))%nat,
     (h + horizontalCount (a :: b :: l))%nat).
Proof.
  induction l as [|c l IH]; intros a b v h.
  - cbn. f_equal; lia.
  - cbn [length seq fold_left]. rewrite turns_shift by lia.
    cbv zeta. rewrite IH.
    rewrite verticalCount_cons, horizontalCount_cons.
    unfold at_. cbn [nth Nat.sub Nat.add].
    change reverses with opposite.
    destruct (opposite (FaceState.y b - FaceState.y a) _);
      destruct (opposite (FaceState.x b - FaceState.x a) _); f_equal; lia.
Qed.

Lemma reversalCount_le ds : (reversalCount ds <= length ds - 1)%nat.
Proof.
  induction ds as [|d1 [|d2 rest] IH]; cbn [reversalCount length] in *;
    try lia.
  destruct (opposite d1 d2); lia.
Qed.

Lemma steps_length l : length (steps l) = (length l - 1)%nat.
Proof.
  induction l as [|a [|b rest] IH]; cbn [steps length] in *; try lia.
Qed.

(** The guard of the second loop does not change what the two reversal
    tests find. *)
Lemma reversals_tests recent :
  (2 <=? verticalReversals recent)%nat = (2 <=? verticalCount recent)%nat /\
  (2 <=? horizontalReversals recent)%nat
  = (2 <=? horizontalCount recent)%nat.
Proof.
  unfold verticalReversals, horizontalReversals, reversals.
  destruct (4 <=? length recent)%nat eqn:E.
  - apply Nat.leb_le in E.
    destruct recent as [|a [|b l]]; cbn [length] in E; try lia.
    cbn [length]. replace (S (S (length l)) - 2)%nat with (length l) by lia.
    rewrite turns_count. cbn [fst snd]. split; reflexivity.
  - apply Nat.leb_gt in E. cbn [fst snd].
    pose proof (reversalCount_le (map snd (steps recent))) as Hv.
    pose proof (reversalCount_le (map fst (steps recent))) as Hh.
    rewrite length_map, steps_length in Hv, Hh.
    unfold verticalCount, horizontalCount.
    split; symmetry; apply Nat.leb_gt; lia.
Qed.

(** The nested conditionals of the source walk the rule list in order,
    with the sum of the displacement divided by the number of entries. *)
Lemma determineBodyLanguage_first_match metrics currentBox history baseline :
  (3 <= length history)%nat ->
  first_match (rulesPerEntry metrics currentBox history baseline)
  = Some (determineBodyLanguage metrics currentBox history baseline).
Proof.
  intros Hlen. unfold determineBodyLanguage.
  destruct (length history <? 3)%nat eqn:E;
    [apply Nat.ltb_lt in E; lia|clear E].
  cbv zeta. unfold rulesPerEntry, rules, first_match.
  rewrite <- slice_last_mostRecent, <- avgMove_perEntry.
  destruct (reversals_tests (slice_last 5 history)) as [<- <-].
  repeat match goal with
  | |- (if ?c then _ else _) = _ => destruct c; [reflexivity|]
  end.
  reflexivity.
Qed.

Lemma determineBodyLanguage_short metrics currentBox history baseline :
  (length history < 3)%nat ->
  determineBodyLanguage metrics currentBox history baseline = "Listening"%string.
Proof.
  intros H; unfold determineBodyLanguage.
  apply Nat.ltb_lt in H; rewrite H; reflexivity.
Qed.

(** Where the two averages decide the tests alike, the rules as written
    and the rules with the per-entry average are the same list. *)
Lemma rules_agree metrics currentBox history baseline :
  averagesAgree history ->
  rulesAsWritten metrics currentBox history baseline
  = rulesPerEntry metrics currentBox history baseline.
Proof.
  intros [H15 H2]. unfold rulesAsWritten, rulesPerEntry, rules.
  rewrite H15, H2. reflexivity.
Qed.

End ClassifierFacts.

(** C8. The classifier returns "Listening" whenever the history has
    fewer than three entries.  Otherwise its result is the label of the
    earliest-listed satisfied rule of the eight, the rules being those of
    the specification (window of the five most recent entries, reversal
    counts over consecutive triples) with [avgMove] read as the summed
    displacement divided by the number of window entries; on every input
    on which that value and the per-step average decide both [avgMove]
    tests alike, it is the label of the earliest-listed satisfied rule of
    the specification as worded. *)
Theorem C8_first_match_wins
    (metrics : Metrics.t) (currentBox : Box.t)
    (history : list FaceState.t) (baseline : Baseline.t) :
  ((length history < 3)%nat ->
   MeetingGuardian.determineBodyLanguage metrics currentBox history baseline
   = "Listening"%string) /\
  ((3 <= length history)%nat ->
   forall (i : nat) (label : string),
     ClassifierSpec.earliest
       (ClassifierSpec.rulesPerEntry metrics currentBox history baseline)
       i label ->
     MeetingGuardian.determineBodyLanguage metrics currentBox history baseline
     = label) /\
  ((3 <= length history)%nat -> ClassifierSpec.averagesAgree history ->
   forall (i : nat) (label : string),
     ClassifierSpec.earliest
       (ClassifierSpec.rulesAsWritten metrics currentBox history baseline)
       i label ->
     MeetingGuardian.determineBodyLanguage metrics currentBox history baseline
     = label).
Proof.
  assert (Hcoded : (3 <= length history)%nat ->
    forall i label,
      ClassifierSpec.earliest
        (ClassifierSpec.rulesPerEntry metrics currentBox history baseline)
        i label ->
      MeetingGuardian.determineBodyLanguage metrics currentBox history baseline
      = label).
  { intros Hlen i label He.
    apply ClassifierFacts.earliest_first_match in He.
    rewrite ClassifierFacts.determineBodyLanguage_first_match in He
      by exact Hlen.
    now injection He. }
  split; [apply ClassifierFacts.determineBodyLanguage_short|].
  split; [exact Hcoded|].
  intros Hlen Hagree i label He.
  rewrite (ClassifierFacts.rules_agree _ _ _ _ Hagree) in He.
  exact (Hcoded Hlen i label He).
Qed.

Module ClassifierEval.
Import MeetingGuardian ClassifierSpec ClassifierExamples.

Ltac abs_consts :=
  repeat match goal with
  | |- context [Rabs ?a] =>
      first [ rewrite (Rabs_pos_eq a) by lra
            | rewrite (Rabs_left a) by lra ]
  end.

Lemma nod_displacement : displacement (steps (mostRecent 5 nod)) = 40.
Proof.
  unfold mostRecent, nod.
  cbn [rev firstn app steps displacement fst snd FaceState.x FaceState.y].
  abs_consts. lra.
Qed.

Lemma nod_perEntry : perEntry (mostRecent 5 nod) = 8.
Proof.
  unfold perEntry. rewrite nod_displacement.
  unfold mostRecent, nod. cbn [rev firstn app length INR]. lra.
Qed.

Lemma nod_perStep : perStep (mostRecent 5 nod) = 10.
Proof.
  unfold perStep. rewrite nod_displacement.
  unfold mostRecent, nod. cbn [rev firstn app steps length INR]. lra.
Qed.

Lemma nod_verticalCount : verticalCount (mostRecent 5 nod) = 3%nat.
Proof.
  unfold verticalCount, mostRecent, nod.
  cbn [rev firstn app steps map fst snd reversalCount FaceState.x FaceState.y].
  unfold opposite, Js.gtb. UpdateFacts.js_cmp. reflexivity.
Qed.

(** The nodding face satisfies rules 4 and 7 and no earlier rule. *)
Lemma nod_rules :
  earliest (rulesPerEntry keen level nod resting) 3 "Nodding"%string /\
  nth_error (rulesPerEntry keen level nod resting) 6
  = Some (true, "Engaged"%string) /\
  averagesAgree nod.
Proof.
  unfold averagesAgree, rulesPerEntry, rules, earliest.
  rewrite nod_perEntry, nod_perStep, nod_verticalCount.
  unfold keen, level, resting, Js.gtb.
  cbn [Metrics.stress Metrics.attention Box.w Box.y Baseline.w Baseline.y].
  UpdateFacts.js_cmp. cbn [andb Nat.leb nth_error].
  split; [split; [reflexivity|]|split; [reflexivity|split; reflexivity]].
  intros j c l Hj Hn.
  destruct j as [|[|[|j]]]; cbn [nth_error] in Hn; try lia;
    now injection Hn as <- _.
Qed.

Lemma drift_displacement : displacement (steps (mostRecent 5 drift)) = 40.
Proof.
  unfold mostRecent, drift.
  cbn [rev firstn app steps displacement fst snd FaceState.x FaceState.y].
  abs_consts. lra.
Qed.

Lemma drift_perStep : perStep (mostRecent 5 drift) = 20.
Proof.
  unfold perStep. rewrite drift_displacement.
  unfold mostRecent, drift. cbn [rev firstn app steps length INR]. lra.
Qed.

Lemma drift_perEntry : perEntry (mostRecent 5 drift) = 40 / 3.
Proof.
  unfold perEntry. rewrite drift_displacement.
  unfold mostRecent, drift. cbn [rev firstn app length INR]. lra.
Qed.

Lemma drift_counts :
  verticalCount (mostRecent 5 drift) = 0%nat /\
  horizontalCount (mostRecent 5 drift) = 0%nat.
Proof.
  unfold verticalCount, horizontalCount, mostRecent, drift.
  cbn [rev firstn app steps map fst snd reversalCount FaceState.x FaceState.y].
  unfold opposite, Js.gtb. UpdateFacts.js_cmp. split; reflexivity.
Qed.

(** The drifting face satisfies rules 1 and 7 as the specification words
    them; with the per-entry average rule 7 is the earliest satisfied. *)
Lemma drift_rules :
  earliest (rulesAsWritten uneasy level drift resting) 0 "Fidgeting"%string /\
  nth_error (rulesAsWritten uneasy level drift resting) 6
  = Some (true, "Engaged"%string) /\
  first_match (rulesPerEntry uneasy level drift resting)
  = Some "Engaged"%string.
Proof.
  destruct drift_counts as [Hv Hh].
  unfold rulesAsWritten, rulesPerEntry, rules, earliest, first_match.
  rewrite drift_perEntry, drift_perStep, Hv, Hh.
  unfold uneasy, level, resting, Js.gtb.
  cbn [Metrics.stress Metrics.attention Box.w Box.y Baseline.w Baseline.y].
  UpdateFacts.js_cmp. cbn [andb Nat.leb nth_error].
  split; [split; [reflexivity|intros j c l Hj; lia]|].
  split; reflexivity.
Qed.

End ClassifierEval.

(** C8 (counterexample): a face drifting 20 pixels a step over three
    entries, attentive and under some stress, satisfies rule 1
    ("Fidgeting", per-step average 20 above 15) and rule 7 ("Engaged") of
    the specification at once; the classifier divides the same 40 pixels
    by the three entries, finds 13.3, and returns "Engaged", the label of
    the later rule. *)
Lemma C8_counterexample :
  ClassifierSpec.earliest
    (ClassifierSpec.rulesAsWritten ClassifierExamples.uneasy
       ClassifierExamples.level ClassifierExamples.drift
       ClassifierExamples.resting) 0 "Fidgeting"%string /\
  nth_error
    (ClassifierSpec.rulesAsWritten ClassifierExamples.uneasy
       ClassifierExamples.level ClassifierExamples.drift
       ClassifierExamples.resting) 6 = Some (true, "Engaged"%string) /\
  MeetingGuardian.determineBodyLanguage ClassifierExamples.uneasy
    ClassifierExamples.level ClassifierExamples.drift
    ClassifierExamples.resting = "Engaged"%string /\
  MeetingGuardian.determineBodyLanguage ClassifierExamples.uneasy
    ClassifierExamples.level ClassifierExamples.drift
    ClassifierExamples.resting <> "Fidgeting"%string.
Proof.
  destruct ClassifierEval.drift_rules as (H1 & H7 & Hf).
  rewrite ClassifierFacts.determineBodyLanguage_first_match in Hf
    by (cbn; lia).
  injection Hf as Hf.
  split; [exact H1|]. split; [exact H7|]. split; [exact Hf|].
  rewrite Hf. discriminate.
Qed.

(** C8 (witness): a nodding, attentive face satisfies rules 4 and 7 at
    once, on both readings of [avgMove], and is labelled by rule 4; an
    empty history is labelled "Listening". *)
Lemma C8_witness :
  nth_error
    (ClassifierSpec.rulesAsWritten ClassifierExamples.keen
       ClassifierExamples.level ClassifierExamples.nod
       ClassifierExamples.resting) 6 = Some (true, "Engaged"%string) /\
  MeetingGuardian.determineBodyLanguage ClassifierExamples.keen
    ClassifierExamples.level ClassifierExamples.nod
    ClassifierExamples.resting = "Nodding"%string /\
  MeetingGuardian.determineBodyLanguage ClassifierExamples.keen
    ClassifierExamples.level [] ClassifierExamples.resting
  = "Listening"%string.
Proof.
  destruct ClassifierEval.nod_rules as (He & H7 & Hagree).
  rewrite (ClassifierFacts.rules_agree _ _ _ _ Hagree).
  split; [exact H7|]. split.
  - apply (proj2 (proj2 (C8_first_match_wins ClassifierExamples.keen
                    ClassifierExamples.level ClassifierExamples.nod
                    ClassifierExamples.resting))) with (i := 3%nat).
    + cbn; lia.
    + exact Hagree.
    + rewrite (ClassifierFacts.rules_agree _ _ _ _ Hagree). exact He.
  - apply (proj1 (C8_first_match_wins ClassifierExamples.keen
                    ClassifierExamples.level []
                    ClassifierExamples.resting)).
    cbn; lia.
Defined.

(** C10. A history of exactly three entries gives a three-entry window,
    for which both reversal counts stay zero, so the classifier returns
    neither "Nodding" nor "Head Shaking". *)
Theorem C10_three_entries_no_reversals
    (metrics : Metrics.t) (currentBox : Box.t)
    (history : list FaceState.t) (baseline : Baseline.t) :
  length history = 3%nat ->
  length (MeetingGuardian.slice_last 5 history) = 3%nat /\
  MeetingGuardian.verticalReversals (MeetingGuardian.slice_last 5 history)
  = 0%nat /\
  MeetingGuardian.horizontalReversals (MeetingGuardian.slice_last 5 history)
  = 0%nat /\
  MeetingGuardian.determineBodyLanguage metrics currentBox history baseline
  <> "Nodding"%string /\
  MeetingGuardian.determineBodyLanguage metrics currentBox history baseline
  <> "Head Shaking"%string.
Proof.
  intros Hlen.
  assert (Hs : MeetingGuardian.slice_last 5 history = history)
    by (apply ClassifierFacts.slice_last_short; lia).
  assert (Hr : MeetingGuardian.reversals history = (0%nat, 0%nat))
    by (apply ClassifierFacts.reversals_short; lia).
  rewrite Hs.
  unfold MeetingGuardian.verticalReversals, MeetingGuardian.horizontalReversals.
  rewrite Hr. cbn [fst snd].
  split; [exact Hlen|]. split; [reflexivity|]. split; [reflexivity|].
  unfold MeetingGuardian.determineBodyLanguage.
  rewrite Hs, Hlen. cbn [Nat.ltb Nat.leb]. cbv zeta.
  unfold MeetingGuardian.verticalReversals, MeetingGuardian.horizontalReversals.
  rewrite Hr. cbn [fst snd Nat.leb andb].
  split;
    repeat match goal with
    | |- (if ?c then _ else _) <> _ => destruct c; [discriminate|]
    end; discriminate.
Qed.

(** C10 (witness): a three-entry history going down and back up in [y],
    a reversal by the test of the loop, still counts no reversal. *)
Lemma C10_witness :
  MeetingGuardian.reverses
    (FaceState.y (nth 1 ClassifierSpec.zigzag MeetingGuardian.noFace)
     - FaceState.y (nth 0 ClassifierSpec.zigzag MeetingGuardian.noFace))
    (FaceState.y (nth 2 ClassifierSpec.zigzag MeetingGuardian.noFace)
     - FaceState.y (nth 1 ClassifierSpec.zigzag MeetingGuardian.noFace))
  = true /\
  MeetingGuardian.verticalReversals
    (MeetingGuardian.slice_last 5 ClassifierSpec.zigzag) = 0%nat /\
  MeetingGuardian.determineBodyLanguage (Metrics.mk 90 10 50)
    (Box.mk 0 0 50 50) ClassifierSpec.zigzag (Baseline.mk 50 0)
  <> "Nodding"%string.
Proof.
  split.
  - unfold MeetingGuardian.reverses, Js.gtb, ClassifierSpec.zigzag.
    cbn [nth FaceState.y]. UpdateFacts.js_cmp. reflexivity.
  - pose proof (C10_three_entries_no_reversals (Metrics.mk 90 10 50)
                  (Box.mk 0 0 50 50) ClassifierSpec.zigzag (Baseline.mk 50 0)
                  eq_refl) as (_ & Hv & _ & Hn & _).
    split; [exact Hv|exact Hn].
Defined.

(** ** The tracker: list plumbing *)

Module ListFacts.

Lemma Forall2_In_l {A B} (P : A -> B -> Prop) l l' a :
  Forall2 P l l' -> In a l -> exists b, In b l' /\ P a b.
Proof.
  induction 1 as [|x y l l' Hxy _ IH]; intros Hin; [contradiction|].
  destruct Hin as [<-|Hin].
  - exists y; split; [now left|assumption].
  - destruct (IH Hin) as (b & Hb & Hab). exists b; split; [now right|assumption].
Qed.

Lemma Forall2_In_r {A B} (P : A -> B -> Prop) l l' b :
  Forall2 P l l' -> In b l' -> exists a, In a l /\ P a b.
Proof.
  induction 1 as [|x y l l' Hxy _ IH]; intros Hin; [contradiction|].
  destruct Hin as [<-|Hin].
  - exists x; split; [now left|assumption].
  - destruct (IH Hin) as (a & Ha & Hab). exists a; split; [now right|assumption].
Qed.

Lemma Forall2_refl {A} (P : A -> A -> Prop) l :
  (forall a, P a a) -> Forall2 P l l.
Proof. intros H; induction l; constructor; auto. Qed.

Lemma Forall2_weaken {A B} (P Q : A -> B -> Prop) l l' :
  (forall a b, P a b -> Q a b) -> Forall2 P l l' -> Forall2 Q l l'.
Proof. intros H; induction 1; constructor; auto. Qed.

Lemma Forall2_compose {A B C} (P : A -> B -> Prop) (Q : B -> C -> Prop)
    (S : A -> C -> Prop) l1 l2 l3 :
  (forall a b c, P a b -> Q b c -> S a c) ->
  Forall2 P l1 l2 -> Forall2 Q l2 l3 -> Forall2 S l1 l3.
Proof.
  intros H H12; revert l3.
  induction H12 as [|a b l1 l2 Hab _ IH]; intros l3 H23;
    inversion H23; subst; constructor; eauto.
Qed.

Lemma Forall2_with_In_r {A B} (P : A -> B -> Prop) l l' :
  Forall2 P l l' -> Forall2 (fun a b => P a b /\ In b l') l l'.
Proof.
  induction 1 as [|a b l l' Hab _ IH]; constructor.
  - split; [exact Hab|now left].
  - eapply Forall2_weaken; [|exact IH].
    intros x y [Hxy Hy]. split; [exact Hxy|now right].
Qed.

Lemma combine_seq_nth {A} (l : list A) : forall s i t,
  In (i, t) (combine (seq s (length l)) l) ->
  (s <= i)%nat /\ nth_error l (i - s) = Some t.
Proof.
  induction l as [|a l IH]; intros s i t Hin; simpl in Hin; [contradiction|].
  destruct Hin as [Heq|Hin].
  - injection Heq as <- <-. split; [lia|]. now rewrite Nat.sub_diag.
  - destruct (IH (S s) i t Hin) as [Hle Hnth]. split; [lia|].
    replace (i - s)%nat with (S (i - S s)) by lia. exact Hnth.
Qed.

End ListFacts.

Module MatchFacts.
Import MeetingGuardian TrackerSpec ListFacts.

(** The inner loop ends on the index of one of the tracks it visited, or
    where it started. *)
Lemma considerTrack_fold d l : forall acc,
  fst (fold_left (considerTrack d) l acc) = fst acc \/
  exists i t, In (i, t) l /\ fst (fold_left (considerTrack d) l acc) = Some i.
Proof.
  induction l as [|[i t] l IH]; intros acc; simpl; [now left|].
  destruct (IH (considerTrack d acc (i, t))) as [Heq|(j & u & Hin & Heq)].
  - rewrite Heq. unfold considerTrack. destruct acc as [best minDist].
    destruct (Js.ltb _ minDist); simpl.
    + right. exists i, t. split; [now left|reflexivity].
    + now left.
  - right. exists j, u. split; [now right|exact Heq].
Qed.

Lemma findBestMatch_index tracks d i :
  findBestMatch tracks d = Some i -> exists t, nth_error tracks i = Some t.
Proof.
  unfold findBestMatch; intros H.
  destruct (considerTrack_fold d (combine (seq 0 (length tracks)) tracks)
              (None, MATCH_DISTANCE_THRESHOLD)) as [Heq|(j & t & Hin & Heq)].
  - rewrite H in Heq; discriminate.
  - rewrite H in Heq; injection Heq as ->.
    apply combine_seq_nth in Hin. destruct Hin as [_ Hnth].
    rewrite Nat.sub_0_r in Hnth. now exists t.
Qed.

Lemma setAt_Forall2 (P : TrackedFace.t -> TrackedFace.t -> Prop) :
  (forall a, P a a) ->
  forall l i t t',
    nth_error l i = Some t -> P t t' -> Forall2 P l (setAt l i t').
Proof.
  intros Hrefl l; induction l as [|a l IH]; intros i t t' Hnth Ht.
  - destruct i; discriminate.
  - destruct i as [|i]; simpl in *.
    + injection Hnth as ->. constructor; [assumption|now apply Forall2_refl].
    + constructor; [apply Hrefl|eapply IH; eauto].
Qed.

Lemma setAt_In l : forall i t t',
  nth_error l i = Some t -> In t' (setAt l i t').
Proof.
  induction l as [|a l IH]; intros i t t' Hnth.
  - destruct i; discriminate.
  - destruct i as [|i]; simpl in *; [now left|right; eauto].
Qed.

Lemma setAt_Forall (P : TrackedFace.t -> Prop) l : forall i t',
  Forall P l -> P t' -> Forall P (setAt l i t').
Proof.
  induction l as [|a l IH]; intros i t' Hl Ht; [constructor|].
  inversion Hl; subst. destruct i; simpl; constructor; auto.
Qed.

Lemma evolves_refl L t : evolves L t t.
Proof. now left. Qed.

Lemma evolves_trans L1 L2 a b c :
  evolves L1 a b -> evolves L2 b c -> evolves (L1 ++ L2) a c.
Proof.
  intros [->|(Hid & Hm & Hin)] [->|(Hid' & Hm' & Hin')].
  - now left.
  - right. repeat split; auto. apply in_or_app; now right.
  - right. repeat split; auto. apply in_or_app; now left.
  - right. rewrite Hid', Hid. repeat split; auto. apply in_or_app; now left.
Qed.

Lemma evolves_ids L l l' : Forall2 (evolves L) l l' -> ids l' = ids l.
Proof.
  induction 1 as [|a b l l' Hab _ IH]; [reflexivity|].
  unfold ids in *; simpl. rewrite IH. f_equal.
  destruct Hab as [->|(H & _)]; auto.
Qed.

Lemma evolves_zero L t t' :
  evolves L t t' -> TrackedFace.missingFrames t = 0%nat ->
  TrackedFace.id t' = TrackedFace.id t /\
  TrackedFace.missingFrames t' = 0%nat.
Proof. intros [->|(H1 & H2 & _)] H0; auto. Qed.

End MatchFacts.

Module MatchLoop.
Import MeetingGuardian TrackerSpec ListFacts MatchFacts.

(** One turn of the matching loop. *)
Lemma matchOne_spec now tracks visited d :
  exists o,
    snd (matchOne now (tracks, visited) d) = visited ++ [o] /\
    visitedFrom (ids tracks) d o /\
    Forall2 (evolves [DetectedObject.trackId o]) tracks
            (fst (matchOne now (tracks, visited) d)) /\
    (forall i, fresh d -> DetectedObject.trackId o = Some i ->
       exists t', In t' (fst (matchOne now (tracks, visited) d)) /\
                  TrackedFace.id t' = i /\
                  TrackedFace.missingFrames t' = 0%nat).
Proof.
  unfold matchOne.
  destruct (findBestMatch tracks d) as [best|] eqn:Eb.
  - destruct (findBestMatch_index _ _ _ Eb) as [t Ht]. rewrite Ht.
    exists (linkTo d (TrackedFace.id t)). cbn [fst snd].
    split; [reflexivity|]. split; [|split].
    + right. exists (TrackedFace.id t). split; [|reflexivity].
      apply nth_error_In in Ht. unfold ids. now apply in_map.
    + eapply setAt_Forall2; [apply evolves_refl|exact Ht|].
      right. cbn. repeat split; now left.
    + intros i _ Hi. cbn in Hi. injection Hi as <-.
      exists (updateTrack now t d). split; [|split; reflexivity].
      eapply setAt_In; exact Ht.
  - exists d. cbn [fst snd]. split; [reflexivity|]. split; [now left|]. split.
    + apply Forall2_refl, evolves_refl.
    + intros i [_ Hnone] Hi. rewrite Hnone in Hi; discriminate.
Qed.

(** The whole matching loop, from any point of its progress. *)
Lemma matchLoop_spec now ds : forall tracks visited,
  Forall fresh ds ->
  exists os,
    snd (fold_left (matchOne now) ds (tracks, visited)) = visited ++ os /\
    Forall2 (visitedFrom (ids tracks)) ds os /\
    Forall2 (evolves (trackIds os)) tracks
            (fst (fold_left (matchOne now) ds (tracks, visited))) /\
    (forall o i, In o os -> DetectedObject.trackId o = Some i ->
       exists t', In t' (fst (fold_left (matchOne now) ds (tracks, visited))) /\
                  TrackedFace.id t' = i /\
                  TrackedFace.missingFrames t' = 0%nat).
Proof.
  induction ds as [|d ds IH]; intros tracks visited Hfresh.
  - exists []. simpl. rewrite app_nil_r. repeat split.
    + constructor.
    + apply Forall2_refl, evolves_refl.
    + contradiction.
  - inversion Hfresh as [|? ? Hd Hds]; subst.
    destruct (matchOne_spec now tracks visited d) as (o & Hv & Hfrom & Hev & Hlink).
    cbn [fold_left].
    destruct (matchOne now (tracks, visited) d) as [tracks1 visited1] eqn:E1.
    cbn [fst snd] in Hv, Hev, Hlink. subst visited1.
    destruct (IH tracks1 (visited ++ [o]) Hds) as (os & Hv' & Hfrom' & Hev' & Hlink').
    exists (o :: os). split; [|split; [|split]].
    + rewrite Hv', <- app_assoc. reflexivity.
    + constructor; [exact Hfrom|].
      rewrite (evolves_ids _ _ _ Hev) in Hfrom'. exact Hfrom'.
    + eapply Forall2_compose; [|exact Hev|exact Hev'].
      intros a b c Hab Hbc.
      change (trackIds (o :: os)) with ([DetectedObject.trackId o] ++ trackIds os).
      eapply evolves_trans; eauto.
    + intros o' i [<-|Hin] Hi.
      * destruct (Hlink i Hd Hi) as (t1 & Hin1 & Hid1 & Hm1).
        destruct (Forall2_In_l _ _ _ _ Hev' Hin1) as (t' & Hin' & Hev1).
        destruct (evolves_zero _ _ _ Hev1 Hm1) as [Hid' Hm'].
        exists t'. repeat split; [exact Hin'|congruence|exact Hm'].
      * exact (Hlink' o' i Hin Hi).
Qed.

Lemma toDetectedObject_fresh d : fresh (toDetectedObject d).
Proof. split; reflexivity. Qed.

Lemma detectedObjectsOf_fresh dets : Forall fresh (detectedObjectsOf dets).
Proof.
  unfold detectedObjectsOf. apply Forall_forall. intros o Ho.
  apply in_map_iff in Ho. destruct Ho as (d & <- & _).
  apply toDetectedObject_fresh.
Qed.

Lemma ids_age tracks : ids (map age tracks) = ids tracks.
Proof. unfold ids. rewrite map_map. reflexivity. Qed.

(** The matching stage of a frame. *)
Lemma afterMatching_spec refs now dets :
  Forall2 (visitedFrom (ids (trackedFacesRef refs)))
          (detectedObjectsOf dets) (snd (afterMatching refs now dets)) /\
  Forall2 (evolves (trackIds (snd (afterMatching refs now dets))))
          (map age (trackedFacesRef refs)) (fst (afterMatching refs now dets)) /\
  (forall o i, In o (snd (afterMatching refs now dets)) ->
     DetectedObject.trackId o = Some i ->
     exists t', In t' (fst (afterMatching refs now dets)) /\
                TrackedFace.id t' = i /\ TrackedFace.missingFrames t' = 0%nat).
Proof.
  unfold afterMatching, matchAll.
  destruct (matchLoop_spec now (detectedObjectsOf dets)
              (map age (trackedFacesRef refs)) []
              (detectedObjectsOf_fresh dets)) as (os & Hv & Hfrom & Hev & Hlink).
  simpl in Hv. rewrite Hv. rewrite ids_age in Hfrom.
  repeat split; assumption.
Qed.

End MatchLoop.

Module CreateLoop.
Import MeetingGuardian TrackerSpec ListFacts MatchFacts MatchLoop.

Lemma zseq_In k : forall n i,
  In i (zseq n k) <-> (n <= i < n + Z.of_nat k)%Z.
Proof.
  induction k as [|k IH]; intros n i; simpl zseq.
  - simpl. lia.
  - simpl In. rewrite IH. lia.
Qed.

Lemma zseq_NoDup k : forall n, NoDup (zseq n k).
Proof.
  induction k as [|k IH]; intros n; simpl; constructor.
  - rewrite zseq_In. lia.
  - apply IH.
Qed.

(** The creation loop in closed form. *)
Lemma createLoop_eq now ds : forall refs visited,
  fold_left (createOne now) ds (refs, visited)
  = ({| trackedFacesRef :=
          trackedFacesRef refs ++ created now (nextPersonIdRef refs) ds;
        nextPersonIdRef :=
          (nextPersonIdRef refs
           + Z.of_nat (length (created now (nextPersonIdRef refs) ds)))%Z |},
     visited ++ tagged (nextPersonIdRef refs) ds).
Proof.
  induction ds as [|d ds IH]; intros refs visited.
  - simpl. rewrite !app_nil_r, Z.add_0_r. destruct refs; reflexivity.
  - cbn [fold_left created tagged]. unfold createOne at 2.
    destruct (negb (DetectedObject.matched d)).
    + rewrite IH. cbn [trackedFacesRef nextPersonIdRef length].
      rewrite <- !app_assoc. cbn [app]. do 2 f_equal. lia.
    + rewrite IH. rewrite <- app_assoc. reflexivity.
Qed.

Lemma created_ids now ds : forall n,
  ids (created now n ds) = zseq n (length (created now n ds)).
Proof.
  induction ds as [|d ds IH]; intros n; [reflexivity|].
  cbn [created]. destruct (negb (DetectedObject.matched d)).
  - unfold ids in *. cbn. now rewrite IH.
  - apply IH.
Qed.

Lemma created_missing now ds : forall n t,
  In t (created now n ds) -> TrackedFace.missingFrames t = 0%nat.
Proof.
  induction ds as [|d ds IH]; intros n t Hin; [contradiction|].
  cbn [created] in Hin. destruct (negb (DetectedObject.matched d)).
  - destruct Hin as [<-|Hin]; [reflexivity|eauto].
  - eauto.
Qed.

(** After the creation loop every detection has a track: the one it was
    matched to, or the one created for it. *)
Lemma tagged_linked now ds : forall n,
  Forall2 (fun d o =>
             DetectedObject.box o = DetectedObject.box d /\
             ((DetectedObject.matched d = true /\ o = d) \/
              (DetectedObject.matched d = false /\
               exists t, In t (created now n ds) /\
                         DetectedObject.trackId o = Some (TrackedFace.id t))))
          ds (tagged n ds).
Proof.
  induction ds as [|d ds IH]; intros n; [constructor|].
  cbn [tagged created]. destruct (DetectedObject.matched d) eqn:Em; cbn [negb].
  - constructor; [split; [reflexivity|left; split; [exact Em|reflexivity]]|apply IH].
  - constructor.
    + split; [reflexivity|]. right. split; [exact Em|].
      exists (newTrack now n d). split; [now left|reflexivity].
    + eapply Forall2_weaken; [|apply (IH (n + 1)%Z)].
      intros a b [Hbox [H|(Hm & t & Hin & Ht)]]; (split; [exact Hbox|]).
      * now left.
      * right. split; [exact Hm|]. exists t. split; [now right|exact Ht].
Qed.

End CreateLoop.

(** ** The tracker: one frame *)

Module FrameFacts.
Import MeetingGuardian TrackerSpec ListFacts MatchFacts MatchLoop CreateLoop.

Lemma afterCreation_eq refs now dets :
  afterCreation refs now dets
  = ({| trackedFacesRef :=
          fst (afterMatching refs now dets)
          ++ created now (nextPersonIdRef refs) (snd (afterMatching refs now dets));
        nextPersonIdRef :=
          (nextPersonIdRef refs
           + Z.of_nat (length (created now (nextPersonIdRef refs)
                                 (snd (afterMatching refs now dets)))))%Z |},
     tagged (nextPersonIdRef refs) (snd (afterMatching refs now dets))).
Proof.
  unfold afterCreation.
  destruct (afterMatching refs now dets) as [tracks objects].
  unfold createAll. rewrite createLoop_eq. reflexivity.
Qed.

Lemma analyzeFrame_refs refs now dets :
  fst (analyzeFrame refs now dets)
  = {| trackedFacesRef := prune (trackedFacesRef (fst (afterCreation refs now dets)));
       nextPersonIdRef := nextPersonIdRef (fst (afterCreation refs now dets)) |}.
Proof.
  unfold analyzeFrame. destruct (afterCreation refs now dets); reflexivity.
Qed.

Lemma analyzeFrame_emitted refs now dets :
  snd (analyzeFrame refs now dets)
  = map toParticipant (trackedFacesRef (fst (analyzeFrame refs now dets))).
Proof.
  unfold analyzeFrame. destruct (afterCreation refs now dets); reflexivity.
Qed.

Lemma prune_In t tracks :
  In t (prune tracks) <->
  In t tracks /\ (TrackedFace.missingFrames t <= MAX_MISSING_FRAMES)%nat.
Proof.
  unfold prune. rewrite filter_In, Nat.leb_le. reflexivity.
Qed.

Lemma ids_prune_In i tracks : In i (ids (prune tracks)) -> In i (ids tracks).
Proof.
  unfold ids. rewrite !in_map_iff. intros (t & Ht & Hin).
  apply prune_In in Hin. exists t; tauto.
Qed.

Lemma ids_prune_NoDup tracks : NoDup (ids tracks) -> NoDup (ids (prune tracks)).
Proof.
  unfold ids, prune. induction tracks as [|t tracks IH]; intros H; [constructor|].
  inversion H as [|? ? Hnotin Hnd]; subst. cbn [filter].
  destruct (TrackedFace.missingFrames t <=? MAX_MISSING_FRAMES)%nat.
  - cbn [map]. constructor; [|auto].
    intros Hin. apply Hnotin. now apply ids_prune_In in Hin.
  - auto.
Qed.

(** Identities before pruning: the old ones, then consecutive new ones. *)
Lemma afterCreation_ids refs now dets :
  ids (trackedFacesRef (fst (afterCreation refs now dets)))
  = ids (trackedFacesRef refs)
    ++ zseq (nextPersonIdRef refs)
            (length (created now (nextPersonIdRef refs)
                       (snd (afterMatching refs now dets)))) /\
  nextPersonIdRef (fst (afterCreation refs now dets))
  = (nextPersonIdRef refs
     + Z.of_nat (length (created now (nextPersonIdRef refs)
                           (snd (afterMatching refs now dets)))))%Z.
Proof.
  rewrite afterCreation_eq. cbn [fst trackedFacesRef nextPersonIdRef].
  split; [|reflexivity].
  destruct (afterMatching_spec refs now dets) as (_ & Hev & _).
  unfold ids at 1. rewrite map_app. fold (ids (fst (afterMatching refs now dets))).
  rewrite (evolves_ids _ _ _ Hev), ids_age. f_equal. apply created_ids.
Qed.

Lemma frame_ids refs now dets i :
  In i (ids (trackedFacesRef (fst (analyzeFrame refs now dets)))) ->
  In i (ids (trackedFacesRef refs)) \/
  (nextPersonIdRef refs <= i
   < nextPersonIdRef (fst (analyzeFrame refs now dets)))%Z.
Proof.
  rewrite analyzeFrame_refs. cbn [trackedFacesRef nextPersonIdRef].
  intros Hin. apply ids_prune_In in Hin.
  destruct (afterCreation_ids refs now dets) as [Hids Hn].
  rewrite Hids in Hin. rewrite Hn. apply in_app_or in Hin.
  destruct Hin as [Hin|Hin]; [now left|right]. now apply zseq_In in Hin.
Qed.

Lemma frame_counter refs now dets :
  (nextPersonIdRef refs <= nextPersonIdRef (fst (analyzeFrame refs now dets)))%Z.
Proof.
  rewrite analyzeFrame_refs. cbn [nextPersonIdRef].
  destruct (afterCreation_ids refs now dets) as [_ ->]. lia.
Qed.

Lemma wf_frame refs now dets :
  wf refs -> wf (fst (analyzeFrame refs now dets)).
Proof.
  intros (Hpos & Hnd & Hlt).
  pose proof (frame_counter refs now dets) as Hc.
  split; [lia|]. split.
  - rewrite analyzeFrame_refs. cbn [trackedFacesRef].
    apply ids_prune_NoDup.
    destruct (afterCreation_ids refs now dets) as [-> _].
    apply NoDup_app; [exact Hnd|apply zseq_NoDup|].
    intros a Ha Hz. apply zseq_In in Hz. specialize (Hlt a Ha). lia.
  - intros i Hi.
    destruct (frame_ids _ _ _ _ Hi) as [Hold|Hnew].
    + specialize (Hlt i Hold). lia.
    + lia.
Qed.

Lemma wf_step refs e : wf refs -> wf (step refs e).
Proof.
  destruct e as [now dets|]; intros H.
  - now apply wf_frame.
  - destruct H as (Hpos & _). split; [exact Hpos|].
    split; [constructor|intros i []].
Qed.

Lemma wf_steps es : forall refs, wf refs -> wf (fold_left step es refs).
Proof.
  induction es as [|e es IH]; intros refs H; [exact H|].
  apply IH, wf_step, H.
Qed.

Lemma wf_session es : wf (session es).
Proof.
  apply wf_steps. split; [simpl; lia|]. split; [constructor|intros i []].
Qed.

Lemma step_counter refs e :
  (nextPersonIdRef refs <= nextPersonIdRef (step refs e))%Z.
Proof.
  destruct e as [now dets|]; [apply frame_counter|simpl; lia].
Qed.

Lemma steps_counter es : forall refs,
  (nextPersonIdRef refs <= nextPersonIdRef (fold_left step es refs))%Z.
Proof.
  induction es as [|e es IH]; intros refs; [simpl; lia|].
  cbn [fold_left]. pose proof (step_counter refs e). specialize (IH (step refs e)).
  lia.
Qed.

Lemma step_ids refs e i :
  In i (ids (trackedFacesRef (step refs e))) ->
  In i (ids (trackedFacesRef refs)) \/
  (nextPersonIdRef refs <= i < nextPersonIdRef (step refs e))%Z.
Proof.
  destruct e as [now dets|]; [apply frame_ids|intros []].
Qed.

(** An identity already handed out and not live stays away for good. *)
Lemma absent_forever es : forall refs i,
  (i < nextPersonIdRef refs)%Z ->
  ~ In i (ids (trackedFacesRef refs)) ->
  ~ In i (ids (trackedFacesRef (fold_left step es refs))).
Proof.
  induction es as [|e es IH]; intros refs i Hlt Hout; [exact Hout|].
  cbn [fold_left]. apply IH.
  - pose proof (step_counter refs e). lia.
  - intros Hin. destruct (step_ids _ _ _ Hin) as [Hold|Hnew]; [tauto|lia].
Qed.

End FrameFacts.

(** C6. Throughout a session, stops included, the live tracks carry
    pairwise distinct identities, all of them at least 1 and below the
    counter; a frame gives the tracks it creates the consecutive
    identities starting at the counter, in creation order, and moves the
    counter past them; the counter never goes down; and an identity handed
    out earlier that is no longer live is never live again. *)
Theorem C6_identities_unique_and_increasing (events : list MeetingGuardian.event) :
  let refs := MeetingGuardian.session events in
  NoDup (TrackerSpec.ids (MeetingGuardian.trackedFacesRef refs)) /\
  (forall i, In i (TrackerSpec.ids (MeetingGuardian.trackedFacesRef refs)) ->
             (1 <= i < MeetingGuardian.nextPersonIdRef refs)%Z) /\
  (forall now dets,
     exists k : nat,
       TrackerSpec.ids
         (MeetingGuardian.trackedFacesRef
            (fst (MeetingGuardian.afterCreation refs now dets)))
       = TrackerSpec.ids (MeetingGuardian.trackedFacesRef refs)
         ++ TrackerSpec.zseq (MeetingGuardian.nextPersonIdRef refs) k /\
       MeetingGuardian.nextPersonIdRef
         (fst (MeetingGuardian.analyzeFrame refs now dets))
       = (MeetingGuardian.nextPersonIdRef refs + Z.of_nat k)%Z) /\
  (forall later,
     (MeetingGuardian.nextPersonIdRef refs
      <= MeetingGuardian.nextPersonIdRef
           (fold_left MeetingGuardian.step later refs))%Z) /\
  (forall later i,
     (i < MeetingGuardian.nextPersonIdRef refs)%Z ->
     ~ In i (TrackerSpec.ids (MeetingGuardian.trackedFacesRef refs)) ->
     ~ In i (TrackerSpec.ids
               (MeetingGuardian.trackedFacesRef
                  (fold_left MeetingGuardian.step later refs)))).
Proof.
  intros refs.
  destruct (FrameFacts.wf_session events) as (_ & Hnd & Hlt).
  split; [exact Hnd|]. split; [exact Hlt|]. split; [|split].
  - intros now dets.
    destruct (FrameFacts.afterCreation_ids refs now dets) as [Hids Hn].
    eexists. split; [exact Hids|].
    rewrite FrameFacts.analyzeFrame_refs. exact Hn.
  - intros later. apply FrameFacts.steps_counter.
  - intros later i. apply FrameFacts.absent_forever.
Qed.

(** ** Retirement *)

Module RetireFacts.
Import MeetingGuardian TrackerSpec ListFacts MatchFacts MatchLoop CreateLoop
  FrameFacts.

(** A track that no detection of the frame is matched to ages by one. *)
Lemma frame_unlinked refs now dets i :
  (i < nextPersonIdRef refs)%Z ->
  ~ In (Some i) (trackIds (snd (afterMatching refs now dets))) ->
  forall t', In t' (trackedFacesRef (fst (analyzeFrame refs now dets))) ->
    TrackedFace.id t' = i ->
    exists t, In t (trackedFacesRef refs) /\ TrackedFace.id t = i /\
              TrackedFace.missingFrames t' = S (TrackedFace.missingFrames t).
Proof.
  intros Hlt Hun t' Hin Hid.
  rewrite analyzeFrame_refs in Hin. cbn [trackedFacesRef] in Hin.
  apply prune_In in Hin. destruct Hin as [Hin _].
  rewrite afterCreation_eq in Hin. cbn [fst trackedFacesRef] in Hin.
  apply in_app_or in Hin. destruct Hin as [Hin|Hin].
  - destruct (afterMatching_spec refs now dets) as (_ & Hev & _).
    destruct (Forall2_In_r _ _ _ _ Hev Hin) as (a & Ha & Hat).
    apply in_map_iff in Ha. destruct Ha as (t & <- & Ht).
    destruct Hat as [->|(Hid' & _ & Hlinked)].
    + exists t. repeat split; [exact Ht|exact Hid].
    + exfalso. apply Hun. rewrite <- Hid, Hid'. exact Hlinked.
  - exfalso.
    assert (Hz : In (TrackedFace.id t')
                   (ids (created now (nextPersonIdRef refs)
                           (snd (afterMatching refs now dets)))))
      by (unfold ids; now apply in_map).
    rewrite created_ids in Hz. apply zseq_In in Hz. lia.
Qed.

Lemma frames_unlinked i fs : forall refs m,
  (i < nextPersonIdRef refs)%Z ->
  (forall t, In t (trackedFacesRef refs) -> TrackedFace.id t = i ->
             (m <= TrackedFace.missingFrames t)%nat) ->
  unmatchedIn i refs fs ->
  forall t', In t' (trackedFacesRef (frames refs fs)) ->
    TrackedFace.id t' = i ->
    (m + length fs <= TrackedFace.missingFrames t')%nat.
Proof.
  induction fs as [|[now dets] fs IH]; intros refs m Hlt Hm Hun t' Hin Hid.
  - simpl in *. specialize (Hm t' Hin Hid). lia.
  - destruct Hun as [Hun Hrest]. cbn [fst snd] in Hun, Hrest.
    unfold frames in *. cbn [fold_left fst snd] in Hin.
    specialize (IH (fst (analyzeFrame refs now dets)) (S m)).
    cbn [length]. replace (m + S (length fs))%nat with (S m + length fs)%nat by lia.
    apply IH; try assumption.
    + pose proof (frame_counter refs now dets). lia.
    + intros t Ht Hidt.
      destruct (frame_unlinked refs now dets i Hlt Hun t Ht Hidt)
        as (t0 & Ht0 & Hid0 & ->).
      specialize (Hm t0 Ht0 Hid0). lia.
Qed.

Lemma frame_pruned refs now dets t :
  In t (trackedFacesRef (fst (analyzeFrame refs now dets))) ->
  (TrackedFace.missingFrames t <= MAX_MISSING_FRAMES)%nat.
Proof.
  rewrite analyzeFrame_refs. cbn [trackedFacesRef]. intros H.
  now apply prune_In in H.
Qed.

Lemma frames_steps fs : forall refs,
  frames refs fs
  = fold_left step (map (fun f => Frame (fst f) (snd f)) fs) refs.
Proof.
  induction fs as [|f fs IH]; intros refs; [reflexivity|].
  unfold frames in *. cbn [fold_left map step]. apply IH.
Qed.

Lemma frames_app refs fs gs :
  frames refs (fs ++ gs) = frames (frames refs fs) gs.
Proof. unfold frames. apply fold_left_app. Qed.

Lemma personId_inj a b : personId a = personId b -> a = b.
Proof.
  unfold personId. intros H. cbn in H.
  injection H as H.
  assert (Hnn : forall z, Z.to_int z <> Decimal.Pos Decimal.Nil /\
                          Z.to_int z <> Decimal.Neg Decimal.Nil).
  { intros [|p|p]; simpl; split; try discriminate;
      intros [= Hp]; now apply DecimalPos.Unsigned.to_uint_nonnil in Hp. }
  apply (f_equal NilZero.int_of_string) in H.
  rewrite !NilZero.isi in H by apply Hnn.
  injection H as H. now apply DecimalZ.to_int_inj.
Qed.

Lemma emitted_ids refs now dets :
  map ParticipantAnalysis.id (emitted refs now dets)
  = map personId (ids (trackedFacesRef (fst (analyzeFrame refs now dets)))).
Proof.
  unfold emitted. rewrite analyzeFrame_emitted. unfold ids.
  rewrite !map_map. reflexivity.
Qed.

Lemma emitted_absent refs now dets i :
  ~ In i (ids (trackedFacesRef (fst (analyzeFrame refs now dets)))) ->
  ~ In (personId i) (map ParticipantAnalysis.id (emitted refs now dets)).
Proof.
  intros Hout Hin. apply Hout. rewrite emitted_ids in Hin.
  apply in_map_iff in Hin. destruct Hin as (j & Hj & Hin).
  apply personId_inj in Hj. now subst.
Qed.

End RetireFacts.

(** C5. Take a live track and a run of MAX_MISSING_FRAMES + 1 frames in
    none of which a detection is matched to it.  The tracks that the last
    of these frames keeps all have a missing-counter of at most
    MAX_MISSING_FRAMES, the snapshot list that frame emits does not name
    the track, and neither does the snapshot list of any later frame,
    whatever happens in between. *)
Theorem C5_stale_track_retired
    (events : list MeetingGuardian.event) (i : Z)
    (front : list (Z * list FaceDetection.t))
    (now : Z) (dets : list FaceDetection.t) :
  let refs := MeetingGuardian.session events in
  let fs := front ++ [(now, dets)] in
  In i (TrackerSpec.ids (MeetingGuardian.trackedFacesRef refs)) ->
  length fs = S MeetingGuardian.MAX_MISSING_FRAMES ->
  TrackerSpec.unmatchedIn i refs fs ->
  (forall t,
     In t (MeetingGuardian.trackedFacesRef
             (fst (MeetingGuardian.analyzeFrame
                     (TrackerSpec.frames refs front) now dets))) ->
     (TrackedFace.missingFrames t <= MeetingGuardian.MAX_MISSING_FRAMES)%nat) /\
  ~ In (MeetingGuardian.personId i)
       (map ParticipantAnalysis.id
          (MeetingGuardian.emitted (TrackerSpec.frames refs front) now dets)) /\
  (forall later now' dets',
     ~ In (MeetingGuardian.personId i)
          (map ParticipantAnalysis.id
             (MeetingGuardian.emitted
                (fold_left MeetingGuardian.step later
                   (TrackerSpec.frames refs fs)) now' dets'))).
Proof.
  intros refs fs Hlive Hlen Hun.
  assert (Hbelow : (i < MeetingGuardian.nextPersonIdRef refs)%Z).
  { destruct (FrameFacts.wf_session events) as (_ & _ & Hlt).
    specialize (Hlt i Hlive). fold refs in Hlt. lia. }
  assert (Hlast : TrackerSpec.frames refs fs
                  = fst (MeetingGuardian.analyzeFrame
                           (TrackerSpec.frames refs front) now dets)).
  { unfold fs. rewrite RetireFacts.frames_app. reflexivity. }
  assert (Hgone : ~ In i (TrackerSpec.ids
                            (MeetingGuardian.trackedFacesRef
                               (TrackerSpec.frames refs fs)))).
  { intros Hin. apply in_map_iff in Hin. destruct Hin as (t' & Hid & Hin).
    pose proof (RetireFacts.frames_unlinked i fs refs 0 Hbelow
                  (fun t _ _ => Nat.le_0_l _) Hun t' Hin Hid) as Hold.
    rewrite Hlast in Hin. apply RetireFacts.frame_pruned in Hin.
    rewrite Hlen in Hold. unfold MeetingGuardian.MAX_MISSING_FRAMES in *. lia. }
  split; [|split].
  - intros t. apply RetireFacts.frame_pruned.
  - apply RetireFacts.emitted_absent. rewrite <- Hlast. exact Hgone.
  - intros later now' dets'. apply RetireFacts.emitted_absent.
    change (fst (MeetingGuardian.analyzeFrame
                   (fold_left MeetingGuardian.step later
                      (TrackerSpec.frames refs fs)) now' dets'))
      with (MeetingGuardian.step
              (fold_left MeetingGuardian.step later (TrackerSpec.frames refs fs))
              (MeetingGuardian.Frame now' dets')).
    change (MeetingGuardian.step (fold_left MeetingGuardian.step later ?r) ?e)
      with (fold_left MeetingGuardian.step [e]
              (fold_left MeetingGuardian.step later r)).
    rewrite <- fold_left_app.
    apply FrameFacts.absent_forever; [|exact Hgone].
    rewrite RetireFacts.frames_steps.
    pose proof (FrameFacts.steps_counter
                  (map (fun f => MeetingGuardian.Frame (fst f) (snd f)) fs) refs).
    lia.
Qed.

(** C5 (witness): a track created in one frame, then six frames without
    detections. *)
Lemma C5_witness :
  let refs := MeetingGuardian.session
                [MeetingGuardian.Frame 0 [TrackerExamples.face]] in
  let fs := TrackerExamples.emptyFrames ++ [(6%Z, [])] in
  In 1%Z (TrackerSpec.ids (MeetingGuardian.trackedFacesRef refs)) /\
  length fs = S MeetingGuardian.MAX_MISSING_FRAMES /\
  TrackerSpec.unmatchedIn 1 refs fs /\
  ~ In (MeetingGuardian.personId 1)
       (map ParticipantAnalysis.id
          (MeetingGuardian.emitted
             (TrackerSpec.frames refs TrackerExamples.emptyFrames) 6 [])) /\
  (forall later now' dets',
     ~ In (MeetingGuardian.personId 1)
          (map ParticipantAnalysis.id
             (MeetingGuardian.emitted
                (fold_left MeetingGuardian.step later
                   (TrackerSpec.frames refs fs)) now' dets'))).
Proof.
  intros refs fs.
  assert (Hlive : In 1%Z (TrackerSpec.ids (MeetingGuardian.trackedFacesRef refs)))
    by (cbn; left; reflexivity).
  assert (Hlen : length fs = S MeetingGuardian.MAX_MISSING_FRAMES)
    by reflexivity.
  assert (Hun : TrackerSpec.unmatchedIn 1 refs fs)
    by (cbn; repeat split; intros []).
  split; [exact Hlive|]. split; [exact Hlen|]. split; [exact Hun|].
  exact (proj2 (C5_stale_track_retired
                  [MeetingGuardian.Frame 0 [TrackerExamples.face]] 1
                  TrackerExamples.emptyFrames 6 [] Hlive Hlen Hun)).
Defined.

(** ** Matching on concrete frames *)

Module MatchEval.
Import MeetingGuardian TrackerSpec TrackerExamples.

Lemma getDistance_lt x1 y1 x2 y2 b :
  0 <= b -> (x2 - x1) ^ 2 + (y2 - y1) ^ 2 < b ^ 2 ->
  getDistance x1 y1 x2 y2 < b.
Proof.
  intros Hb Hlt. unfold getDistance, Js.Math_sqrt, Js.Math_pow2.
  rewrite <- (sqrt_pow2 b Hb). apply sqrt_lt_1_alt. split; [|exact Hlt].
  apply Rplus_le_le_0_compat; apply pow2_ge_0.
Qed.

Lemma findBestMatch_single t d :
  getDistance (Point.x (DetectedObject.center d))
              (Point.y (DetectedObject.center d))
              (Box.x (TrackedFace.box t) + Box.w (TrackedFace.box t) / 2)
              (Box.y (TrackedFace.box t) + Box.h (TrackedFace.box t) / 2)
  < MATCH_DISTANCE_THRESHOLD ->
  findBestMatch [t] d = Some 0%nat.
Proof.
  intros H. unfold findBestMatch. cbn [length seq combine fold_left].
  unfold considerTrack. cbn [Point.x Point.y].
  rewrite (proj2 (JsFacts.ltb_true _ _) H). reflexivity.
Qed.

(** Two detections, each within the threshold of the only track when its
    turn comes, are both linked to that track. *)
Lemma matchAll_shared now t d1 d2 :
  findBestMatch [t] d1 = Some 0%nat ->
  findBestMatch [updateTrack now t d1] d2 = Some 0%nat ->
  snd (matchAll now [t] [d1; d2])
  = [linkTo d1 (TrackedFace.id t); linkTo d2 (TrackedFace.id t)].
Proof.
  intros H1 H2. unfold matchAll. cbn [fold_left].
  unfold matchOne at 2. rewrite H1. cbn [nth_error setAt app].
  unfold matchOne. rewrite H2. cbn [nth_error setAt app snd].
  reflexivity.
Qed.

End MatchEval.


Module ClaimFacts.
Import MeetingGuardian TrackerSpec ListFacts MatchFacts MatchLoop CreateLoop
  FrameFacts.

Lemma Forall2_map_l {A B C} (f : A -> B) (P : B -> C -> Prop) l l' :
  Forall2 P (map f l) l' -> Forall2 (fun a c => P (f a) c) l l'.
Proof.
  revert l'. induction l as [|a l IH]; intros l' H; inversion H; subst;
    constructor; auto.
Qed.

End ClaimFacts.


(** C4 (counterexample). A detection whose box has width -10 and height
    0 arrives on an empty track set: it is not dropped, the frame creates
    track 1 with that very box and emits its snapshot, whereas the same
    frame without the detection leaves no track.  The estimator is no
    stricter: an eye-aspect-ratio of -1 is taken for closed eyes and
    enters the attention filter as a raw attention of 60. *)
Lemma C4_counterexample :
  let bad := TrackerExamples.broken in
  DetectionBox.width (FaceDetection.box bad) <= 0 /\
  DetectionBox.height (FaceDetection.box bad) <= 0 /\
  map (fun t => (TrackedFace.id t, TrackedFace.box t))
      (MeetingGuardian.trackedFacesRef
         (fst (MeetingGuardian.analyzeFrame MeetingGuardian.initialRefs 0 [bad])))
  = [(1%Z, Box.mk 100 100 (-10) 0)] /\
  map ParticipantAnalysis.id
      (MeetingGuardian.emitted MeetingGuardian.initialRefs 0 [bad])
  = ["Person 1"%string] /\
  MeetingGuardian.trackedFacesRef
    (fst (MeetingGuardian.analyzeFrame MeetingGuardian.initialRefs 0 []))
  = [] /\
  KalmanFilter.x
    (CognitiveModel.attentionFilter
       (fst (CognitiveModel.update (CognitiveModel.new 0) 1
               (CognitiveSpec.atRest (-1) 0))))
  = Some 60.
Proof.
  cbv zeta. split; [simpl; lra|]. split; [simpl; lra|].
  split; [reflexivity|]. split; [reflexivity|]. split; [reflexivity|].
  rewrite UpdateFacts.update_attentionFilter.
  change (CognitiveModel.attentionFilter (CognitiveModel.new 0))
    with (KalmanFilter.new 0.1 10).
  rewrite KalmanFacts.new_first_call. cbn [fst KalmanFilter.x].
  rewrite CognitiveFacts.rawAttention_spec, CognitiveFacts.atRest_attention.
  UpdateFacts.js_cmp. reflexivity.
Qed.

(** C4 (amended). The core validates nothing: whatever its box, every
    detection of a frame takes part in matching and ends the frame linked
    to a live track, the one it was matched to or the one created for it,
    whose missing-counter is 0. *)
Theorem C4_every_detection_reaches_a_track
    (refs : MeetingGuardian.Refs) (now : Z) (dets : list FaceDetection.t) :
  Forall2
    (fun d o =>
       DetectedObject.box o
       = Box.mk (DetectionBox.x (FaceDetection.box d))
                (DetectionBox.y (FaceDetection.box d))
                (DetectionBox.width (FaceDetection.box d))
                (DetectionBox.height (FaceDetection.box d)) /\
       exists t,
         In t (MeetingGuardian.trackedFacesRef
                 (fst (MeetingGuardian.analyzeFrame refs now dets))) /\
         DetectedObject.trackId o = Some (TrackedFace.id t) /\
         TrackedFace.missingFrames t = 0%nat)
    dets (snd (MeetingGuardian.afterCreation refs now dets)).
Proof.
  destruct (MatchLoop.afterMatching_spec refs now dets) as (Hfrom & _ & Hlink).
  apply ClaimFacts.Forall2_map_l, ListFacts.Forall2_with_In_r in Hfrom.
  rewrite FrameFacts.analyzeFrame_refs, FrameFacts.afterCreation_eq.
  cbn [fst snd MeetingGuardian.trackedFacesRef].
  eapply ListFacts.Forall2_compose;
    [|exact Hfrom
     |apply (CreateLoop.tagged_linked now
               (snd (MeetingGuardian.afterMatching refs now dets))
               (MeetingGuardian.nextPersonIdRef refs))].
  intros d o' o [Hdo' Hino'] [Hbox Hcase].
  assert (Hkeep : forall t,
            In t (fst (MeetingGuardian.afterMatching refs now dets)
                  ++ TrackerSpec.created now
                       (MeetingGuardian.nextPersonIdRef refs)
                       (snd (MeetingGuardian.afterMatching refs now dets))) ->
            TrackedFace.missingFrames t = 0%nat ->
            In t (MeetingGuardian.prune
                    (fst (MeetingGuardian.afterMatching refs now dets)
                     ++ TrackerSpec.created now
                          (MeetingGuardian.nextPersonIdRef refs)
                          (snd (MeetingGuardian.afterMatching refs now dets))))).
  { intros t Hin Hm. apply FrameFacts.prune_In. split; [exact Hin|].
    rewrite Hm. apply Nat.le_0_l. }
  split.
  - rewrite Hbox. destruct Hdo' as [->|(i & _ & ->)]; reflexivity.
  - destruct Hcase as [[Hm ->]|(Hm & t & Hin & Ht)].
    + assert (Hio : exists i, DetectedObject.trackId o' = Some i).
      { destruct Hdo' as [->|(i & _ & ->)]; [discriminate Hm|now exists i]. }
      destruct Hio as (i & Hio).
      destruct (Hlink o' i Hino' Hio) as (t' & Hin' & Hid' & Hm').
      exists t'. split; [|split].
      * apply Hkeep; [apply in_or_app; now left|exact Hm'].
      * now rewrite Hid'.
      * exact Hm'.
    + exists t. split; [|split].
      * apply Hkeep; [apply in_or_app; now right|].
        eapply CreateLoop.created_missing; exact Hin.
      * exact Ht.
      * eapply CreateLoop.created_missing; exact Hin.
Qed.

(** ** Metric bounds in the tracker *)

Module RangeFacts.
Import MeetingGuardian TrackerSpec ListFacts MatchFacts FrameFacts.

Lemma toDetectedObject_ok d : object_ok (toDetectedObject d).
Proof.
  unfold object_ok, metrics_ok, toDetectedObject; cbn.
  repeat split; apply clamp100_range.
Qed.

Lemma updateTrack_ok now t d :
  track_ok t -> object_ok d -> track_ok (updateTrack now t d).
Proof.
  unfold track_ok, object_ok, metrics_ok, updateTrack; cbn.
  intros (Ha & Hs & Hc) (Ha' & Hs' & Hc').
  repeat split; apply mix_range; auto; lra.
Qed.

Lemma matchOne_ok now tracks visited d :
  Forall track_ok tracks -> object_ok d ->
  Forall track_ok (fst (matchOne now (tracks, visited) d)).
Proof.
  intros Ht Hd. unfold matchOne.
  destruct (findBestMatch tracks d) as [best|]; [|exact Ht].
  destruct (nth_error tracks best) as [t|] eqn:E; [|exact Ht].
  cbn [fst]. apply setAt_Forall; [exact Ht|].
  apply updateTrack_ok; [|exact Hd].
  rewrite Forall_forall in Ht. apply Ht. eapply nth_error_In; exact E.
Qed.

Lemma matchLoop_ok now ds : forall tracks visited,
  Forall track_ok tracks -> Forall object_ok ds ->
  Forall track_ok (fst (fold_left (matchOne now) ds (tracks, visited))).
Proof.
  induction ds as [|d ds IH]; intros tracks visited Ht Hds; [exact Ht|].
  inversion Hds as [|? ? Hd Hrest]; subst. cbn [fold_left].
  pose proof (matchOne_ok now tracks visited d Ht Hd) as H1.
  destruct (matchOne now (tracks, visited) d) as [tracks1 visited1].
  apply IH; assumption.
Qed.

Lemma created_ok now ds : forall n,
  Forall object_ok ds -> Forall track_ok (created now n ds).
Proof.
  induction ds as [|d ds IH]; intros n Hds; [constructor|].
  inversion Hds as [|? ? Hd Hrest]; subst. cbn [created].
  destruct (negb (DetectedObject.matched d)); [constructor|]; auto.
Qed.

Lemma visited_ok known d o : object_ok d -> visitedFrom known d o -> object_ok o.
Proof. intros Hd [->|(i & _ & ->)]; exact Hd. Qed.

Lemma frame_ok refs now dets :
  Forall track_ok (trackedFacesRef refs) ->
  Forall track_ok (trackedFacesRef (fst (analyzeFrame refs now dets))).
Proof.
  intros Hok.
  assert (Hobjs : Forall object_ok (detectedObjectsOf dets)).
  { apply Forall_forall. intros o Ho. apply in_map_iff in Ho.
    destruct Ho as (d & <- & _). apply toDetectedObject_ok. }
  rewrite analyzeFrame_refs, afterCreation_eq.
  cbn [fst trackedFacesRef]. unfold prune.
  apply Forall_forall. intros t Ht. apply filter_In in Ht. destruct Ht as [Ht _].
  apply in_app_or in Ht. destruct Ht as [Ht|Ht].
  - assert (Hm : Forall track_ok (fst (afterMatching refs now dets))).
    { unfold afterMatching, matchAll. apply matchLoop_ok; [|exact Hobjs].
      apply Forall_forall. intros a Ha. apply in_map_iff in Ha.
      destruct Ha as (t0 & <- & Ht0). rewrite Forall_forall in Hok.
      exact (Hok t0 Ht0). }
    rewrite Forall_forall in Hm. now apply Hm.
  - assert (Hc : Forall track_ok
                   (created now (nextPersonIdRef refs)
                      (snd (afterMatching refs now dets)))).
    { apply created_ok. apply Forall_forall. intros o Ho.
      destruct (MatchLoop.afterMatching_spec refs now dets) as (Hfrom & _).
      destruct (Forall2_In_r _ _ _ _ Hfrom Ho) as (d & Hd & Hdo).
      eapply visited_ok; [|exact Hdo].
      rewrite Forall_forall in Hobjs. now apply Hobjs. }
    rewrite Forall_forall in Hc. now apply Hc.
Qed.

Lemma steps_ok es : forall refs,
  Forall track_ok (trackedFacesRef refs) ->
  Forall track_ok (trackedFacesRef (fold_left step es refs)).
Proof.
  induction es as [|e es IH]; intros refs H; [exact H|].
  cbn [fold_left]. apply IH. destruct e as [now dets|].
  - now apply frame_ok.
  - constructor.
Qed.

Lemma session_ok es : Forall track_ok (trackedFacesRef (session es)).
Proof. apply steps_ok. constructor. Qed.

Lemma toParticipant_ok t : track_ok t -> participant_ok (toParticipant t).
Proof. intros H; exact H. Qed.

End RangeFacts.

(** C3. Every attention, stress and curiosity value is in [0,100],
    before and after filtering or smoothing: in the geometric estimator
    the three raw values, the state kept after any sequence of updates
    and every reported data point; in the tracker the raw metrics of every
    detection, the metrics held by every track at any point of a session
    and the metrics of every emitted snapshot.  The clamps make this hold
    for all inputs, in particular for those within the documented
    ranges. *)
Theorem C3_metrics_stay_in_range :
  (forall (input : BiometricInput.t) (filtered : Js.number),
     in_range (CognitiveModel.rawAttention input) /\
     in_range (CognitiveModel.rawStress input) /\
     in_range (CognitiveModel.smoothedCuriosity filtered input)) /\
  (forall (now0 : Z) (inputs : list (Z * BiometricInput.t)),
     CognitiveInv.model_ok
       (fst (CognitiveModel.run (CognitiveModel.new now0) inputs)) /\
     Forall CognitiveInv.point_ok
       (snd (CognitiveModel.run (CognitiveModel.new now0) inputs))) /\
  (forall d : FaceDetection.t,
     TrackerSpec.metrics_ok
       (DetectedObject.metrics (MeetingGuardian.toDetectedObject d))) /\
  (forall events : list MeetingGuardian.event,
     Forall (fun t => TrackerSpec.metrics_ok (TrackedFace.metrics t))
       (MeetingGuardian.trackedFacesRef (MeetingGuardian.session events))) /\
  (forall (events : list MeetingGuardian.event) (now : Z)
          (dets : list FaceDetection.t),
     Forall TrackerSpec.participant_ok
       (MeetingGuardian.emitted (MeetingGuardian.session events) now dets)).
Proof.
  split; [|split; [|split; [|split]]].
  - intros input filtered. split; [|split].
    + apply CognitiveFacts.rawAttention_range.
    + apply CognitiveFacts.rawStress_range.
    + apply CognitiveFacts.smoothedCuriosity_range.
  - intros now0 inputs. apply CognitiveRange.run_ok, CognitiveRange.model_ok_new.
  - apply RangeFacts.toDetectedObject_ok.
  - apply RangeFacts.session_ok.
  - intros events now dets. unfold MeetingGuardian.emitted.
    rewrite FrameFacts.analyzeFrame_emitted.
    apply Forall_forall. intros p Hp. apply in_map_iff in Hp.
    destruct Hp as (t & <- & Ht). apply RangeFacts.toParticipant_ok.
    pose proof (RangeFacts.frame_ok (MeetingGuardian.session events) now dets
                  (RangeFacts.session_ok events)) as Hok.
    rewrite Forall_forall in Hok. now apply Hok.
Qed.

(** ** Scenarios of the specification *)

Module Scenarios.
Import MeetingGuardian TrackerSpec TrackerExamples.

(** New person: an empty track set and one detection give one track,
    identity 1, labelled "Listening". *)
Example new_person :
  map (fun p => (ParticipantAnalysis.id p, ParticipantAnalysis.bodyLanguage p))
      (emitted initialRefs 0 [face])
  = [("Person 1"%string, "Listening"%string)] /\
  nextPersonIdRef (fst (analyzeFrame initialRefs 0 [face])) = 2%Z.
Proof. split; reflexivity. Qed.

(** Retirement: a track seen once survives five frames without
    detections, its counter at five, and is gone after the sixth. *)
Example retirement :
  let refs := session [Frame 0 [face]] in
  map (fun t => (TrackedFace.id t, TrackedFace.missingFrames t))
      (trackedFacesRef (frames refs emptyFrames)) = [(1%Z, 5%nat)] /\
  trackedFacesRef (frames refs (emptyFrames ++ [(6%Z, [])])) = [].
Proof. split; reflexivity. Qed.

(** A stop clears the tracks and keeps the counter: the next person is
    number 2. *)
Example stop_keeps_counter :
  map ParticipantAnalysis.id
      (emitted (session [Frame 0 [face]; Stop]) 1 [face])
  = ["Person 2"%string].
Proof. reflexivity. Qed.

End Scenarios.

(** * Further properties *)

(** ** The signal filter over a run of calls *)

Module FilterRun.
Import KalmanFilter CognitiveInv FilterSpec.

Lemma sameShape_step k k' z z' :
  sameShape k k' -> sameShape (fst (filter k z)) (fst (filter k' z')).
Proof.
  intros (HR & HQ & HA & HB & HC & Hcov & Hx).
  unfold filter.
  destruct (x k) as [v|] eqn:Ev; destruct (x k') as [v'|] eqn:Ev'.
  - rewrite <- Hcov. destruct (cov k) as [c|]; cbn.
    + rewrite <- HR, <- HQ, <- HA, <- HC.
      repeat split; try assumption; try reflexivity; discriminate.
    + repeat split; assumption || reflexivity.
  - exfalso. destruct Hx as [_ Hx]. specialize (Hx eq_refl). discriminate.
  - exfalso. destruct Hx as [Hx _]. specialize (Hx eq_refl). discriminate.
  - cbn. rewrite <- HQ, <- HC.
    repeat split; try assumption; try reflexivity; discriminate.
Qed.

Lemma sameShape_feed ms : forall ms' k k',
  length ms = length ms' -> sameShape k k' ->
  sameShape (feed k ms) (feed k' ms').
Proof.
  induction ms as [|m ms IH]; intros [|m' ms'] k k' Hlen Hs;
    try discriminate; [exact Hs|].
  cbn [feed fold_left]. apply IH; [now injection Hlen|].
  now apply sameShape_step.
Qed.

Lemma sameShape_refl k : sameShape k k.
Proof. unfold sameShape; repeat split; auto. Qed.

(** One call keeps an estimate inside any interval that holds it and the
    measurement. *)
Lemma within_step lo hi k z :
  A k = 1 -> B k = 0 -> C k = 1 -> 0 < R_ k -> 0 < Q_ k ->
  match x k with
  | None => True
  | Some v => lo <= v <= hi /\ exists c, cov k = Some c /\ 0 < c
  end ->
  lo <= z <= hi ->
  within lo hi (snd (filter k z)) /\
  match x (fst (filter k z)) with
  | None => True
  | Some v => lo <= v <= hi /\ exists c, cov (fst (filter k z)) = Some c /\ 0 < c
  end /\
  A (fst (filter k z)) = 1 /\ B (fst (filter k z)) = 0 /\
  C (fst (filter k z)) = 1 /\
  R_ (fst (filter k z)) = R_ k /\ Q_ (fst (filter k z)) = Q_ k.
Proof.
  intros HA HB HC HR HQ Hx Hz.
  destruct (x k) as [v|] eqn:Ev.
  - destruct Hx as [Hv (c & Hc & Hcpos)].
    assert (Hw : warm k) by (unfold warm; repeat split; eauto).
    destruct (KalmanFacts.warm_step k z Hw)
      as [Hw' (prev & out & Hp & Ho & Hx' & Hb)].
    rewrite Ev in Hp; injection Hp as <-.
    assert (Hout : lo <= out <= hi).
    { revert Hb. unfold Rmin, Rmax. destruct (Rle_dec v z); lra. }
    destruct Hw' as (HA' & HB' & HC' & _ & _ & Hc' & _).
    split; [exists out; split; assumption|].
    rewrite Hx'. split; [split; assumption|].
    split; [exact HA'|]. split; [exact HB'|]. split; [exact HC'|].
    unfold filter. rewrite Ev, Hc. split; reflexivity.
  - unfold filter. rewrite Ev, HC. cbn.
    replace (1 / 1 * z) with z by lra.
    split; [exists z; split; [reflexivity|assumption]|].
    split.
    + split; [exact Hz|]. eexists. split; [reflexivity|lra].
    + repeat split; assumption || reflexivity.
Qed.

Lemma within_outputs lo hi ms : forall k,
  A k = 1 -> B k = 0 -> C k = 1 -> 0 < R_ k -> 0 < Q_ k ->
  match x k with
  | None => True
  | Some v => lo <= v <= hi /\ exists c, cov k = Some c /\ 0 < c
  end ->
  Forall (fun m => lo <= m <= hi) ms ->
  Forall (within lo hi) (outputs k ms).
Proof.
  induction ms as [|m ms IH]; intros k HA HB HC HR HQ Hx Hms; [constructor|].
  inversion Hms as [|? ? Hm Hrest]; subst.
  destruct (within_step lo hi k m HA HB HC HR HQ Hx Hm)
    as (Ho & Hx' & HA' & HB' & HC' & HR' & HQ').
  cbn [outputs]. constructor; [exact Ho|].
  apply IH; try assumption; [rewrite HR'|rewrite HQ']; assumption.
Qed.

(** A settled filter stays settled, and its step is the gain times the
    innovation, the gain being bounded on both sides by the constants. *)
Lemma settled_step k z :
  settledCov k ->
  settledCov (fst (filter k z)) /\
  R_ (fst (filter k z)) = R_ k /\ Q_ (fst (filter k z)) = Q_ k /\
  exists prev out K,
    x k = Some prev /\ snd (filter k z) = Some out /\
    out = prev + K * (z - prev) /\
    R_ k / (R_ k + Q_ k) < K <= (Q_ k + R_ k) / (Q_ k + R_ k + Q_ k).
Proof.
  intros [Hw (c & Hc & Hle)].
  destruct (KalmanFacts.warm_step k z Hw) as [Hw' _].
  destruct Hw as (HA & HB & HC & HR & HQ & (c0 & Hc0 & Hcpos) & (v & Hv)).
  rewrite Hc in Hc0; injection Hc0 as <-.
  unfold settledCov. unfold filter in *. rewrite Hv, Hc in *. cbn [fst snd] in *.
  rewrite HA, HB, HC in *.
  set (p := 1 * c * 1 + R_ k) in *.
  assert (Hp : 0 < p) by (unfold p; lra).
  assert (Hp' : p <= Q_ k + R_ k) by (unfold p; lra).
  assert (Hp'' : R_ k < p) by (unfold p; lra).
  assert (Hi : (1 * p * 1 + Q_ k) * (1 / (1 * p * 1 + Q_ k)) = 1)
    by (field; lra).
  assert (Hipos : 0 < 1 / (1 * p * 1 + Q_ k)).
  { unfold Rdiv; rewrite Rmult_1_l. apply Rinv_0_lt_compat; lra. }
  set (i := 1 / (1 * p * 1 + Q_ k)) in *.
  split; [|split; [reflexivity|split; [reflexivity|]]].
  - split; [exact Hw'|]. eexists. split; [reflexivity|]. cbn.
    assert (p * 1 * i * 1 * p = p * (p * i)) by lra.
    assert (p * i = 1 - Q_ k * i) by lra.
    assert (0 < Q_ k * i) by nra.
    assert (p - p * 1 * i * 1 * p = (p * i) * Q_ k) by nra.
    assert (p * i < 1) by lra.
    nra.
  - exists v, (1 * v + 0 * 0 + p * 1 * i * (z - 1 * (1 * v + 0 * 0))), (p * i).
    split; [reflexivity|]. split; [reflexivity|]. split; [lra|].
    assert (Hlo : R_ k / (R_ k + Q_ k) * (R_ k + Q_ k) = R_ k) by (field; lra).
    assert (Hhi : (Q_ k + R_ k) / (Q_ k + R_ k + Q_ k) * (Q_ k + R_ k + Q_ k)
                  = Q_ k + R_ k) by (field; lra).
    assert (H1 : p * i * (R_ k + Q_ k) - R_ k = i * (Q_ k * (p - R_ k))).
    { transitivity (p * i * (R_ k + Q_ k) - R_ k * ((1 * p * 1 + Q_ k) * i));
        [rewrite Hi; ring|ring]. }
    assert (H2 : Q_ k + R_ k - p * i * (Q_ k + R_ k + Q_ k)
                 = i * (Q_ k * (Q_ k + R_ k - p))).
    { transitivity ((Q_ k + R_ k) * ((1 * p * 1 + Q_ k) * i)
                    - p * i * (Q_ k + R_ k + Q_ k));
        [rewrite Hi; ring|ring]. }
    assert (H3 : 0 < i * (Q_ k * (p - R_ k))).
    { apply Rmult_lt_0_compat; [exact Hipos|]. apply Rmult_lt_0_compat; lra. }
    assert (H4 : 0 <= i * (Q_ k * (Q_ k + R_ k - p))).
    { apply Rmult_le_pos; [lra|]. apply Rmult_le_pos; lra. }
    split.
    + apply Rmult_lt_reg_r with (R_ k + Q_ k); [lra|]. rewrite Hlo. lra.
    + apply Rmult_le_reg_r with (Q_ k + R_ k + Q_ k); [lra|]. rewrite Hhi. lra.
Qed.

Lemma settled_feed ms : forall k,
  settledCov k ->
  settledCov (feed k ms) /\ R_ (feed k ms) = R_ k /\ Q_ (feed k ms) = Q_ k.
Proof.
  induction ms as [|m ms IH]; intros k Hk.
  { split; [exact Hk|split; reflexivity]. }
  cbn [feed fold_left].
  destruct (settled_step k m Hk) as (Hk' & HR' & HQ' & _).
  destruct (IH _ Hk') as (Hs & HR'' & HQ'').
  unfold feed in *. split; [exact Hs|]. split; congruence.
Qed.

Lemma settled_first pn mn m :
  0 < pn -> 0 < mn -> settledCov (fst (filter (new pn mn) m)).
Proof.
  intros Hp Hm. split; [now apply KalmanFacts.warm_after_first|].
  rewrite KalmanFacts.new_first_call. cbn. exists mn. split; [reflexivity|lra].
Qed.

End FilterRun.

Module FilterRun64.
Import KalmanFilter CognitiveInv FilterSpec.

(** The exact-real filter fed one value again and again. *)
Lemma constant_outputs pn mn m n :
  0 < pn -> 0 < mn ->
  outputs (new pn mn) (repeat m n) = repeat (Some m) n.
Proof.
  intros Hp Hm.
  assert (Hin : Forall (fun v => m <= v <= m) (repeat m n)).
  { apply Forall_forall. intros v Hv. apply repeat_spec in Hv. subst. lra. }
  pose proof (FilterRun.within_outputs m m (repeat m n) (new pn mn)
                eq_refl eq_refl eq_refl Hp Hm I Hin) as Hout.
  clear Hin. revert Hout. generalize (new pn mn).
  induction n as [|n IH]; intros k Hout; [reflexivity|].
  cbn [repeat outputs] in *.
  inversion Hout as [|? ? (r & Hr & Hb) Hrest]; subst.
  rewrite Hr. f_equal; [f_equal; lra|]. now apply IH.
Qed.

(** The exact-real filter after at least one measurement: covariance and
    gain of the next call. *)
Lemma gain_next pn mn m ms z :
  0 < pn -> 0 < mn ->
  let k := feed (new pn mn) (m :: ms) in
  (exists c, cov k = Some c /\ 0 < c <= mn) /\
  exists prev out K,
    x k = Some prev /\ snd (filter k z) = Some out /\
    out = prev + K * (z - prev) /\
    pn / (pn + mn) < K <= (mn + pn) / (mn + pn + mn).
Proof.
  intros Hp Hm k.
  destruct (FilterRun.settled_feed ms _ (FilterRun.settled_first pn mn m Hp Hm))
    as (Hs & HR & HQ).
  assert (HR0 : R_ (fst (filter (new pn mn) m)) = pn)
    by (rewrite KalmanFacts.new_first_call; reflexivity).
  assert (HQ0 : Q_ (fst (filter (new pn mn) m)) = mn)
    by (rewrite KalmanFacts.new_first_call; reflexivity).
  rewrite HR0 in HR. rewrite HQ0 in HQ.
  change (settledCov k) in Hs.
  change (R_ k = pn) in HR.
  change (Q_ k = mn) in HQ.
  split.
  - destruct Hs as [Hw (c & Hc & Hle)].
    destruct Hw as (_ & _ & _ & _ & _ & (c0 & Hc0 & Hpos) & _).
    rewrite Hc in Hc0; injection Hc0 as <-.
    exists c. split; [exact Hc|]. rewrite HQ in Hle. lra.
  - destruct (FilterRun.settled_step k z Hs)
      as (_ & _ & _ & prev & out & K & H1 & H2 & H3 & H4).
    rewrite HR, HQ in H4. now exists prev, out, K.
Qed.

Lemma moderate_constants pn mn :
  Filter64Spec.moderate pn -> Filter64Spec.moderate mn ->
  Filter64Spec.constants_ok pn mn.
Proof.
  intros [Hp1 Hp2] [Hm1 Hm2]. pose proof DoubleFacts.MAX_VALUE_large as HM.
  unfold Filter64Spec.constants_ok.
  assert (H : 1 / 1000 * Double.MAX_VALUE <= mn * Double.MAX_VALUE)
    by (apply Rmult_le_compat_r; lra).
  repeat split; lra.
Qed.

End FilterRun64.



(** X2. With noise constants that keep the filter's sums and reciprocal
    within the doubles, a fresh filter fed the same finite measurement
    again and again returns that measurement at every call. *)
Theorem X2_filter_constant_signal (pn mn m : R) (n : nat) :
  Filter64Spec.constants_ok pn mn ->
  - Double.MAX_VALUE <= m <= Double.MAX_VALUE ->
  KalmanFilter64.outputs
    (KalmanFilter64.new (Double.Fin pn) (Double.Fin mn))
    (map Double.Fin (repeat m n))
  = repeat (Double.Fin m) n.
Proof.
  intros Hk Hm.
  pose proof Hk as (Hp & _ & Hq4 & _).
  pose proof DoubleFacts.MAX_VALUE_large as HM.
  assert (Hq0 : 0 < mn) by nra.
  assert (Hs : Filter64Spec.span_ok m m)
    by (unfold Filter64Spec.span_ok; lra).
  assert (Hin : Forall (fun v => m <= v <= m) (repeat m n)).
  { apply Forall_forall. intros v Hv. apply repeat_spec in Hv. subst. lra. }
  destruct (Filter64Facts.sim_run m m (repeat m n) (KalmanFilter.new pn mn)
              Hk Hs (Filter64Facts.steady_new m m pn mn) Hin) as (Eo & _).
  rewrite Filter64Facts.lift_new in Eo. rewrite Eo.
  rewrite (FilterRun64.constant_outputs pn mn m n Hp Hq0).
  rewrite map_repeat. reflexivity.
Qed.

(** X2 (witness): three calls with measurement 42. *)
Lemma X2_witness :
  KalmanFilter64.outputs
    (KalmanFilter64.new (Double.Fin 0.1) (Double.Fin 10))
    (map Double.Fin (repeat 42 3))
  = repeat (Double.Fin 42) 3.
Proof.
  pose proof DoubleFacts.MAX_VALUE_large as HM.
  apply (X2_filter_constant_signal 0.1 10 42 3).
  - unfold Filter64Spec.constants_ok. lra.
  - lra.
Defined.





(** ** The geometric estimator *)

Module EstimatorFacts.
Import CognitiveModel CognitiveInv CognitiveSpec CognitiveFacts UpdateFacts
  EstimatorSpec BiometricInput ExpressionConfidence.

(** Rounding keeps a value between two whole numbers of hundredths. *)
Lemma toFixed2_keeps (a b : Z) v :
  (0 <= a)%Z -> IZR a / 100 <= v <= IZR b / 100 ->
  IZR a / 100 <= Js.toFixed2 v <= IZR b / 100.
Proof.
  intros Ha [Hlo Hhi]. apply IZR_le in Ha.
  unfold Js.toFixed2, Js.toFixed2_abs.
  destruct (Rlt_dec v 0); [lra|].
  assert (H1 : (a <= Zfloor (v * 100 + / 2))%Z) by (apply Zfloor_lub; lra).
  assert (H2 : (Zfloor (v * 100 + / 2) <= b)%Z).
  { rewrite <- (Zfloor_eq b (IZR b + / 2)) by lra. apply Zfloor_le. lra. }
  apply IZR_le in H1, H2. lra.
Qed.

(** Rounding moves a non-negative value by at most half a hundredth. *)
Lemma toFixed2_close v : 0 <= v -> Rabs (Js.toFixed2 v - v) <= / 200.
Proof.
  intros Hv. unfold Js.toFixed2, Js.toFixed2_abs.
  destruct (Rlt_dec v 0); [lra|].
  destruct (Zfloor_bound (v * 100 + / 2)).
  apply Rabs_le. lra.
Qed.

Lemma clamp100_floor lo v : lo <= 100 -> lo <= v -> lo <= clamp100 v.
Proof.
  intros H1 H2. unfold clamp100, Js.Math_max, Js.Math_min, Rmax, Rmin.
  destruct (Rle_dec 100 v); destruct (Rle_dec 0 _); lra.
Qed.

Lemma rawStress_floor input :
  confidences_ok input -> 10 <= rawStress input <= 100.
Proof.
  intros (_ & [Hh0 Hh1] & [Ha0 Ha1] & [Hf0 Hf1] & _).
  pose proof (rawStress_range input) as [_ Hhi]. split; [|exact Hhi].
  rewrite rawStress_spec. unfold spec_stress.
  apply clamp100_floor; [lra|].
  destruct (Js.gtb (blinkRate input) 25);
    [|destruct (Js.ltb (blinkRate input) 5)]; lra.
Qed.

Lemma smoothedCuriosity_floor a input :
  confidences_ok input -> 50 <= smoothedCuriosity a input <= 100.
Proof.
  intros (_ & [Hh0 Hh1] & _ & _ & [Hs0 Hs1]).
  pose proof (smoothedCuriosity_range a input) as [_ Hhi]. split; [|exact Hhi].
  rewrite smoothedCuriosity_spec. unfold spec_curiosity_from.
  apply clamp100_floor; [lra|].
  destruct (Js.gtb_nan a 70);
    destruct (Js.ltb (-20) (pitch input) && Js.ltb (pitch input) (-5)); lra.
Qed.

Lemma update_floor cm now input :
  stress_ok cm -> confidences_ok input ->
  stress_ok (fst (update cm now input)) /\
  (50 <= CognitiveDataPoint.curiosity (snd (update cm now input)) <= 100 /\
   FilterSpec.within 10 100 (CognitiveDataPoint.stress (snd (update cm now input)))).
Proof.
  intros (HA & HB & HC & HR & HQ & Hx) Hin.
  destruct (FilterRun.within_step 10 100 (stressFilter cm) (rawStress input)
              HA HB HC HR HQ Hx (rawStress_floor input Hin))
    as (Ho & Hx' & HA' & HB' & HC' & HR' & HQ').
  split.
  - unfold stress_ok. rewrite update_stressFilter.
    cbv zeta. split; [exact HA'|]. split; [exact HB'|]. split; [exact HC'|].
    split; [rewrite HR'; exact HR|]. split; [rewrite HQ'; exact HQ|exact Hx'].
  - rewrite update_point.
    cbn [CognitiveDataPoint.curiosity CognitiveDataPoint.stress]. split.
    + pose proof (smoothedCuriosity_floor
                    (snd (KalmanFilter.filter (attentionFilter cm)
                            (rawAttention input))) input Hin) as Hc.
      set (v := smoothedCuriosity _ input) in *.
      assert (Hv : IZR 5000 / 100 <= v <= IZR 10000 / 100) by lra.
      pose proof (toFixed2_keeps 5000 10000 v ltac:(lia) Hv). lra.
    + destruct Ho as (r & -> & Hr). exists (Js.toFixed2 r).
      split; [reflexivity|].
      assert (Hv : IZR 1000 / 100 <= r <= IZR 10000 / 100) by lra.
      pose proof (toFixed2_keeps 1000 10000 r ltac:(lia) Hv). lra.
Qed.

Lemma run_floor inputs : forall cm,
  stress_ok cm ->
  Forall (fun p => confidences_ok (snd p)) inputs ->
  Forall (fun dp => 50 <= CognitiveDataPoint.curiosity dp <= 100 /\
                    FilterSpec.within 10 100 (CognitiveDataPoint.stress dp))
         (snd (run cm inputs)).
Proof.
  induction inputs as [|[now input] rest IH]; intros cm Hcm Hall;
    [constructor|].
  inversion Hall as [|? ? Hin Hrest]; subst. cbn [snd] in Hin.
  rewrite CognitiveClaims.run_cons. cbn [snd].
  destruct (update_floor cm now input Hcm Hin) as [Hcm' Hdp].
  constructor; [exact Hdp|]. now apply IH.
Qed.

Lemma update_same cm now a b :
  sameSignals a b -> update cm now a = update cm now b.
Proof.
  intros (Hy & Hp & He & Hb & Hh & Ha & Hf & Hs).
  assert (H1 : rawAttention a = rawAttention b)
    by (unfold rawAttention; now rewrite Hy, Hp, He).
  assert (H2 : rawStress a = rawStress b)
    by (unfold rawStress; now rewrite Hb, Ha, Hf, Hh).
  assert (H3 : forall v, smoothedCuriosity v a = smoothedCuriosity v b)
    by (intros v; unfold smoothedCuriosity; now rewrite Hp, Hs, Hh).
  unfold update. rewrite H1, H2.
  destruct (KalmanFilter.filter (attentionFilter cm) (rawAttention b)).
  destruct (KalmanFilter.filter (stressFilter cm) (rawStress b)).
  now rewrite H3.
Qed.

Lemma run_same xs : forall ys cm,
  sameRuns xs ys -> run cm xs = run cm ys.
Proof.
  induction xs as [|[t a] xs IH]; intros ys cm H; inversion H; subst;
    [reflexivity|].
  destruct y as [t' b]. destruct H2 as [Ht Hab]. cbn [fst snd] in Ht, Hab.
  subst t'. cbn [run]. rewrite (update_same cm t a b Hab).
  destruct (update cm t b) as [cm' dp]. now rewrite (IH _ cm' H4).
Qed.

Lemma Math_pow_nonneg b e : 0 <= Js.Math_pow b e.
Proof.
  unfold Js.Math_pow. destruct (Rle_dec b 0); [lra|].
  unfold Rpower. left. apply exp_pos.
Qed.

Lemma Math_pow_zero b e : Js.Math_pow b e = 0 -> b <= 0.
Proof.
  unfold Js.Math_pow. destruct (Rle_dec b 0); [auto|].
  unfold Rpower. intros H. pose proof (exp_pos (e * ln b)). lra.
Qed.

Lemma Math_pow_mono a b e :
  0 <= e -> 0 <= a <= b -> Js.Math_pow a e <= Js.Math_pow b e.
Proof.
  intros He [Ha Hab]. unfold Js.Math_pow.
  destruct (Rle_dec a 0); destruct (Rle_dec b 0); try lra.
  - unfold Rpower. left. apply exp_pos.
  - apply Rle_Rpower_l; lra.
Qed.

Lemma clamp100_mono v w : v <= w -> clamp100 v <= clamp100 w.
Proof.
  intros H. unfold clamp100, Js.Math_max, Js.Math_min, Rmax, Rmin.
  destruct (Rle_dec 100 v); destruct (Rle_dec 100 w);
    repeat match goal with |- context [Rle_dec ?a ?b] => destruct (Rle_dec a b) end;
    lra.
Qed.

Lemma clamp100_top v : clamp100 v = 100 -> 100 <= v.
Proof.
  unfold clamp100, Js.Math_max, Js.Math_min, Rmax, Rmin.
  destruct (Rle_dec 100 v); [lra|]. destruct (Rle_dec 0 v); lra.
Qed.

Lemma run_untouched inputs : forall cm,
  CognitiveModelState.flowState (state (fst (run cm inputs)))
  = CognitiveModelState.flowState (state cm) /\
  flowFilter (fst (run cm inputs)) = flowFilter cm /\
  CognitiveModelState.lastUpdate (state (fst (run cm inputs)))
  = lastTime (CognitiveModelState.lastUpdate (state cm)) inputs.
Proof.
  induction inputs as [|[now input] rest IH]; intros cm;
    [repeat split|].
  rewrite CognitiveClaims.run_cons. cbn [fst].
  destruct (IH (fst (update cm now input))) as (H1 & H2 & H3).
  rewrite H1, H2, H3, update_flowFilter.
  unfold update.
  destruct (KalmanFilter.filter (attentionFilter cm) _);
    destruct (KalmanFilter.filter (stressFilter cm) _).
  repeat split.
Qed.

End EstimatorFacts.

(** X5. When the expression confidences of every input lie in [0,1],
    the estimator never reports a curiosity below 50 nor a stress below
    10: the base values 50 and 30 and the signs of the terms leave the
    lower part of the [0,100] scale out of reach. *)
Theorem X5_estimator_floors
    (now0 : Z) (inputs : list (Z * BiometricInput.t)) :
  Forall (fun p => EstimatorSpec.confidences_ok (snd p)) inputs ->
  Forall (fun dp => 50 <= CognitiveDataPoint.curiosity dp <= 100 /\
                    FilterSpec.within 10 100 (CognitiveDataPoint.stress dp))
         (snd (CognitiveModel.run (CognitiveModel.new now0) inputs)).
Proof.
  intros H. apply EstimatorFacts.run_floor; [|exact H].
  unfold EstimatorSpec.stress_ok; cbn. repeat split; lra.
Qed.

(** X5 (witness): one update with a head at rest and no expression. *)
Lemma X5_witness :
  Forall (fun dp => 50 <= CognitiveDataPoint.curiosity dp <= 100 /\
                    FilterSpec.within 10 100 (CognitiveDataPoint.stress dp))
         (snd (CognitiveModel.run (CognitiveModel.new 0)
                 [(1%Z, CognitiveSpec.atRest 0.3 0)])).
Proof.
  apply (X5_estimator_floors 0 [(1%Z, CognitiveSpec.atRest 0.3 0)]).
  constructor; [|constructor].
  unfold EstimatorSpec.confidences_ok, EstimatorSpec.unit_interval; cbn.
  repeat split; lra.
Defined.

(** X6. The estimator ignores the roll angle, the interaction level and
    the neutral confidence: two runs whose inputs agree on the times and on
    every other signal leave the same model and return the same data
    points. *)
Theorem X6_estimator_ignores_roll_interaction_neutral
    (cm : CognitiveModel.t) (xs ys : list (Z * BiometricInput.t)) :
  EstimatorSpec.sameRuns xs ys ->
  CognitiveModel.run cm xs = CognitiveModel.run cm ys.
Proof. apply EstimatorFacts.run_same. Qed.

(** X6 (witness): the same head at rest, once with roll 30, interaction
    level 7 and full neutral confidence. *)
Lemma X6_witness :
  CognitiveModel.run (CognitiveModel.new 0) [(1%Z, CognitiveSpec.atRest 0.3 0)]
  = CognitiveModel.run (CognitiveModel.new 0)
      [(1%Z,
        BiometricInput.mk 0 5 30 0.3 15 (ExpressionConfidence.mk 1 0 0 0 0) 7)].
Proof.
  apply X6_estimator_ignores_roll_interaction_neutral.
  constructor; [|constructor]. split; [reflexivity|].
  unfold EstimatorSpec.sameSignals; cbn. repeat split.
Defined.

(** X7. After any sequence of updates, each value an update reports is
    the value it stored in the state rounded, and differs from it by at
    most half a hundredth. *)
Theorem X7_reported_close_to_state
    (now0 : Z) (inputs : list (Z * BiometricInput.t))
    (now : Z) (input : BiometricInput.t) :
  let cm := fst (CognitiveModel.run (CognitiveModel.new now0) inputs) in
  let st := CognitiveModel.state (fst (CognitiveModel.update cm now input)) in
  let dp := snd (CognitiveModel.update cm now input) in
  (exists s a, CognitiveModelState.attention st = Some s /\
               CognitiveDataPoint.attention dp = Some a /\
               Rabs (a - s) <= / 200) /\
  (exists s a, CognitiveModelState.stress st = Some s /\
               CognitiveDataPoint.stress dp = Some a /\
               Rabs (a - s) <= / 200) /\
  Rabs (CognitiveDataPoint.curiosity dp - CognitiveModelState.curiosity st)
  <= / 200.
Proof.
  intros cm st dp.
  pose proof (CognitiveRange.run_ok inputs _ (CognitiveRange.model_ok_new now0))
    as [Hcm _]. fold cm in Hcm.
  destruct (CognitiveRange.update_ok cm now input Hcm)
    as [(_ & _ & (sa & Hsa & Hra) & (ss & Hss & Hrs) & Hrc) _].
  fold st in Hsa, Hss, Hrc.
  assert (Hdp : dp = {| CognitiveDataPoint.time := now;
                        CognitiveDataPoint.attention :=
                          Js.toFixed2_nan (CognitiveModelState.attention st);
                        CognitiveDataPoint.stress :=
                          Js.toFixed2_nan (CognitiveModelState.stress st);
                        CognitiveDataPoint.curiosity :=
                          Js.toFixed2 (CognitiveModelState.curiosity st) |}).
  { unfold dp, st, CognitiveModel.update.
    destruct (KalmanFilter.filter (CognitiveModel.attentionFilter cm) _);
      destruct (KalmanFilter.filter (CognitiveModel.stressFilter cm) _);
      reflexivity. }
  rewrite Hdp. cbn [CognitiveDataPoint.attention CognitiveDataPoint.stress
                    CognitiveDataPoint.curiosity].
  rewrite Hsa, Hss. cbn [Js.toFixed2_nan option_map].
  split; [|split].
  - exists sa, (Js.toFixed2 sa). repeat split.
    apply EstimatorFacts.toFixed2_close, Hra.
  - exists ss, (Js.toFixed2 ss). repeat split.
    apply EstimatorFacts.toFixed2_close, Hrs.
  - apply EstimatorFacts.toFixed2_close, Hrc.
Qed.

(** X8. Turning the head further from straight ahead, tilting it further
    from the 5 degree rest pitch or closing the eyes more never raises the
    raw attention. *)
Theorem X8_attention_monotone (a b : BiometricInput.t) :
  Rabs (BiometricInput.yaw a) <= Rabs (BiometricInput.yaw b) ->
  Rabs (BiometricInput.pitch a - 5) <= Rabs (BiometricInput.pitch b - 5) ->
  BiometricInput.ear b <= BiometricInput.ear a ->
  CognitiveModel.rawAttention b <= CognitiveModel.rawAttention a.
Proof.
  intros Hy Hp He.
  rewrite !CognitiveFacts.rawAttention_spec. unfold CognitiveSpec.spec_attention.
  apply EstimatorFacts.clamp100_mono.
  pose proof (EstimatorFacts.Math_pow_mono _ _ 1.5 ltac:(lra)
                (conj (Rabs_pos (BiometricInput.yaw a)) Hy)).
  pose proof (EstimatorFacts.Math_pow_mono _ _ 1.5 ltac:(lra)
                (conj (Rabs_pos (BiometricInput.pitch a - 5)) Hp)).
  destruct (Js.ltb (BiometricInput.ear a) 0.15) eqn:Ea;
    destruct (Js.ltb (BiometricInput.ear b) 0.15) eqn:Eb; try lra.
  apply JsFacts.ltb_true in Ea. apply JsFacts.ltb_false in Eb. lra.
Qed.

(** X8 (witness): a head at rest against one turned by 30 degrees. *)
Lemma X8_witness :
  CognitiveModel.rawAttention
    (BiometricInput.mk 30 5 0 0.3 15 (ExpressionConfidence.mk 0 0 0 0 0) 0)
  <= CognitiveModel.rawAttention (CognitiveSpec.atRest 0.3 0).
Proof.
  apply X8_attention_monotone; cbn.
  - rewrite Rabs_R0. apply Rabs_pos.
  - lra.
  - lra.
Defined.

(** X9. The raw attention reaches 100 exactly when the yaw is 0, the
    pitch is 5 and the eye-aspect-ratio is not below 0.15. *)
Theorem X9_full_attention_iff (input : BiometricInput.t) :
  CognitiveModel.rawAttention input = 100 <->
  BiometricInput.yaw input = 0 /\ BiometricInput.pitch input = 5 /\
  0.15 <= BiometricInput.ear input.
Proof.
  rewrite CognitiveFacts.rawAttention_spec. unfold CognitiveSpec.spec_attention.
  pose proof (EstimatorFacts.Math_pow_nonneg (Rabs (BiometricInput.yaw input)) 1.5) as H1.
  pose proof (EstimatorFacts.Math_pow_nonneg (Rabs (BiometricInput.pitch input - 5)) 1.5) as H2.
  split.
  - intros H. apply EstimatorFacts.clamp100_top in H.
    destruct (Js.ltb (BiometricInput.ear input) 0.15) eqn:Ee; [lra|].
    apply JsFacts.ltb_false in Ee.
    assert (Hy : Js.Math_pow (Rabs (BiometricInput.yaw input)) 1.5 = 0) by lra.
    assert (Hp : Js.Math_pow (Rabs (BiometricInput.pitch input - 5)) 1.5 = 0) by lra.
    apply EstimatorFacts.Math_pow_zero in Hy, Hp.
    pose proof (Rabs_pos (BiometricInput.yaw input)).
    pose proof (Rabs_pos (BiometricInput.pitch input - 5)).
    assert (Hy0 : Rabs (BiometricInput.yaw input) = 0) by lra.
    assert (Hp0 : Rabs (BiometricInput.pitch input - 5) = 0) by lra.
    destruct (Req_dec (BiometricInput.yaw input) 0) as [Hy1|Hy1];
      [|apply Rabs_no_R0 in Hy1; contradiction].
    destruct (Req_dec (BiometricInput.pitch input - 5) 0) as [Hp1|Hp1];
      [|apply Rabs_no_R0 in Hp1; contradiction].
    repeat split; lra.
  - intros (Hy & Hp & He). rewrite Hy, Hp.
    replace (5 - 5) with 0 by lra. rewrite CognitiveFacts.pow_abs_zero.
    rewrite (proj2 (JsFacts.ltb_false _ _) He).
    transitivity (clamp100 100); [f_equal; lra|].
    apply clamp100_id. unfold in_range; lra.
Qed.

(** X10. Whatever the updates, the model's flow state stays 0 and its
    flow filter is never given a measurement, and the state's last-update
    time is the time of the latest update. *)
Theorem X10_flow_never_touched
    (now0 : Z) (inputs : list (Z * BiometricInput.t)) :
  let cm := fst (CognitiveModel.run (CognitiveModel.new now0) inputs) in
  CognitiveModelState.flowState (CognitiveModel.state cm) = 0 /\
  CognitiveModel.flowFilter cm = KalmanFilter.new 0.01 1 /\
  KalmanFilter.x (CognitiveModel.flowFilter cm) = None /\
  CognitiveModelState.lastUpdate (CognitiveModel.state cm)
  = EstimatorSpec.lastTime now0 inputs.
Proof.
  intros cm.
  destruct (EstimatorFacts.run_untouched inputs (CognitiveModel.new now0))
    as (H1 & H2 & H3).
  fold cm in H1, H2, H3. rewrite H1, H2, H3. repeat split.
Qed.

(** ** The tracker: nearest match *)

Module NearestFacts.
Import MeetingGuardian TrackerSpec TrackSpec ListFacts.

Lemma combine_app {A B} (a a' : list A) (b b' : list B) :
  length a = length b ->
  combine (a ++ a') (b ++ b') = combine a b ++ combine a' b'.
Proof.
  revert b. induction a as [|x a IH]; intros [|y b] H; try discriminate;
    [reflexivity|].
  cbn. f_equal. apply IH. now injection H.
Qed.

Lemma indexed_snoc {A} (l : list A) (x : A) :
  combine (seq 0 (length (l ++ [x]))) (l ++ [x])
  = combine (seq 0 (length l)) l ++ [(length l, x)].
Proof.
  rewrite length_app. cbn [length]. rewrite Nat.add_1_r, seq_S.
  rewrite combine_app by apply length_seq. reflexivity.
Qed.

Lemma considerTrack_eq d acc i t :
  considerTrack d acc (i, t)
  = if Js.ltb (distTo d t) (snd acc) then (Some i, distTo d t) else acc.
Proof. destruct acc; reflexivity. Qed.

Lemma bestSoFar_fold d l :
  bestSoFar d l
    (fold_left (considerTrack d) (combine (seq 0 (length l)) l)
       (None, MATCH_DISTANCE_THRESHOLD)).
Proof.
  induction l as [|x l IH] using rev_ind.
  - cbn. split; [intros [|j] t H; discriminate|reflexivity].
  - rewrite indexed_snoc, fold_left_app. cbn [fold_left].
    destruct (fold_left (considerTrack d) (combine (seq 0 (length l)) l)
                (None, MATCH_DISTANCE_THRESHOLD)) as [best minDist].
    rewrite considerTrack_eq. cbn [snd].
    destruct IH as [Hall Hbest].
    assert (Hnth : forall j t, nth_error (l ++ [x]) j = Some t ->
              (j < length l /\ nth_error l j = Some t)%nat \/
              (j = length l /\ t = x)).
    { intros j t H. destruct (Nat.lt_ge_cases j (length l)) as [Hlt|Hge].
      - left. split; [exact Hlt|]. now rewrite nth_error_app1 in H.
      - right. rewrite nth_error_app2 in H by exact Hge.
        destruct (j - length l)%nat as [|k] eqn:E.
        + cbn in H. injection H as <-. split; [lia|reflexivity].
        + cbn in H. destruct k; discriminate. }
    destruct (Js.ltb (distTo d x) minDist) eqn:E.
    + apply JsFacts.ltb_true in E. split.
      * intros j t H. destruct (Hnth j t H) as [[_ H']|[_ ->]]; [|lra].
        specialize (Hall j t H'). lra.
      * exists x. split; [rewrite nth_error_app2, Nat.sub_diag by lia; reflexivity|].
        split; [reflexivity|]. split.
        -- destruct best as [i|]; [destruct Hbest as (_ & _ & _ & H & _); lra|lra].
        -- intros j t' Hj H. destruct (Hnth j t' H) as [[_ H']|[Hj' _]]; [|lia].
           specialize (Hall j t' H'). lra.
    + apply JsFacts.ltb_false in E. split.
      * intros j t H. destruct (Hnth j t H) as [[_ H']|[_ ->]]; [|exact E].
        exact (Hall j t H').
      * destruct best as [i|]; [|exact Hbest].
        destruct Hbest as (t & Ht & Hd & Hlt & Hfirst).
        exists t. split; [|split; [exact Hd|split; [exact Hlt|]]].
        -- rewrite nth_error_app1; [exact Ht|].
           apply nth_error_Some. congruence.
        -- intros j t' Hj H. destruct (Hnth j t' H) as [[_ H']|[Hj' _]].
           ++ exact (Hfirst j t' Hj H').
           ++ exfalso. assert (i < length l)%nat
                by (apply nth_error_Some; congruence). lia.
Qed.

End NearestFacts.

(** X11. The inner loop of the matching step picks, for a detection, the
    nearest track among those strictly closer than MATCH_DISTANCE_THRESHOLD
    to it, centre to centre, and the first such track in array order when
    several are equally near; it picks none exactly when every track is at
    the threshold or farther. *)
Theorem X11_best_match_is_nearest
    (tracks : list TrackedFace.t) (d : DetectedObject.t) :
  (MeetingGuardian.findBestMatch tracks d = None <->
   forall t, In t tracks ->
             MeetingGuardian.MATCH_DISTANCE_THRESHOLD <= TrackSpec.distTo d t) /\
  (forall i, MeetingGuardian.findBestMatch tracks d = Some i ->
     exists t,
       nth_error tracks i = Some t /\
       TrackSpec.distTo d t < MeetingGuardian.MATCH_DISTANCE_THRESHOLD /\
       (forall j t', nth_error tracks j = Some t' ->
                     TrackSpec.distTo d t <= TrackSpec.distTo d t') /\
       (forall j t', (j < i)%nat -> nth_error tracks j = Some t' ->
                     TrackSpec.distTo d t < TrackSpec.distTo d t')).
Proof.
  pose proof (NearestFacts.bestSoFar_fold d tracks) as H.
  unfold MeetingGuardian.findBestMatch.
  destruct (fold_left (MeetingGuardian.considerTrack d)
              (combine (seq 0 (length tracks)) tracks)
              (None, MeetingGuardian.MATCH_DISTANCE_THRESHOLD))
    as [best minDist].
  destruct H as [Hall Hbest]. cbn [fst]. split.
  - split.
    + intros ->. intros t Ht. apply In_nth_error in Ht. destruct Ht as [j Hj].
      rewrite <- Hbest. exact (Hall j t Hj).
    + intros Hfar. destruct best as [i|]; [|reflexivity].
      destruct Hbest as (t & Ht & Hd & Hlt & _).
      apply nth_error_In in Ht. specialize (Hfar t Ht). lra.
  - intros i ->. destruct Hbest as (t & Ht & Hd & Hlt & Hfirst).
    exists t. split; [exact Ht|]. rewrite Hd. split; [exact Hlt|].
    split; [exact Hall|exact Hfirst].
Qed.

(** ** The tracker: what every track keeps *)

Module PreserveFacts.
Import MeetingGuardian TrackerSpec TrackSpec ListFacts MatchFacts MatchLoop
  CreateLoop FrameFacts.

Section Preserved.
Variable now : Z.
Variables P P' : TrackedFace.t -> Prop.
Hypothesis P_age : forall t, P t -> P' (age t).
Hypothesis P_update : forall t d, P' t -> P' (updateTrack now t d).
Hypothesis P_new : forall n d, P' (newTrack now n d).

Lemma matchOne_preserves tracks visited d :
  Forall P' tracks -> Forall P' (fst (matchOne now (tracks, visited) d)).
Proof.
  intros Ht. unfold matchOne.
  destruct (findBestMatch tracks d) as [best|]; [|exact Ht].
  destruct (nth_error tracks best) as [t|] eqn:E; [|exact Ht].
  cbn [fst]. apply setAt_Forall; [exact Ht|]. apply P_update.
  rewrite Forall_forall in Ht. apply Ht. eapply nth_error_In; exact E.
Qed.

Lemma matchLoop_preserves ds : forall tracks visited,
  Forall P' tracks ->
  Forall P' (fst (fold_left (matchOne now) ds (tracks, visited))).
Proof.
  induction ds as [|d ds IH]; intros tracks visited Ht; [exact Ht|].
  cbn [fold_left].
  pose proof (matchOne_preserves tracks visited d Ht) as H1.
  destruct (matchOne now (tracks, visited) d) as [tracks1 visited1].
  now apply IH.
Qed.

Lemma created_preserves ds : forall n, Forall P' (created now n ds).
Proof.
  induction ds as [|d ds IH]; intros n; [constructor|].
  cbn [created]. destruct (negb (DetectedObject.matched d));
    [constructor|]; auto.
Qed.

Lemma frame_preserves refs dets :
  Forall P (trackedFacesRef refs) ->
  Forall P' (trackedFacesRef (fst (analyzeFrame refs now dets))).
Proof.
  intros Hok. rewrite analyzeFrame_refs, afterCreation_eq.
  cbn [fst trackedFacesRef]. unfold prune.
  apply Forall_forall. intros t Ht. apply filter_In in Ht.
  destruct Ht as [Ht _]. apply in_app_or in Ht. destruct Ht as [Ht|Ht].
  - assert (Hm : Forall P' (fst (afterMatching refs now dets))).
    { unfold afterMatching, matchAll. apply matchLoop_preserves.
      apply Forall_forall. intros a Ha. apply in_map_iff in Ha.
      destruct Ha as (t0 & <- & Ht0). rewrite Forall_forall in Hok.
      apply P_age, Hok, Ht0. }
    rewrite Forall_forall in Hm. now apply Hm.
  - pose proof (created_preserves (snd (afterMatching refs now dets))
                  (nextPersonIdRef refs)) as Hc.
    rewrite Forall_forall in Hc. now apply Hc.
Qed.
End Preserved.

(** An invariant of single tracks that ageing and updating keep and new
    tracks satisfy holds of every track of every session. *)
Lemma session_preserves (P : TrackedFace.t -> Prop) :
  (forall t, P t -> P (age t)) ->
  (forall now t d, P t -> P (updateTrack now t d)) ->
  (forall now n d, P (newTrack now n d)) ->
  forall events, Forall P (trackedFacesRef (session events)).
Proof.
  intros Hage Hupd Hnew events. unfold session.
  assert (H0 : Forall P (trackedFacesRef initialRefs)) by constructor.
  revert H0. generalize initialRefs.
  induction events as [|e events IH]; intros refs H; [exact H|].
  cbn [fold_left]. apply IH. destruct e as [now dets|]; cbn [step].
  - apply (frame_preserves now P P); auto.
  - constructor.
Qed.

Lemma pushHistory_length h e :
  length (pushHistory h e)
  = if (30 <? S (length h))%nat then length h else S (length h).
Proof.
  unfold pushHistory. rewrite length_app, Nat.add_1_r. cbn [length].
  destruct (30 <? S (length h))%nat; [|now rewrite length_app, Nat.add_1_r].
  destruct h; cbn; [reflexivity|]. now rewrite length_app, Nat.add_1_r.
Qed.

Lemma history_ok_update now t d : history_ok t -> history_ok (updateTrack now t d).
Proof.
  unfold history_ok. cbn [updateTrack TrackedFace.history].
  rewrite pushHistory_length. intros [H1 H2].
  destruct (30 <? S (length (TrackedFace.history t)))%nat eqn:E.
  - lia.
  - apply Nat.ltb_ge in E. lia.
Qed.

End PreserveFacts.

(** X12. At every point of a session every track's history holds at
    least one entry and at most thirty. *)
Theorem X12_history_between_one_and_thirty (events : list MeetingGuardian.event) :
  Forall TrackSpec.history_ok
         (MeetingGuardian.trackedFacesRef (MeetingGuardian.session events)).
Proof.
  apply PreserveFacts.session_preserves.
  - intros t H; exact H.
  - intros now t d. apply PreserveFacts.history_ok_update.
  - intros now n d. unfold TrackSpec.history_ok. cbn. lia.
Qed.

Module ChronoFacts.
Import MeetingGuardian TrackerSpec TrackSpec PreserveFacts.

Lemma nondecreasing_snoc l : forall u,
  nondecreasing l -> Forall (fun v => (v <= u)%Z) l -> nondecreasing (l ++ [u]).
Proof.
  induction l as [|a l IH]; intros u Hl Hall; [exact I|].
  inversion Hall as [|? ? Ha Hrest]; subst.
  destruct l as [|b l]; [cbn; split; [exact Ha|exact I]|].
  destruct Hl as [Hab Hl]. cbn [app nondecreasing]. split; [exact Hab|].
  exact (IH u Hl Hrest).
Qed.

Lemma nondecreasing_tl l : nondecreasing l -> nondecreasing (tl l).
Proof.
  destruct l as [|a [|b l]]; cbn; auto. intros [_ H]; exact H.
Qed.

Lemma timed_mono T T' t : (T <= T')%Z -> timed T t -> timed T' t.
Proof.
  intros Hle [Hs Hall]. split; [exact Hs|].
  eapply Forall_impl; [|exact Hall]. cbn. intros; lia.
Qed.

Lemma timed_update now t d : timed now t -> timed now (updateTrack now t d).
Proof.
  intros [Hs Hall]. unfold timed, historyTimes in *.
  cbn [updateTrack TrackedFace.history]. unfold pushHistory.
  set (e := FaceState.mk _ _ _ _ now).
  assert (Hs' : nondecreasing (map FaceState.time (TrackedFace.history t ++ [e]))).
  { rewrite map_app. cbn [map]. now apply nondecreasing_snoc. }
  assert (Hall' : Forall (fun u => (u <= now)%Z)
                    (map FaceState.time (TrackedFace.history t ++ [e]))).
  { rewrite map_app. apply Forall_app. split; [exact Hall|].
    constructor; [cbn; lia|constructor]. }
  destruct (30 <? length (TrackedFace.history t ++ [e]))%nat; [|now split].
  assert (Htl : map FaceState.time (tl (TrackedFace.history t ++ [e]))
                = tl (map FaceState.time (TrackedFace.history t ++ [e])))
    by (destruct (TrackedFace.history t ++ [e]); reflexivity).
  rewrite Htl. split; [now apply nondecreasing_tl|].
  destruct (map FaceState.time (TrackedFace.history t ++ [e])); [constructor|].
  now inversion Hall'.
Qed.

Lemma timed_new now n d : timed now (newTrack now n d).
Proof.
  split; cbn; [exact I|]. constructor; [lia|constructor].
Qed.

Lemma steps_timed events : forall t0 refs,
  chronological t0 events ->
  Forall (timed t0) (trackedFacesRef refs) ->
  Forall (timed (lastFrameTime t0 events))
         (trackedFacesRef (fold_left step events refs)).
Proof.
  induction events as [|e events IH]; intros t0 refs Hc Hok; [exact Hok|].
  destruct e as [now dets|]; cbn [fold_left step lastFrameTime chronological] in *.
  - destruct Hc as [Hle Hc]. apply IH; [exact Hc|].
    apply (frame_preserves now (timed t0) (timed now)); [| | |exact Hok].
    + intros t Ht. apply (timed_mono t0 now); [exact Hle|exact Ht].
    + intros t d. apply timed_update.
    + intros n d. apply timed_new.
  - apply IH; [exact Hc|constructor].
Qed.

End ChronoFacts.

(** X13. When the frames of a session arrive with times that never go
    back, the history of every track is in time order, oldest entry first,
    and none of its entries is later than the last frame. *)
Theorem X13_history_in_time_order
    (t0 : Z) (events : list MeetingGuardian.event) :
  TrackSpec.chronological t0 events ->
  Forall (TrackSpec.timed (TrackSpec.lastFrameTime t0 events))
         (MeetingGuardian.trackedFacesRef (MeetingGuardian.session events)).
Proof.
  intros H. apply ChronoFacts.steps_timed; [exact H|constructor].
Qed.

(** X13 (witness): the same face seen at times 10 and 20. *)
Lemma X13_witness :
  Forall (TrackSpec.timed 20)
         (MeetingGuardian.trackedFacesRef
            (MeetingGuardian.session
               [MeetingGuardian.Frame 10 [TrackerExamples.face];
                MeetingGuardian.Frame 20 [TrackerExamples.face]])).
Proof.
  apply (X13_history_in_time_order 0
           [MeetingGuardian.Frame 10 [TrackerExamples.face];
            MeetingGuardian.Frame 20 [TrackerExamples.face]]).
  cbn. lia.
Defined.

(** ** The tracker: empty frames, first frames, counts *)

Module CountFacts.
Import MeetingGuardian TrackerSpec TrackSpec ListFacts MatchFacts MatchLoop
  CreateLoop FrameFacts.

Lemma frame_empty refs now :
  fst (analyzeFrame refs now [])
  = {| trackedFacesRef := prune (map age (trackedFacesRef refs));
       nextPersonIdRef := nextPersonIdRef refs |}.
Proof.
  rewrite analyzeFrame_refs, afterCreation_eq. cbn.
  rewrite app_nil_r, Z.add_0_r. reflexivity.
Qed.

Lemma empty_frames_age fs : forall refs m,
  Forall (fun f => snd f = []) fs ->
  (forall t, In t (trackedFacesRef refs) -> (m <= TrackedFace.missingFrames t)%nat) ->
  nextPersonIdRef (frames refs fs) = nextPersonIdRef refs /\
  forall t, In t (trackedFacesRef (frames refs fs)) ->
            (m + length fs <= TrackedFace.missingFrames t)%nat /\
            (fs <> [] -> (TrackedFace.missingFrames t <= MAX_MISSING_FRAMES)%nat).
Proof.
  induction fs as [|[now dets] fs IH]; intros refs m Hall Hm.
  - split; [reflexivity|]. intros t Ht. cbn in *. split; [|congruence].
    specialize (Hm t Ht). lia.
  - inversion Hall as [|? ? Hd Hrest]; subst. cbn [snd] in Hd. subst dets.
    unfold frames in *. cbn [fold_left fst snd].
    destruct (IH (fst (analyzeFrame refs now [])) (S m) Hrest) as [Hn Hage].
    + intros t Ht. rewrite frame_empty in Ht. cbn [trackedFacesRef] in Ht.
      apply prune_In in Ht. destruct Ht as [Ht _].
      apply in_map_iff in Ht. destruct Ht as (t0 & <- & Ht0).
      specialize (Hm t0 Ht0). cbn. lia.
    + split; [rewrite Hn, frame_empty; reflexivity|].
      intros t Ht. destruct (Hage t Ht) as [H1 H2]. split; [cbn [length]; lia|].
      intros _. destruct fs as [|f fs]; [|apply H2; discriminate].
      cbn [fold_left] in Ht. eapply RetireFacts.frame_pruned; exact Ht.
Qed.

Lemma matchLoop_no_tracks now ds : forall visited,
  fold_left (matchOne now) ds ([], visited) = ([], visited ++ ds).
Proof.
  induction ds as [|d ds IH]; intros visited; cbn [fold_left].
  - now rewrite app_nil_r.
  - unfold matchOne at 2. cbn. rewrite IH, <- app_assoc. reflexivity.
Qed.

Lemma prune_all tracks :
  Forall (fun t => TrackedFace.missingFrames t = 0%nat) tracks ->
  prune tracks = tracks.
Proof.
  induction 1 as [|t tracks Ht _ IH]; [reflexivity|].
  unfold prune in *. cbn [filter]. rewrite Ht, IH. reflexivity.
Qed.

Lemma created_fresh now dets : forall n,
  ids (created now n (detectedObjectsOf dets)) = zseq n (length dets) /\
  Forall2 (bornFrom now) dets (created now n (detectedObjectsOf dets)).
Proof.
  induction dets as [|d dets IH]; intros n; [split; [reflexivity|constructor]|].
  cbn [detectedObjectsOf map created]. cbn [negb toDetectedObject DetectedObject.matched].
  destruct (IH (n + 1)%Z) as [Hids Hborn]. split.
  - unfold ids in *. cbn [map length zseq]. f_equal. exact Hids.
  - constructor; [|exact Hborn]. unfold bornFrom. cbn. repeat split.
Qed.

Lemma created_length now os : forall n,
  length (created now n os)
  = length (filter (fun o => negb (DetectedObject.matched o)) os).
Proof.
  induction os as [|o os IH]; intros n; [reflexivity|].
  cbn [created filter]. destruct (negb (DetectedObject.matched o)); cbn [length];
    now rewrite IH.
Qed.

Lemma zseq_length k : forall n, length (zseq n k) = k.
Proof. induction k; intros; cbn; auto. Qed.

Lemma prune_length tracks : (length (prune tracks) <= length tracks)%nat.
Proof. unfold prune. apply filter_length_le. Qed.

Lemma Forall2_length' {A B} (P : A -> B -> Prop) l l' :
  Forall2 P l l' -> length l = length l'.
Proof. induction 1; cbn; congruence. Qed.

End CountFacts.

(** X14. More than MAX_MISSING_FRAMES frames in a row without
    detections leave no track at all, whatever the track set was, while
    the identity counter keeps its value. *)
Theorem X14_empty_frames_clear_all_tracks
    (refs : MeetingGuardian.Refs) (fs : list (Z * list FaceDetection.t)) :
  Forall (fun f => snd f = []) fs ->
  (MeetingGuardian.MAX_MISSING_FRAMES < length fs)%nat ->
  MeetingGuardian.trackedFacesRef (TrackerSpec.frames refs fs) = [] /\
  MeetingGuardian.nextPersonIdRef (TrackerSpec.frames refs fs)
  = MeetingGuardian.nextPersonIdRef refs.
Proof.
  intros Hall Hlen.
  destruct (CountFacts.empty_frames_age fs refs 0 Hall
              (fun t _ => Nat.le_0_l _)) as [Hn Hage].
  split; [|exact Hn].
  destruct (MeetingGuardian.trackedFacesRef (TrackerSpec.frames refs fs))
    as [|t rest] eqn:E; [reflexivity|].
  exfalso. destruct (Hage t (or_introl eq_refl)) as [H1 H2].
  assert (Hne : fs <> []) by (intros ->; cbn in Hlen; lia).
  specialize (H2 Hne). lia.
Qed.

(** X14 (witness): a session with one track, then six empty frames. *)
Lemma X14_witness :
  let refs := MeetingGuardian.session
                [MeetingGuardian.Frame 0 [TrackerExamples.face]] in
  let fs := TrackerExamples.emptyFrames ++ [(6%Z, [])] in
  MeetingGuardian.trackedFacesRef (TrackerSpec.frames refs fs) = [] /\
  MeetingGuardian.nextPersonIdRef (TrackerSpec.frames refs fs)
  = MeetingGuardian.nextPersonIdRef refs.
Proof.
  apply X14_empty_frames_clear_all_tracks.
  - repeat constructor.
  - cbn. unfold MeetingGuardian.MAX_MISSING_FRAMES. lia.
Defined.

(** X15. On an empty track set a frame creates one track per detection,
    in detection order, with the consecutive identities that start at the
    counter; each track takes the box and the raw metrics of its
    detection, a missing-counter of 0, a one-entry history and the
    detection's width and y as baseline, and the counter advances by the
    number of detections. *)
Theorem X15_first_frame_creates_one_track_per_detection
    (refs : MeetingGuardian.Refs) (now : Z) (dets : list FaceDetection.t) :
  MeetingGuardian.trackedFacesRef refs = [] ->
  let refs' := fst (MeetingGuardian.analyzeFrame refs now dets) in
  TrackerSpec.ids (MeetingGuardian.trackedFacesRef refs')
  = TrackerSpec.zseq (MeetingGuardian.nextPersonIdRef refs) (length dets) /\
  Forall2 (TrackSpec.bornFrom now) dets (MeetingGuardian.trackedFacesRef refs') /\
  MeetingGuardian.nextPersonIdRef refs'
  = (MeetingGuardian.nextPersonIdRef refs + Z.of_nat (length dets))%Z.
Proof.
  intros Hempty refs'. unfold refs'.
  rewrite FrameFacts.analyzeFrame_refs, FrameFacts.afterCreation_eq.
  cbn [fst MeetingGuardian.trackedFacesRef MeetingGuardian.nextPersonIdRef].
  unfold MeetingGuardian.afterMatching, MeetingGuardian.matchAll.
  rewrite Hempty. cbn [map].
  rewrite CountFacts.matchLoop_no_tracks. cbn [fst snd app].
  destruct (CountFacts.created_fresh now dets (MeetingGuardian.nextPersonIdRef refs))
    as [Hids Hborn].
  rewrite CountFacts.prune_all.
  - split; [exact Hids|]. split; [exact Hborn|].
    assert (Hlen : length (TrackerSpec.created now
                             (MeetingGuardian.nextPersonIdRef refs)
                             (MeetingGuardian.detectedObjectsOf dets))
                   = length dets).
    { rewrite <- (length_map TrackedFace.id).
      change (map TrackedFace.id ?l) with (TrackerSpec.ids l).
      rewrite Hids. apply CountFacts.zseq_length. }
    now rewrite Hlen.
  - apply Forall_forall. intros t Ht.
    eapply CreateLoop.created_missing; exact Ht.
Qed.

(** X15 (witness): two faces on the initial, empty track set. *)
Lemma X15_witness :
  let refs' := fst (MeetingGuardian.analyzeFrame MeetingGuardian.initialRefs 0
                      [TrackerExamples.face; TrackerExamples.neighbour]) in
  TrackerSpec.ids (MeetingGuardian.trackedFacesRef refs') = [1%Z; 2%Z] /\
  Forall2 (TrackSpec.bornFrom 0)
          [TrackerExamples.face; TrackerExamples.neighbour]
          (MeetingGuardian.trackedFacesRef refs') /\
  MeetingGuardian.nextPersonIdRef refs' = 3%Z.
Proof.
  exact (X15_first_frame_creates_one_track_per_detection
           MeetingGuardian.initialRefs 0
           [TrackerExamples.face; TrackerExamples.neighbour] eq_refl).
Defined.

(** X16. In a frame the identity counter advances by exactly the number
    of detections the matching loop left unmatched, which is at most the
    number of detections, and the track set grows by at most that
    number. *)
Theorem X16_frame_counts
    (refs : MeetingGuardian.Refs) (now : Z) (dets : list FaceDetection.t) :
  let objects := snd (MeetingGuardian.afterMatching refs now dets) in
  let unmatched :=
    filter (fun o => negb (DetectedObject.matched o)) objects in
  let refs' := fst (MeetingGuardian.analyzeFrame refs now dets) in
  length objects = length dets /\
  MeetingGuardian.nextPersonIdRef refs'
  = (MeetingGuardian.nextPersonIdRef refs + Z.of_nat (length unmatched))%Z /\
  (length unmatched <= length dets)%nat /\
  (length (MeetingGuardian.trackedFacesRef refs')
   <= length (MeetingGuardian.trackedFacesRef refs) + length unmatched)%nat.
Proof.
  intros objects unmatched refs'.
  destruct (MatchLoop.afterMatching_spec refs now dets) as (Hfrom & Hev & _).
  assert (Hlen : length objects = length dets).
  { apply CountFacts.Forall2_length' in Hfrom.
    unfold MeetingGuardian.detectedObjectsOf in Hfrom.
    rewrite length_map in Hfrom. symmetry. exact Hfrom. }
  assert (Hm : length (fst (MeetingGuardian.afterMatching refs now dets))
               = length (MeetingGuardian.trackedFacesRef refs)).
  { apply CountFacts.Forall2_length' in Hev. rewrite length_map in Hev.
    symmetry. exact Hev. }
  split; [exact Hlen|]. unfold refs'.
  rewrite FrameFacts.analyzeFrame_refs, FrameFacts.afterCreation_eq.
  cbn [fst MeetingGuardian.trackedFacesRef MeetingGuardian.nextPersonIdRef].
  fold objects. rewrite CountFacts.created_length. fold unmatched.
  split; [reflexivity|]. split.
  - rewrite <- Hlen. apply filter_length_le.
  - etransitivity; [apply CountFacts.prune_length|].
    rewrite length_app, Hm, CountFacts.created_length. fold unmatched. lia.
Qed.

Module LinkFacts.
Import MeetingGuardian TrackerSpec ListFacts MatchFacts MatchLoop CreateLoop
  FrameFacts.

Lemma created_tagged now ds : forall n t,
  In t (created now n ds) ->
  In (Some (TrackedFace.id t)) (trackIds (tagged n ds)).
Proof.
  induction ds as [|d ds IH]; intros n t Hin; [contradiction|].
  cbn [created tagged] in *. destruct (negb (DetectedObject.matched d)).
  - destruct Hin as [<-|Hin]; [now left|right; eauto].
  - right; eauto.
Qed.

Lemma tagged_keeps ds : forall n i,
  Forall (fun o => DetectedObject.matched o = false ->
                   DetectedObject.trackId o = None) ds ->
  In (Some i) (trackIds ds) -> In (Some i) (trackIds (tagged n ds)).
Proof.
  induction ds as [|d ds IH]; intros n i Hs Hin; [contradiction|].
  inversion Hs as [|? ? Hd Hds]; subst.
  cbn [tagged]. destruct (DetectedObject.matched d) eqn:Em; cbn [negb].
  - destruct Hin as [Hin|Hin]; [now left|right; eauto].
  - destruct Hin as [Hin|Hin]; [|right; eauto].
    cbn in Hin. rewrite (Hd eq_refl) in Hin; discriminate.
Qed.

Lemma afterMatching_settled refs now dets :
  Forall (fun o => DetectedObject.matched o = false ->
                   DetectedObject.trackId o = None)
         (snd (afterMatching refs now dets)).
Proof.
  destruct (afterMatching_spec refs now dets) as (Hfrom & _).
  apply Forall_forall. intros o Ho.
  destruct (Forall2_In_r _ _ _ _ Hfrom Ho) as (d & Hd & [->|(i & _ & ->)]).
  - intros _. apply in_map_iff in Hd. destruct Hd as (d0 & <- & _). reflexivity.
  - discriminate.
Qed.

(** A track that ends a frame with counter 0 is the track of one of the
    frame's detections. *)
Lemma zero_is_linked refs now dets t :
  In t (trackedFacesRef (fst (analyzeFrame refs now dets))) ->
  TrackedFace.missingFrames t = 0%nat ->
  In (Some (TrackedFace.id t)) (trackIds (snd (afterCreation refs now dets))).
Proof.
  intros Hin Hzero.
  rewrite analyzeFrame_refs in Hin. cbn [trackedFacesRef] in Hin.
  apply prune_In in Hin. destruct Hin as [Hin _].
  rewrite afterCreation_eq in *. cbn [fst snd trackedFacesRef] in *.
  apply in_app_or in Hin. destruct Hin as [Hin|Hin].
  - destruct (afterMatching_spec refs now dets) as (_ & Hev & _).
    destruct (Forall2_In_r _ _ _ _ Hev Hin) as (a & Ha & Hat).
    apply in_map_iff in Ha. destruct Ha as (t0 & <- & Ht0).
    destruct Hat as [->|(Hid & _ & Hlinked)]; [discriminate Hzero|].
    apply tagged_keeps; [apply afterMatching_settled|].
    rewrite Hid. exact Hlinked.
  - eapply created_tagged; exact Hin.
Qed.

(** Every track identity carried by a detection at the end of a frame is
    that of a kept track with counter 0. *)
Lemma link_is_live refs now dets i :
  In (Some i) (trackIds (snd (afterCreation refs now dets))) ->
  exists t, In t (trackedFacesRef (fst (analyzeFrame refs now dets))) /\
            TrackedFace.id t = i /\ TrackedFace.missingFrames t = 0%nat.
Proof.
  intros Hlinked. unfold trackIds in Hlinked. apply in_map_iff in Hlinked.
  destruct Hlinked as (o & Ho & Hino).
  rewrite analyzeFrame_refs. rewrite afterCreation_eq in *.
  cbn [fst snd trackedFacesRef] in *.
  destruct (afterMatching_spec refs now dets) as (_ & _ & Hlink).
  pose proof (tagged_linked now (snd (afterMatching refs now dets))
                (nextPersonIdRef refs)) as Htag.
  destruct (Forall2_In_r _ _ _ _ Htag Hino)
    as (d' & Hd' & _ & [[_ ->]|(_ & t & Hin & Ht)]).
  - destruct (Hlink d' i Hd' Ho) as (t' & Hin' & Hid' & Hm').
    exists t'. split; [|split; assumption].
    apply prune_In. split; [apply in_or_app; now left|].
    rewrite Hm'. apply Nat.le_0_l.
  - exists t. rewrite Ho in Ht. injection Ht as ->.
    pose proof (created_missing _ _ _ _ Hin) as Hm.
    split; [|split; [reflexivity|exact Hm]].
    apply prune_In. split; [apply in_or_app; now right|].
    rewrite Hm. apply Nat.le_0_l.
Qed.

(** With distinct identities, the track of a detection ends the frame
    with counter 0. *)
Lemma linked_is_zero refs now dets t :
  NoDup (ids (trackedFacesRef (fst (analyzeFrame refs now dets)))) ->
  In t (trackedFacesRef (fst (analyzeFrame refs now dets))) ->
  In (Some (TrackedFace.id t)) (trackIds (snd (afterCreation refs now dets))) ->
  TrackedFace.missingFrames t = 0%nat.
Proof.
  intros Hnd Hin Hlinked.
  destruct (link_is_live refs now dets _ Hlinked) as (t' & Hin' & Hid' & Hz').
  assert (t = t'); [|now subst].
  clear - Hnd Hin Hin' Hid'. unfold ids in Hnd.
  induction (trackedFacesRef (fst (analyzeFrame refs now dets))) as [|a l IH];
    [contradiction|].
  inversion Hnd as [|? ? Hnot Hnd']; subst.
  destruct Hin as [->|Hin]; destruct Hin' as [->|Hin']; auto.
  - exfalso. apply Hnot. rewrite <- Hid'. now apply in_map.
  - exfalso. apply Hnot. rewrite Hid'. now apply in_map.
Qed.

End LinkFacts.

(** X17. After every frame of a session, a kept track has a
    missing-counter of 0 exactly when it is the track of one of that
    frame's detections, matched to it or created for it; every other kept
    track has a positive counter. *)
Theorem X17_counter_zero_iff_seen_this_frame
    (events : list MeetingGuardian.event) (now : Z)
    (dets : list FaceDetection.t) (t : TrackedFace.t) :
  let refs := MeetingGuardian.session events in
  In t (MeetingGuardian.trackedFacesRef
          (fst (MeetingGuardian.analyzeFrame refs now dets))) ->
  (TrackedFace.missingFrames t = 0%nat <->
   In (Some (TrackedFace.id t))
      (TrackerSpec.trackIds
         (snd (MeetingGuardian.afterCreation refs now dets)))).
Proof.
  intros refs Hin. split.
  - now apply LinkFacts.zero_is_linked.
  - apply LinkFacts.linked_is_zero; [|exact Hin].
    pose proof (FrameFacts.wf_frame refs now dets (FrameFacts.wf_session events))
      as (_ & Hnd & _).
    exact Hnd.
Qed.

(** X17 (witness): the track created for the only detection of a first
    frame. *)
Lemma X17_witness :
  let t := MeetingGuardian.newTrack 0 1
             (MeetingGuardian.toDetectedObject TrackerExamples.face) in
  TrackedFace.missingFrames t = 0%nat <->
  In (Some (TrackedFace.id t))
     (TrackerSpec.trackIds
        (snd (MeetingGuardian.afterCreation (MeetingGuardian.session []) 0
                [TrackerExamples.face]))).
Proof.
  apply (X17_counter_zero_iff_seen_this_frame [] 0 [TrackerExamples.face]).
  cbn. left. reflexivity.
Defined.

(** ** The classifier: window and motion *)

Module MotionFacts.
Import MeetingGuardian MotionSpec.

Lemma slice_last_app {T} (older recent : list T) n :
  length recent = n -> slice_last n (older ++ recent) = recent.
Proof.
  intros <-. unfold slice_last. rewrite length_app.
  replace (length older + length recent - length recent)%nat
    with (length older) by lia.
  rewrite skipn_app, skipn_all, Nat.sub_diag. reflexivity.
Qed.

Lemma at_stationary x0 y0 recent i :
  stationary x0 y0 recent -> (i < length recent)%nat ->
  FaceState.x (at_ recent i) = x0 /\ FaceState.y (at_ recent i) = y0.
Proof.
  intros H Hi. unfold stationary in H. rewrite Forall_forall in H.
  apply H. unfold at_. now apply nth_In.
Qed.

Lemma fold_fixed {A B} (f : A -> B -> A) (l : list B) (acc : A) :
  (forall i, In i l -> f acc i = acc) -> fold_left f l acc = acc.
Proof.
  induction l as [|i l IH]; intros H; [reflexivity|].
  cbn [fold_left]. rewrite (H i (or_introl eq_refl)).
  apply IH. intros j Hj. apply H. now right.
Qed.

Lemma moves_stationary x0 y0 recent :
  stationary x0 y0 recent -> moves recent = (0, 0).
Proof.
  intros H. unfold moves. apply fold_fixed. intros i Hi.
  apply in_seq in Hi.
  destruct (at_stationary x0 y0 recent i H) as [Hx Hy]; [lia|].
  destruct (at_stationary x0 y0 recent (i - 1) H) as [Hx' Hy']; [lia|].
  rewrite Hx, Hy, Hx', Hy'. unfold Js.Math_abs.
  replace (x0 - x0) with 0 by lra. replace (y0 - y0) with 0 by lra.
  rewrite Rabs_R0. f_equal; lra.
Qed.

Lemma reverses_zero d : reverses 0 d = false.
Proof.
  unfold reverses, Js.gtb.
  rewrite (proj2 (JsFacts.ltb_false 0 0)) by lra.
  rewrite andb_false_l. reflexivity.
Qed.

Lemma reversals_stationary x0 y0 recent :
  stationary x0 y0 recent -> reversals recent = (0%nat, 0%nat).
Proof.
  intros H. unfold reversals.
  destruct (4 <=? length recent)%nat; [|reflexivity].
  apply fold_fixed. intros i Hi. apply in_seq in Hi.
  destruct (at_stationary x0 y0 recent i H) as [Hx Hy]; [lia|].
  destruct (at_stationary x0 y0 recent (i - 1) H) as [Hx' Hy']; [lia|].
  rewrite Hx, Hy, Hx', Hy'.
  replace (x0 - x0) with 0 by lra. replace (y0 - y0) with 0 by lra.
  rewrite !reverses_zero. reflexivity.
Qed.

End MotionFacts.

(** X18. The classifier looks at the five most recent history entries
    only: once a history ends with a given five entries, whatever came
    before them does not change the label. *)
Theorem X18_classifier_reads_last_five
    (metrics : Metrics.t) (currentBox : Box.t)
    (older recent : list FaceState.t) (baseline : Baseline.t) :
  length recent = 5%nat ->
  MeetingGuardian.determineBodyLanguage metrics currentBox (older ++ recent)
    baseline
  = MeetingGuardian.determineBodyLanguage metrics currentBox recent baseline.
Proof.
  intros Hlen. unfold MeetingGuardian.determineBodyLanguage.
  rewrite (MotionFacts.slice_last_app older recent 5 Hlen).
  rewrite (ClassifierFacts.slice_last_short 5 recent) by lia.
  rewrite length_app, Hlen.
  replace (length older + 5 <? 3)%nat with false
    by (symmetry; apply Nat.ltb_ge; lia).
  reflexivity.
Qed.

(** X18 (witness): five resting entries after the swinging ones. *)
Lemma X18_witness :
  MeetingGuardian.determineBodyLanguage ClassifierExamples.tense
    ClassifierExamples.close (ClassifierExamples.swing ++ MotionSpec.still5)
    ClassifierExamples.resting
  = MeetingGuardian.determineBodyLanguage ClassifierExamples.tense
      ClassifierExamples.close MotionSpec.still5 ClassifierExamples.resting.
Proof.
  apply X18_classifier_reads_last_five. reflexivity.
Defined.

(** X19. A face whose centre did not move over the recent window is
    never labelled "Fidgeting", "Nodding" or "Head Shaking", whatever its
    metrics, box and baseline. *)
Theorem X19_still_face_has_no_motion_label
    (metrics : Metrics.t) (currentBox : Box.t)
    (history : list FaceState.t) (baseline : Baseline.t) (x0 y0 : R) :
  MotionSpec.stationary x0 y0 (MeetingGuardian.slice_last 5 history) ->
  let label :=
    MeetingGuardian.determineBodyLanguage metrics currentBox history baseline in
  label <> "Fidgeting"%string /\ label <> "Nodding"%string /\
  label <> "Head Shaking"%string.
Proof.
  intros Hst label. unfold label, MeetingGuardian.determineBodyLanguage.
  destruct (length history <? 3)%nat; [repeat split; discriminate|].
  cbv zeta.
  unfold MeetingGuardian.avgMove, MeetingGuardian.verticalReversals,
    MeetingGuardian.horizontalReversals.
  rewrite (MotionFacts.moves_stationary x0 y0 _ Hst).
  rewrite (MotionFacts.reversals_stationary x0 y0 _ Hst).
  cbn [fst snd Nat.leb andb].
  replace ((0 + 0) / INR (length (MeetingGuardian.slice_last 5 history)))
    with 0 by (unfold Rdiv; lra).
  unfold Js.gtb at 1. rewrite (proj2 (JsFacts.ltb_false 15 0)) by lra.
  cbn [andb].
  repeat split;
    repeat match goal with
    | |- (if ?c then _ else _) <> _ => destruct c; [discriminate|]
    end; discriminate.
Qed.

(** X19 (witness): five entries resting at (125, 125), a tense face. *)
Lemma X19_witness :
  let label :=
    MeetingGuardian.determineBodyLanguage ClassifierExamples.tense
      ClassifierExamples.close MotionSpec.still5 ClassifierExamples.resting in
  label <> "Fidgeting"%string /\ label <> "Nodding"%string /\
  label <> "Head Shaking"%string.
Proof.
  apply (X19_still_face_has_no_motion_label _ _ _ _ 125 125).
  repeat constructor.
Defined.

(** ** Suggestions, logs and the audio handler *)

Module UiFacts.
Import MeetingGuardian TrackerSpec Ui.

Lemma slice_last_length {T} n (l : list T) :
  (length (slice_last n l) <= n)%nat.
Proof. unfold slice_last. rewrite length_skipn. lia. Qed.

(** [slice(-n)] drops a prefix, and only when more than [n] entries are
    there. *)
Lemma slice_last_suffix {T} n (l : list T) :
  exists dropped,
    l = dropped ++ slice_last n l /\
    (dropped = [] \/ length (slice_last n l) = n).
Proof.
  unfold slice_last. exists (firstn (length l - n) l).
  split; [now rewrite firstn_skipn|].
  destruct (Nat.le_gt_cases (length l) n) as [H|H].
  - left. replace (length l - n)%nat with 0%nat by lia. reflexivity.
  - right. rewrite length_skipn. lia.
Qed.

Lemma setSuggestions_length new prev :
  (length prev <= 10)%nat -> (length (setSuggestions new prev) <= 10)%nat.
Proof.
  intros H. unfold setSuggestions.
  destruct (0 <? length new)%nat; [|exact H].
  rewrite length_firstn. lia.
Qed.

Lemma newSuggestions_disabled tracks : newSuggestions false tracks = [].
Proof.
  unfold newSuggestions. induction tracks as [|t tracks IH]; [reflexivity|].
  cbn [flat_map]. rewrite IH. reflexivity.
Qed.

Lemma analyzeFrame_fst enabled refs ui now date time dets :
  fst (Ui.analyzeFrame enabled refs ui now date time dets)
  = fst (MeetingGuardian.analyzeFrame refs now dets).
Proof.
  unfold Ui.analyzeFrame.
  destruct (MeetingGuardian.analyzeFrame refs now dets); reflexivity.
Qed.

Lemma analyzeFrame_snd enabled refs ui now date time dets :
  snd (Ui.analyzeFrame enabled refs ui now date time dets)
  = let refs' := fst (MeetingGuardian.analyzeFrame refs now dets) in
    {| participants := emitted refs now dets;
       suggestions :=
         setSuggestions (newSuggestions enabled (trackedFacesRef refs'))
           (suggestions ui);
       logs := setLogs (currentLogs date time (trackedFacesRef refs')) (logs ui);
       toxicityEvents := toxicityEvents ui |}.
Proof.
  unfold Ui.analyzeFrame, emitted.
  destruct (MeetingGuardian.analyzeFrame refs now dets); reflexivity.
Qed.

Lemma act_suggestions s a :
  (length (suggestions (snd s)) <= 10)%nat ->
  (length (suggestions (snd (act s a))) <= 10)%nat.
Proof.
  intros H. destruct a as [enabled now date time dets|loaded now date time tr ps|];
    cbn [act].
  - rewrite analyzeFrame_snd. cbn. now apply setSuggestions_length.
  - cbn [snd]. unfold onresult. destruct loaded; [|exact H].
    destruct (0 <? length (detectedLabels ps))%nat; exact H.
  - exact H.
Qed.

Lemma play_suggestions actions :
  (length (suggestions (snd (play actions))) <= 10)%nat.
Proof.
  unfold play.
  assert (H0 : (length (suggestions (snd (initialRefs, initialState))) <= 10)%nat)
    by (cbn; lia).
  revert H0. generalize (initialRefs, initialState).
  induction actions as [|a actions IH]; intros s H; [exact H|].
  cbn [fold_left]. apply IH. now apply act_suggestions.
Qed.

Lemma currentLogs_participants date time tracks :
  map LogEntry.participant (currentLogs date time tracks)
  = map (fun t => personId (TrackedFace.id t))
        (filter (fun t => (TrackedFace.missingFrames t =? 0)%nat) tracks).
Proof.
  unfold currentLogs. induction tracks as [|t tracks IH]; [reflexivity|].
  cbn [flat_map filter]. rewrite map_app, IH. unfold logOf.
  destruct (TrackedFace.missingFrames t =? 0)%nat; reflexivity.
Qed.

End UiFacts.

(** X20. Whatever frames, recognised utterances and stops the component
    goes through, the suggestion list never holds more than ten texts. *)
Theorem X20_suggestions_at_most_ten (actions : list Ui.action) :
  (length (Ui.suggestions (snd (Ui.play actions))) <= 10)%nat.
Proof. apply UiFacts.play_suggestions. Qed.

(** X21. A frame appends its log entries to the log and keeps the newest
    fifty: afterwards the log holds at most fifty entries, it is what is
    left of the old log followed by the frame's entries once the oldest
    ones are dropped, and nothing is dropped unless fifty remain. *)
Theorem X21_frame_keeps_newest_fifty_log_entries
    (enabled : bool) (refs : MeetingGuardian.Refs) (ui : Ui.State)
    (now : Z) (date time : string) (dets : list FaceDetection.t) :
  let refs' := fst (MeetingGuardian.analyzeFrame refs now dets) in
  let ui' := snd (Ui.analyzeFrame enabled refs ui now date time dets) in
  (length (Ui.logs ui') <= 50)%nat /\
  exists dropped,
    Ui.logs ui
    ++ Ui.currentLogs date time (MeetingGuardian.trackedFacesRef refs')
    = dropped ++ Ui.logs ui' /\
    (dropped = [] \/ length (Ui.logs ui') = 50%nat).
Proof.
  intros refs' ui'. unfold ui'. rewrite UiFacts.analyzeFrame_snd.
  cbn [Ui.logs]. unfold Ui.setLogs. fold refs'. split.
  - apply UiFacts.slice_last_length.
  - apply UiFacts.slice_last_suffix.
Qed.

(** X22. After any history of the component, a frame puts at most four
    new suggestions in front of the list, the last ones it produced, and
    cuts the list at ten; with suggestions disabled it leaves the list as
    it was. *)
Theorem X22_frame_adds_at_most_four_suggestions
    (actions : list Ui.action) (enabled : bool)
    (now : Z) (date time : string) (dets : list FaceDetection.t) :
  let s := Ui.play actions in
  let refs' := fst (MeetingGuardian.analyzeFrame (fst s) now dets) in
  let ui' := snd (Ui.analyzeFrame enabled (fst s) (snd s) now date time dets) in
  (exists skipped added,
     Ui.newSuggestions enabled (MeetingGuardian.trackedFacesRef refs')
     = skipped ++ added /\
     (length added <= 4)%nat /\
     Ui.suggestions ui' = firstn 10 (added ++ Ui.suggestions (snd s))) /\
  (enabled = false -> Ui.suggestions ui' = Ui.suggestions (snd s)).
Proof.
  intros s refs' ui'.
  pose proof (UiFacts.play_suggestions actions) as Hten. fold s in Hten.
  unfold ui'. rewrite UiFacts.analyzeFrame_snd. cbn [Ui.suggestions].
  fold refs'. split.
  - destruct (UiFacts.slice_last_suffix 4
                (Ui.newSuggestions enabled (MeetingGuardian.trackedFacesRef refs')))
      as (skipped & Hsplit & _).
    unfold Ui.setSuggestions.
    destruct (0 <? length (Ui.newSuggestions enabled
                             (MeetingGuardian.trackedFacesRef refs')))%nat eqn:E.
    + exists skipped, (MeetingGuardian.slice_last 4
                         (Ui.newSuggestions enabled
                            (MeetingGuardian.trackedFacesRef refs'))).
      split; [exact Hsplit|]. split; [apply UiFacts.slice_last_length|reflexivity].
    + apply Nat.ltb_ge in E.
      destruct (Ui.newSuggestions enabled (MeetingGuardian.trackedFacesRef refs'))
        as [|x l]; [|cbn in E; lia].
      exists [], []. split; [reflexivity|]. split; [cbn; lia|].
      cbn [app]. symmetry. apply firstn_all2. exact Hten.
  - intros ->. rewrite UiFacts.newSuggestions_disabled. reflexivity.
Qed.

(** X23. The log entries a frame writes name exactly the tracks its
    detections ended up with: "Person i" is logged by the frame if and only
    if some detection of the frame was matched to track i or had track i
    created for it.  Tracks that merely persisted are not logged. *)
Theorem X23_frame_logs_the_tracks_it_saw
    (refs : MeetingGuardian.Refs) (now : Z) (date time : string)
    (dets : list FaceDetection.t) (i : Z) :
  let refs' := fst (MeetingGuardian.analyzeFrame refs now dets) in
  In (MeetingGuardian.personId i)
     (map LogEntry.participant
        (Ui.currentLogs date time (MeetingGuardian.trackedFacesRef refs')))
  <->
  In (Some i)
     (TrackerSpec.trackIds (snd (MeetingGuardian.afterCreation refs now dets))).
Proof.
  intros refs'. rewrite UiFacts.currentLogs_participants. split.
  - intros Hin. apply in_map_iff in Hin. destruct Hin as (t & Hid & Ht).
    apply RetireFacts.personId_inj in Hid. subst i.
    apply filter_In in Ht. destruct Ht as [Ht Hz].
    apply Nat.eqb_eq in Hz. now apply LinkFacts.zero_is_linked.
  - intros Hlinked.
    destruct (LinkFacts.link_is_live refs now dets i Hlinked)
      as (t & Ht & Hid & Hz).
    apply in_map_iff. exists t. split; [now rewrite Hid|].
    apply filter_In. split; [exact Ht|]. now apply Nat.eqb_eq.
Qed.

Module AudioFacts.
Import Ui.

Lemma detectedLabels_In predictions l :
  In l (detectedLabels predictions) <->
  exists p, In p predictions /\ Prediction.label p = l /\
            Prediction.match_ p = Some true.
Proof.
  unfold detectedLabels. rewrite in_map_iff. split.
  - intros (p & Hl & Hp). apply filter_In in Hp. destruct Hp as [Hp Hm].
    exists p. split; [exact Hp|]. split; [exact Hl|].
    destruct (Prediction.match_ p) as [[|]|]; try discriminate. reflexivity.
  - intros (p & Hp & Hl & Hm). exists p. split; [exact Hl|].
    apply filter_In. split; [exact Hp|]. now rewrite Hm.
Qed.

End AudioFacts.

(** X24. The audio handler records an utterance only when the toxicity
    model is loaded and at least one prediction has [match] exactly
    [true] ([false] and [null] do not count); otherwise it leaves the state
    untouched.  When it records, it puts one event in front of the event
    list, carrying the matching labels in classifier order, and appends
    one "Audio" entry to the log without trimming it, so that the log
    grows by exactly one entry. *)
Theorem X24_audio_handler_records_matches_only
    (modelLoaded : bool) (ui : Ui.State) (now : Z) (date time : string)
    (transcript : string) (predictions : list Prediction.t) :
  let labels := Ui.detectedLabels predictions in
  let ui' := Ui.onresult modelLoaded ui now date time transcript predictions in
  (forall l, In l labels <->
             exists p, In p predictions /\ Prediction.label p = l /\
                       Prediction.match_ p = Some true) /\
  (modelLoaded = false \/ labels = [] -> ui' = ui) /\
  (modelLoaded = true -> labels <> [] ->
   Ui.toxicityEvents ui'
   = ToxicityEvent.mk now time transcript labels :: Ui.toxicityEvents ui /\
   (exists entry,
      Ui.logs ui' = Ui.logs ui ++ [entry] /\
      LogEntry.participant entry = "Audio"%string /\
      LogEntry.badSign entry = "Yes"%string /\
      LogEntry.toxicLabels entry = String.concat "; " labels) /\
   length (Ui.logs ui') = S (length (Ui.logs ui)) /\
   Ui.suggestions ui' = Ui.suggestions ui /\
   Ui.participants ui' = Ui.participants ui).
Proof.
  intros labels ui'. split; [apply AudioFacts.detectedLabels_In|].
  unfold ui', Ui.onresult. fold labels. split.
  - intros [->|Hnil]; [reflexivity|]. rewrite Hnil.
    destruct modelLoaded; reflexivity.
  - intros -> Hne. destruct labels as [|l ls] eqn:E; [congruence|].
    cbn [length Nat.ltb Nat.leb]. cbn [Ui.toxicityEvents Ui.logs
      Ui.suggestions Ui.participants].
    split; [reflexivity|]. split.
    + eexists. split; [reflexivity|]. cbn. repeat split.
    + split; [|split; reflexivity].
      rewrite length_app. cbn. lia.
Qed.

(** X24 (witness): an insult flagged, a threat left undecided. *)
Lemma X24_witness :
  let predictions := [Prediction.mk "insult" (Some true);
                      Prediction.mk "threat" None;
                      Prediction.mk "obscene" (Some false)] in
  let ui' := Ui.onresult true Ui.initialState 7 "d" "t" "you fool" predictions in
  Ui.toxicityEvents ui' = [ToxicityEvent.mk 7 "t" "you fool" ["insult"%string]] /\
  length (Ui.logs ui') = 1%nat.
Proof.
  cbv zeta.
  pose proof (X24_audio_handler_records_matches_only true Ui.initialState 7
                "d" "t" "you fool"
                [Prediction.mk "insult" (Some true);
                 Prediction.mk "threat" None;
                 Prediction.mk "obscene" (Some false)]) as (_ & _ & H).
  destruct (H eq_refl ltac:(discriminate)) as (He & _ & Hl & _).
  split; [exact He|exact Hl].
Defined.

(** ** Meeting generation *)

Module MeetingFacts.
Import Meeting.

Lemma forallb_seq_at (f : nat -> bool) (n : nat) :
  forallb f (seq 0 n) = true -> forall k, (k < n)%nat -> f k = true.
Proof.
  intros H k Hk. rewrite forallb_forall in H. apply H, in_seq. lia.
Qed.

(** The numerals of 1000 .. 9999, checked one by one. *)
Lemma fourDigits_checked k :
  (k < Z.to_nat 9000)%nat -> fourDigits (1000 + Z.of_nat k) = true.
Proof.
  revert k.
  apply (forallb_seq_at (fun k => fourDigits (1000 + Z.of_nat k))
           (Z.to_nat 9000)).
  vm_compute. reflexivity.
Qed.

Lemma fourDigits_range z : (1000 <= z <= 9999)%Z -> fourDigits z = true.
Proof.
  intros Hz.
  assert (Hk : (Z.to_nat (z - 1000) < Z.to_nat 9000)%nat)
    by (apply Z2Nat.inj_lt; lia).
  pose proof (fourDigits_checked _ Hk) as H.
  rewrite Z2Nat.id in H by lia.
  replace (1000 + (z - 1000))%Z with z in H by ring.
  exact H.
Qed.

Lemma pin_range r : 0 <= r < 1 -> (1000 <= Zfloor (r * 9000 + 1000) <= 9999)%Z.
Proof.
  intros [H0 H1]. destruct (Zfloor_bound (r * 9000 + 1000)) as [Hl Hu].
  split.
  - apply Zfloor_lub. lra.
  - apply Z.lt_succ_r, lt_IZR. rewrite succ_IZR. lra.
Qed.

End MeetingFacts.

(** X25. Whatever the platform and the random identifier, when the
    random number drawn for the pin lies in [0,1), as [Math.random]
    promises, the generated pin is the numeral of a number between 1000
    and 9999: exactly four characters, all of them decimal digits. *)
Theorem X25_generated_pin_has_four_digits
    (platform : Meeting.Platform) (randId : string) (r2 r3 : R) :
  0 <= r3 < 1 ->
  let meeting := Meeting.handleGenerateMeeting platform randId r2 r3 in
  String.length (Meeting.pin meeting) = 4%nat /\
  Meeting.allDigits (Meeting.pin meeting) = true /\
  exists z, Meeting.pin meeting = Meeting.showInt z /\ (1000 <= z <= 9999)%Z.
Proof.
  intros Hr meeting. unfold meeting, Meeting.handleGenerateMeeting.
  cbn [Meeting.pin].
  pose proof (MeetingFacts.pin_range r3 Hr) as Hz.
  pose proof (MeetingFacts.fourDigits_range _ Hz) as Hf.
  unfold Meeting.fourDigits in Hf. apply andb_prop in Hf. destruct Hf as [Hl Hd].
  apply Nat.eqb_eq in Hl.
  split; [exact Hl|]. split; [exact Hd|].
  eexists. split; [reflexivity|exact Hz].
Qed.

(** X25 (witness): the draw 0.5 gives pin 5500. *)
Lemma X25_witness :
  let meeting := Meeting.handleGenerateMeeting Meeting.Zoom "k3x9q0aab" 0.25 0.5 in
  String.length (Meeting.pin meeting) = 4%nat /\
  Meeting.allDigits (Meeting.pin meeting) = true /\
  exists z, Meeting.pin meeting = Meeting.showInt z /\ (1000 <= z <= 9999)%Z.
Proof.
  apply (X25_generated_pin_has_four_digits Meeting.Zoom "k3x9q0aab" 0.25 0.5).
  lra.
Defined.

(** ** The distance used for matching *)

Module DistanceFacts.
Import MeetingGuardian.

Lemma squares_nonneg a b : 0 <= a ^ 2 + b ^ 2.
Proof. nra. Qed.

Lemma getDistance_nonneg x1 y1 x2 y2 : 0 <= getDistance x1 y1 x2 y2.
Proof. unfold getDistance, Js.Math_sqrt. apply sqrt_pos. Qed.

Lemma getDistance_sqr x1 y1 x2 y2 :
  getDistance x1 y1 x2 y2 * getDistance x1 y1 x2 y2
  = (x2 - x1) ^ 2 + (y2 - y1) ^ 2.
Proof.
  unfold getDistance, Js.Math_sqrt, Js.Math_pow2.
  apply sqrt_sqrt, squares_nonneg.
Qed.

Lemma le_of_squares u v : 0 <= u -> 0 <= v -> u * u <= v * v -> u <= v.
Proof. intros Hu Hv H. nra. Qed.

End DistanceFacts.

(** X26. The centre distance used for matching is a metric on the plane:
    it is never negative, it is 0 exactly for equal points, it does not
    depend on the order of the two points, it obeys the triangle
    inequality, and it is at least the offset along either axis. *)
Theorem X26_getDistance_is_a_metric (x1 y1 x2 y2 x3 y3 : R) :
  0 <= MeetingGuardian.getDistance x1 y1 x2 y2 /\
  (MeetingGuardian.getDistance x1 y1 x2 y2 = 0 <-> x1 = x2 /\ y1 = y2) /\
  MeetingGuardian.getDistance x1 y1 x2 y2
  = MeetingGuardian.getDistance x2 y2 x1 y1 /\
  MeetingGuardian.getDistance x1 y1 x3 y3
  <= MeetingGuardian.getDistance x1 y1 x2 y2
     + MeetingGuardian.getDistance x2 y2 x3 y3 /\
  Js.Math_abs (x2 - x1) <= MeetingGuardian.getDistance x1 y1 x2 y2 /\
  Js.Math_abs (y2 - y1) <= MeetingGuardian.getDistance x1 y1 x2 y2.
Proof.
  pose proof (DistanceFacts.getDistance_nonneg x1 y1 x2 y2) as H12.
  pose proof (DistanceFacts.getDistance_nonneg x2 y2 x3 y3) as H23.
  pose proof (DistanceFacts.getDistance_nonneg x1 y1 x3 y3) as H13.
  pose proof (DistanceFacts.getDistance_sqr x1 y1 x2 y2) as S12.
  pose proof (DistanceFacts.getDistance_sqr x2 y2 x3 y3) as S23.
  pose proof (DistanceFacts.getDistance_sqr x1 y1 x3 y3) as S13.
  split; [exact H12|]. split; [|split; [|split; [|split]]].
  - split.
    + intros H0. rewrite H0 in S12.
      pose proof (pow2_ge_0 (x2 - x1)) as Px.
      pose proof (pow2_ge_0 (y2 - y1)) as Py.
      assert (Hx : (x2 - x1) ^ 2 = 0) by lra.
      assert (Hy : (y2 - y1) ^ 2 = 0) by lra.
      split; [assert (x2 - x1 = 0); [|lra]|assert (y2 - y1 = 0); [|lra]].
      * apply Rsqr_0_uniq. unfold Rsqr. lra.
      * apply Rsqr_0_uniq. unfold Rsqr. lra.
    + intros [-> ->]. unfold MeetingGuardian.getDistance, Js.Math_sqrt,
        Js.Math_pow2.
      replace ((x2 - x2) ^ 2 + (y2 - y2) ^ 2) with 0 by ring.
      apply sqrt_0.
  - unfold MeetingGuardian.getDistance, Js.Math_sqrt, Js.Math_pow2.
    f_equal. ring.
  - set (u := MeetingGuardian.getDistance x1 y1 x2 y2) in *.
    set (v := MeetingGuardian.getDistance x2 y2 x3 y3) in *.
    set (w := MeetingGuardian.getDistance x1 y1 x3 y3) in *.
    set (a := x2 - x1) in *. set (b := y2 - y1) in *.
    set (c := x3 - x2) in *. set (d := y3 - y2) in *.
    assert (E13 : w * w = (a + c) ^ 2 + (b + d) ^ 2).
    { rewrite S13. unfold a, b, c, d. ring. }
    assert (Hcs : a * c + b * d <= u * v).
    { destruct (Rle_dec (a * c + b * d) 0) as [Hneg|Hpos]; [nra|].
      apply DistanceFacts.le_of_squares; [lra|nra|].
      replace (u * v * (u * v)) with ((u * u) * (v * v)) by ring.
      rewrite S12, S23.
      pose proof (pow2_ge_0 (a * d - b * c)). nra. }
    apply DistanceFacts.le_of_squares; [exact H13|lra|].
    rewrite E13. nra.
  - unfold Js.Math_abs. apply DistanceFacts.le_of_squares;
      [apply Rabs_pos|exact H12|].
    rewrite S12. pose proof (pow2_ge_0 (y2 - y1)).
    replace (Rabs (x2 - x1) * Rabs (x2 - x1)) with ((x2 - x1) ^ 2); [lra|].
    rewrite <- Rabs_mult, Rabs_pos_eq by apply (Rle_0_sqr (x2 - x1)). ring.
  - unfold Js.Math_abs. apply DistanceFacts.le_of_squares;
      [apply Rabs_pos|exact H12|].
    rewrite S12. pose proof (pow2_ge_0 (x2 - x1)).
    replace (Rabs (y2 - y1) * Rabs (y2 - y1)) with ((y2 - y1) ^ 2); [lra|].
    rewrite <- Rabs_mult, Rabs_pos_eq by apply (Rle_0_sqr (y2 - y1)). ring.
Qed.

(** ** Tracks no detection was matched to *)

Module UnseenFacts.
Import MeetingGuardian TrackerSpec ListFacts MatchLoop CreateLoop FrameFacts.

(** A kept track whose counter is not 0 is an old track, aged. *)
Lemma unseen_aged refs now dets t' :
  In t' (trackedFacesRef (fst (analyzeFrame refs now dets))) ->
  TrackedFace.missingFrames t' <> 0%nat ->
  exists t, In t (trackedFacesRef refs) /\ t' = age t.
Proof.
  intros Hin Hpos.
  rewrite analyzeFrame_refs in Hin. cbn [trackedFacesRef] in Hin.
  apply prune_In in Hin. destruct Hin as [Hin _].
  rewrite afterCreation_eq in Hin. cbn [fst trackedFacesRef] in Hin.
  apply in_app_or in Hin. destruct Hin as [Hin|Hin].
  - destruct (afterMatching_spec refs now dets) as (_ & Hev & _).
    destruct (Forall2_In_r _ _ _ _ Hev Hin) as (a & Ha & Hat).
    apply in_map_iff in Ha. destruct Ha as (t & <- & Ht).
    destruct Hat as [->|(_ & Hzero & _)]; [|contradiction].
    exists t. split; [exact Ht|reflexivity].
  - exfalso. apply Hpos. eapply created_missing; exact Hin.
Qed.

End UnseenFacts.

(** X27. A track that a frame keeps without having matched a detection
    to it (its missing-counter is not 0 afterwards) is one of the tracks
    from before the frame with nothing changed but the counter: same
    identity, box, metrics, history, baseline and last-seen time, and a
    counter one higher, which is at most MAX_MISSING_FRAMES. *)
Theorem X27_unseen_track_only_ages
    (refs : MeetingGuardian.Refs) (now : Z) (dets : list FaceDetection.t)
    (t' : TrackedFace.t) :
  In t' (MeetingGuardian.trackedFacesRef
           (fst (MeetingGuardian.analyzeFrame refs now dets))) ->
  TrackedFace.missingFrames t' <> 0%nat ->
  exists t,
    In t (MeetingGuardian.trackedFacesRef refs) /\
    TrackedFace.id t' = TrackedFace.id t /\
    TrackedFace.box t' = TrackedFace.box t /\
    TrackedFace.metrics t' = TrackedFace.metrics t /\
    TrackedFace.history t' = TrackedFace.history t /\
    TrackedFace.baseline t' = TrackedFace.baseline t /\
    TrackedFace.lastSeen t' = TrackedFace.lastSeen t /\
    TrackedFace.missingFrames t' = S (TrackedFace.missingFrames t) /\
    (TrackedFace.missingFrames t' <= MeetingGuardian.MAX_MISSING_FRAMES)%nat.
Proof.
  intros Hin Hpos.
  destruct (UnseenFacts.unseen_aged refs now dets t' Hin Hpos) as (t & Ht & ->).
  exists t. repeat (split; [first [exact Ht|reflexivity]|]).
  rewrite FrameFacts.analyzeFrame_refs in Hin.
  cbn [MeetingGuardian.trackedFacesRef] in Hin.
  apply FrameFacts.prune_In in Hin. exact (proj2 Hin).
Qed.

(** X27 (witness): the track of a first frame, after a second frame
    without detections. *)
Lemma X27_witness :
  let refs := MeetingGuardian.session [MeetingGuardian.Frame 0 [TrackerExamples.face]] in
  let t' := MeetingGuardian.age
              (MeetingGuardian.newTrack 0 1
                 (MeetingGuardian.toDetectedObject TrackerExamples.face)) in
  exists t,
    In t (MeetingGuardian.trackedFacesRef refs) /\
    TrackedFace.id t' = TrackedFace.id t /\
    TrackedFace.box t' = TrackedFace.box t /\
    TrackedFace.metrics t' = TrackedFace.metrics t /\
    TrackedFace.history t' = TrackedFace.history t /\
    TrackedFace.baseline t' = TrackedFace.baseline t /\
    TrackedFace.lastSeen t' = TrackedFace.lastSeen t /\
    TrackedFace.missingFrames t' = S (TrackedFace.missingFrames t) /\
    (TrackedFace.missingFrames t' <= MeetingGuardian.MAX_MISSING_FRAMES)%nat.
Proof.
  apply (X27_unseen_track_only_ages
           (MeetingGuardian.session [MeetingGuardian.Frame 0 [TrackerExamples.face]])
           1 []).
  - cbn. left. reflexivity.
  - cbn. discriminate.
Defined.

(** ** The participant panel *)

Module PanelFacts.
Import MeetingGuardian TrackerSpec FrameFacts RetireFacts Ui PanelSpec.

Lemma onresult_participants modelLoaded ui now date time transcript predictions :
  participants (onresult modelLoaded ui now date time transcript predictions)
  = participants ui.
Proof.
  unfold onresult. destruct modelLoaded; [|reflexivity].
  destruct (0 <? length (detectedLabels predictions))%nat; reflexivity.
Qed.

Lemma act_inSync s a : inSync s -> inSync (act s a).
Proof.
  intros [Hwf Hsync]. destruct a; cbn [act].
  - split.
    + rewrite UiFacts.analyzeFrame_fst. now apply wf_frame.
    + rewrite UiFacts.analyzeFrame_fst, UiFacts.analyzeFrame_snd.
      cbn [participants]. apply emitted_ids.
  - split; [exact Hwf|]. cbn [fst snd].
    rewrite onresult_participants. exact Hsync.
  - split; [exact (wf_step (fst s) Stop Hwf)|reflexivity].
Qed.

Lemma play_inSync actions : inSync (play actions).
Proof.
  unfold play.
  assert (H : inSync (initialRefs, initialState)).
  { split; [|reflexivity]. split; [simpl; lia|].
    split; [constructor|intros i []]. }
  revert H. generalize (initialRefs, initialState).
  induction actions as [|a actions IH]; intros s H; [exact H|].
  cbn [fold_left]. apply IH, act_inSync, H.
Qed.

Lemma NoDup_map_personId l : NoDup l -> NoDup (map personId l).
Proof.
  induction 1 as [|i l Hnot _ IH]; [constructor|].
  cbn [map]. constructor; [|exact IH].
  intros Hin. apply in_map_iff in Hin. destruct Hin as (j & Hj & Hin).
  apply personId_inj in Hj. now subst.
Qed.

End PanelFacts.

(** X28. Whatever frames, recognised utterances and stops the component
    goes through, the participant list it renders names exactly the live
    tracks, in their order, and no two of its entries carry the same id:
    the cards of the panel, keyed by that id, never clash. *)
Theorem X28_panel_shows_live_tracks_with_distinct_ids
    (actions : list Ui.action) :
  let s := Ui.play actions in
  map ParticipantAnalysis.id (Ui.participants (snd s))
  = map MeetingGuardian.personId
        (TrackerSpec.ids (MeetingGuardian.trackedFacesRef (fst s))) /\
  NoDup (map ParticipantAnalysis.id (Ui.participants (snd s))).
Proof.
  intros s. destruct (PanelFacts.play_inSync actions) as [(_ & Hnd & _) Hsync].
  fold s in Hnd, Hsync. split; [exact Hsync|].
  rewrite Hsync. apply PanelFacts.NoDup_map_personId, Hnd.
Qed.

(** ** The MeetingAgent data series *)

Module AgentFacts.
Import MeetingGuardian MeetingDataPoint MeetingAgent AgentSpec.

Lemma calculatedEngagement_range data :
  10 <= calculatedEngagement data <= 100.
Proof.
  unfold calculatedEngagement, Js.Math_min, Js.Math_max, Rmin, Rmax.
  repeat destruct Rle_dec; lra.
Qed.

Lemma lastOf_In prev :
  (prev = [] /\ lastOf prev = (60, 50)) \/
  exists p, In p prev /\ lastOf prev = (sentiment p, engagement p).
Proof.
  unfold lastOf. destruct (nth_error prev (length prev - 1)) as [p|] eqn:E.
  - right. exists p. split; [eapply nth_error_In; exact E|reflexivity].
  - left. split; [|reflexivity]. apply nth_error_None in E.
    destruct prev as [|q prev]; [reflexivity|]. cbn [length] in E. lia.
Qed.

Lemma lastOf_range prev :
  Forall point_ok prev ->
  0 <= fst (lastOf prev) <= 100 /\ 10 <= snd (lastOf prev) <= 100.
Proof.
  intros Hok. destruct (lastOf_In prev) as [[_ ->]|(p & Hin & ->)].
  - cbn [fst snd]. lra.
  - rewrite Forall_forall in Hok. destruct (Hok p Hin) as (Hs & He & _).
    cbn [fst snd]. lra.
Qed.

Lemma Forall_slice_last {T} (P : T -> Prop) n l :
  Forall P l -> Forall P (slice_last n l).
Proof.
  intros H. destruct (UiFacts.slice_last_suffix n l) as (dropped & E & _).
  rewrite E in H. apply Forall_app in H. exact (proj2 H).
Qed.

(** What a frame appends, given the last sentiment and engagement. *)
Lemma addPoint_eq calc flux now random prev :
  exists p,
    addPoint calc flux now random prev = slice_last 40 prev ++ [p] /\
    time p = now /\ dominance p = random * 100 /\
    engagement p = snd (lastOf prev) * 0.7 + calc * 0.3 /\
    sentiment p
    = Js.Math_max 0
        (Js.Math_min 100
           (if Js.gtb calc 60 then fst (lastOf prev) + flux + 0.5
            else fst (lastOf prev) + flux)).
Proof.
  unfold addPoint. destruct (lastOf prev) as [ls le]. cbn [fst snd].
  eexists. split; [reflexivity|]. cbn [time dominance engagement sentiment].
  repeat split.
Qed.

Lemma analyzeFrame_ok t prev :
  0 <= random2 t < 1 ->
  (length prev <= 41)%nat /\ Forall point_ok prev ->
  (length (analyzeFrame t prev) <= 41)%nat /\
  Forall point_ok (analyzeFrame t prev).
Proof.
  intros Hr [_ Hok]. unfold analyzeFrame.
  destruct (addPoint_eq (calculatedEngagement (data t))
              ((random1 t - 0.5) * 5) (now t) (random2 t) prev)
    as (p & -> & _ & Hd & He & Hs).
  split.
  - rewrite length_app. cbn [length].
    pose proof (UiFacts.slice_last_length 40 prev). lia.
  - apply Forall_app. split; [now apply Forall_slice_last|].
    constructor; [|constructor].
    pose proof (calculatedEngagement_range (data t)) as Hc.
    destruct (lastOf_range prev Hok) as [_ Hle].
    unfold point_ok. rewrite Hd, He, Hs. split; [|split; lra].
    unfold Js.Math_min, Js.Math_max, Rmin, Rmax.
    repeat destruct Rle_dec; lra.
Qed.

Lemma series_ok ticks : forall prev,
  Forall (fun t => 0 <= random2 t < 1) ticks ->
  (length prev <= 41)%nat /\ Forall point_ok prev ->
  (length (fold_left (fun prev t => analyzeFrame t prev) ticks prev) <= 41)%nat /\
  Forall point_ok (fold_left (fun prev t => analyzeFrame t prev) ticks prev).
Proof.
  induction ticks as [|t ticks IH]; intros prev Hr H; [exact H|].
  inversion Hr as [|? ? Ht Hts]; subst.
  cbn [fold_left]. apply IH; [exact Hts|]. now apply analyzeFrame_ok.
Qed.

(** The last point after a frame is the appended one. *)
Lemma lastOf_snoc l p : lastOf (l ++ [p]) = (sentiment p, engagement p).
Proof.
  unfold lastOf. rewrite length_app. cbn [length].
  replace (length l + 1 - 1)%nat with (length l) by lia.
  rewrite nth_error_app2 by lia. rewrite Nat.sub_diag. reflexivity.
Qed.

End AgentFacts.

(** X29. The data series of the MeetingAgent component, over any run of
    analysed frames in which [Math.random] returns values of [0,1): the
    series never holds more than 41 points; every point has a sentiment
    in [0,100], an engagement in [10,100] and a dominance in [0,100); and
    one more frame moves the latest sentiment by at most 3 and the latest
    engagement 30% of the way to the frame's computed engagement, whatever
    the pixels are. *)
Theorem X29_agent_series_stays_bounded
    (ticks : list MeetingAgent.Tick) (t : MeetingAgent.Tick) :
  Forall AgentSpec.draws_ok ticks -> AgentSpec.draws_ok t ->
  let series := MeetingAgent.run ticks in
  let series' := MeetingAgent.analyzeFrame t series in
  (length series <= 41)%nat /\ Forall AgentSpec.point_ok series /\
  Rabs (fst (MeetingAgent.lastOf series') - fst (MeetingAgent.lastOf series))
  <= 3 /\
  snd (MeetingAgent.lastOf series')
  = snd (MeetingAgent.lastOf series)
    + 0.3 * (MeetingAgent.calculatedEngagement (MeetingAgent.data t)
             - snd (MeetingAgent.lastOf series)).
Proof.
  intros Hticks [Ht1 Ht2] series series'.
  assert (Hrun : (length series <= 41)%nat /\ Forall AgentSpec.point_ok series).
  { apply AgentFacts.series_ok.
    - eapply Forall_impl; [|exact Hticks]. intros a [_ Ha]. exact Ha.
    - split; [cbn; lia|constructor]. }
  destruct Hrun as [Hlen Hok].
  split; [exact Hlen|]. split; [exact Hok|].
  unfold series', MeetingAgent.analyzeFrame.
  destruct (AgentFacts.addPoint_eq
              (MeetingAgent.calculatedEngagement (MeetingAgent.data t))
              ((MeetingAgent.random1 t - 0.5) * 5) (MeetingAgent.now t)
              (MeetingAgent.random2 t) series)
    as (p & -> & _ & _ & He & Hs).
  rewrite AgentFacts.lastOf_snoc. cbn [fst snd].
  destruct (AgentFacts.lastOf_range series Hok) as [Hls _].
  split.
  - rewrite Hs. unfold Js.Math_min, Js.Math_max, Rmin, Rmax.
    apply Rabs_le.
    destruct (Js.gtb _ 60); repeat destruct Rle_dec; lra.
  - rewrite He. lra.
Qed.

(** X29 (witness): one grey frame after another. *)
Lemma X29_witness :
  let series := MeetingAgent.run [AgentSpec.greyTick] in
  let series' := MeetingAgent.analyzeFrame AgentSpec.greyTick series in
  (length series <= 41)%nat /\ Forall AgentSpec.point_ok series /\
  Rabs (fst (MeetingAgent.lastOf series') - fst (MeetingAgent.lastOf series))
  <= 3 /\
  snd (MeetingAgent.lastOf series')
  = snd (MeetingAgent.lastOf series)
    + 0.3 * (MeetingAgent.calculatedEngagement
               (MeetingAgent.data AgentSpec.greyTick)
             - snd (MeetingAgent.lastOf series)).
Proof.
  apply (X29_agent_series_stays_bounded [AgentSpec.greyTick] AgentSpec.greyTick).
  - constructor; [|constructor]. unfold AgentSpec.draws_ok. cbn. lra.
  - unfold AgentSpec.draws_ok. cbn. lra.
Defined.
